(** * Splink: blocking cost analysis, u-estimation, EM training session and
    the EM convergence test.

    A shallow embedding of the parts of
      - splink/params.py
      - splink/analyse_blocking.py
      - splink/estimate_u.py
      - splink/em_training_session.py
      - splink/internals/datasets/splink_datasets.py
    that the stated properties are about, with the properties proved (or
    refuted at a concrete input) against the embedding.

    Conventions.  Python floats are embedded as exact numbers (rationals in
    [Params], reals in [EstimateU]); rounding is outside the model.  SQL run
    by the backend is embedded by its relational meaning (group by, inner
    join, aggregate), with NULL as [None].  An exception is an explicit
    result value. *)

From Stdlib Require Import ZArith QArith Qabs Lia List Bool.
From Stdlib Require Reals Lra.
From Stdlib Require DecimalString.
From stdpp Require Import gmap strings list.

Set Warnings "-register-all".

Local Open Scope string_scope.
Local Open Scope list_scope.

(** ** Python string helpers shared by the modules *)

(** [p in s] on Python strings. *)
Fixpoint starts_with (p s : string) : bool :=
  match p, s with
  | EmptyString, _ => true
  | String a p', String b s' => Ascii.eqb a b && starts_with p' s'
  | String _ _, EmptyString => false
  end.

Fixpoint str_in (p s : string) : bool :=
  starts_with p s ||
  match s with
  | EmptyString => false
  | String _ s' => str_in p s'
  end.

(** [str.lower] on the ASCII letters; every other byte is left as it is
    (the bytes of a caseless or already lower-case letter such as the Greek
    letters used as keys are unchanged by Python as well). *)
Definition lower_ascii (c : Ascii.ascii) : Ascii.ascii :=
  let n := Ascii.nat_of_ascii c in
  if (65 <=? n)%nat && (n <=? 90)%nat then Ascii.ascii_of_nat (n + 32) else c.

Fixpoint lower (s : string) : string :=
  match s with
  | EmptyString => EmptyString
  | String c s' => String (lower_ascii c) (lower s')
  end.

(** The link type of a job, shared by all the modules. *)
Inductive link_type : Type := dedupe_only | link_only | link_and_dedupe.

(** ** params.py *)

Module Params.

(** The values a parameter dictionary holds (it is written to and read from
    JSON). *)
Inductive pyval : Type :=
| PNum (q : Q)
| PStr (s : string)
| PNone
| PList (l : list pyval)
| PDict (d : list (string * pyval)).

(** [k = f"{parent_key}{separator}{k}" if parent_key else k]: an empty
    parent key is falsy, like [None]. *)
Definition child_key (parent_key : option string) (separator k : string) : string :=
  match parent_key with
  | Some p => if String.eqb p "" then k else p ++ separator ++ k
  | None => k
  end.

(** One iteration of the loop of [_flatten_dict] on the item [(k, v)], [k]
    already prefixed: a dict is flattened into the same accumulator (the
    recursive call leaves [separator] at its default), anything else is
    stored under [k]. *)
Fixpoint flatten_item (k : string) (v : pyval) (accumulator : gmap string pyval)
  : gmap string pyval :=
  match v with
  | PDict d =>
      (fix items (d : list (string * pyval)) (acc : gmap string pyval) :=
         match d with
         | [] => acc
         | (k', v') :: rest =>
             items rest (flatten_item (child_key (Some k) "_" k') v' acc)
         end) d accumulator
  | _ => <[k := v]> accumulator
  end.

Definition _flatten_dict_acc (dictionary : list (string * pyval))
  (accumulator : gmap string pyval) (parent_key : option string) (separator : string)
  : gmap string pyval :=
  fold_left (fun acc kv => flatten_item (child_key parent_key separator kv.1) kv.2 acc)
    dictionary accumulator.

(** [_flatten_dict(dictionary)] with its defaults: a fresh accumulator, no
    parent key, separator ["_"]. *)
Definition _flatten_dict (dictionary : list (string * pyval)) : gmap string pyval :=
  _flatten_dict_acc dictionary ∅ None "_".

(** The guard of the two dict comprehensions of [is_converged]:
    ["_probability" in key.lower()]. *)
Definition is_probability_key (key : string) : bool :=
  str_in "_probability" (lower key).

Definition probability_entries (p : list (string * pyval)) : gmap string pyval :=
  filter (fun kv => is_probability_key kv.1 = true) (_flatten_dict p).

Definition Qltb (x y : Q) : bool := negb (Qle_bool y x).

(** [abs(p_new[item] - p_old[item]) < threshold]; [None] when the key is
    missing from [p_old] (KeyError) or an operand is not a number
    (TypeError). *)
Definition change_below (p_old : gmap string pyval) (threshold : Q)
  (item : string * pyval) : option bool :=
  match item.2, p_old !! item.1 with
  | PNum a, Some (PNum b) => Some (Qltb (Qabs (a - b)) threshold)
  | _, _ => None
  end.

(** [Params.is_converged], with [self.params], [self.param_history[-1]] and
    [self.settings["em_convergence"]] as arguments.  The loop that finds the
    biggest change only feeds the log line. *)
Definition is_converged (p_latest p_previous : list (string * pyval)) (threshold : Q)
  : option bool :=
  let p_new := probability_entries p_latest in
  let p_old := probability_entries p_previous in
  diff ← mapM (change_below p_old threshold) (map_to_list p_new);
  Some (forallb (fun b : bool => b) diff).

(** The layout of a parameter dictionary as the accessors of the class read
    it ([_iteration_history_df_lambdas],
    [_convert_params_dict_to_bayes_factor_iteration_history]): λ under ["λ"],
    and under ["π"], per gamma column, the m-probabilities
    (["prob_dist_match"]) and the u-probabilities (["prob_dist_non_match"])
    of each level, each under ["probability"]. *)
Record snapshot : Type := {
  lam : Q;
  gammas : list (string * list (string * (Q * Q)))
}.

Definition prob_dist (pick : Q * Q -> Q) (levels : list (string * (Q * Q))) : pyval :=
  PDict (map (fun lv => (lv.1, PDict [("probability", PNum (pick lv.2))])) levels).

Definition params_of (s : snapshot) : list (string * pyval) :=
  [("λ", PNum (lam s));
   ("π", PDict (map (fun g =>
            (g.1, PDict [("prob_dist_match", prob_dist fst g.2);
                         ("prob_dist_non_match", prob_dist snd g.2)]))
          (gammas s)))].

(** The convergence rule in the words of the specification: λ and every m
    and u value moved by less than the threshold between the two snapshots
    (a fixed parameter does not move). *)
Definition all_values (s : snapshot) : list Q :=
  lam s :: flat_map (fun g => flat_map (fun lv => [lv.2.1; lv.2.2]) g.2) (gammas s).

Definition is_converged_spec (cur prev : snapshot) (threshold : Q) : bool :=
  forallb (fun ab => Qltb (Qabs (ab.1 - ab.2)) threshold)
    (combine (all_values cur) (all_values prev)).

(** Two snapshots with the same m and u values whose λ differ by 0.7. *)
Definition snap_prev : snapshot :=
  {| lam := 2 # 10;
     gammas := [("gamma_name", [("level_0", (3 # 10, 6 # 10)); ("level_1", (7 # 10, 4 # 10))])] |}.

Definition snap_cur : snapshot :=
  {| lam := 9 # 10; gammas := gammas snap_prev |}.

(** *** Properties *)

Lemma Qltb_lt x y : Qltb x y = true <-> (x < y)%Q.
Proof.
  unfold Qltb. rewrite negb_true_iff, <- not_true_iff_false, Qle_bool_iff.
  split; [apply Qnot_le_lt | apply Qlt_not_le].
Qed.

Lemma mapM_all_true {A} (f : A -> option bool) (l : list A) :
  (mapM f l ≫= fun d => Some (forallb (fun b : bool => b) d)) = Some true
  <-> Forall (fun x => f x = Some true) l.
Proof.
  induction l as [|a l IH]; simpl.
  - split; [constructor | reflexivity].
  - rewrite Forall_cons. rewrite <- IH. clear IH.
    destruct (f a) as [[|]|]; simpl; destruct (mapM f l) as [d|]; simpl;
      intuition congruence.
Qed.

Lemma change_below_true p_old thr k v :
  change_below p_old thr (k, v) = Some true <->
  exists a b, v = PNum a /\ p_old !! k = Some (PNum b) /\ (Qabs (a - b) < thr)%Q.
Proof.
  unfold change_below; simpl. split.
  - destruct v; try discriminate.
    destruct (p_old !! k) as [[]|]; try discriminate.
    intros [= H]. apply Qltb_lt in H. eauto.
  - intros (a & b & -> & -> & H). f_equal. by apply Qltb_lt.
Qed.

(** C3 (as amended): the convergence test returns [True] exactly when every
    flattened entry of the current parameters whose lower-cased key contains
    ["_probability"] (the m and u probabilities) is a number, has a numeric
    counterpart under the same key in the previous snapshot, and differs
    from it by less than the threshold.  No other entry is looked at. *)
Theorem is_converged_iff p_latest p_previous thr :
  is_converged p_latest p_previous thr = Some true <->
  (forall k v, probability_entries p_latest !! k = Some v ->
     exists a b, v = PNum a /\
       probability_entries p_previous !! k = Some (PNum b) /\
       (Qabs (a - b) < thr)%Q).
Proof.
  unfold is_converged. rewrite mapM_all_true, Forall_forall. split.
  - intros H k v Hk. apply change_below_true, H.
    by apply elem_of_map_to_list.
  - intros H [k v] Hin. apply change_below_true, H.
    by apply elem_of_map_to_list.
Qed.

Lemma pyval_nested_ind (P : pyval -> Prop) :
  (forall q, P (PNum q)) -> (forall s, P (PStr s)) -> P PNone ->
  (forall l, P (PList l)) ->
  (forall d, Forall (fun kv => P kv.2) d -> P (PDict d)) ->
  forall v, P v.
Proof.
  intros Hn Hs Ho Hl Hd. fix IH 1.
  intros [q|s| |l|d]; [apply Hn | apply Hs | apply Ho | apply Hl |].
  apply Hd. revert d. fix IHd 1. intros [|[k v] d]; constructor.
  - apply IH.
  - apply IHd.
Qed.

Lemma flatten_item_dict k d acc :
  flatten_item k (PDict d) acc = _flatten_dict_acc d acc (Some k) "_".
Proof.
  unfold _flatten_dict_acc. simpl. revert acc.
  induction d as [|[k' v'] d IH]; intros acc; simpl; [done|]. by rewrite IH.
Qed.

Lemma flatten_item_union k v acc :
  flatten_item k v acc = flatten_item k v ∅ ∪ acc.
Proof.
  revert k acc. induction v as [q|s| |l|d IH] using pyval_nested_ind; intros k acc;
    try (simpl; by rewrite insert_union_singleton_l, insert_empty).
  rewrite !flatten_item_dict. unfold _flatten_dict_acc.
  generalize (Some k) as pk. intros pk.
  revert acc. induction IH as [|[k' v'] d Hv _ IHd]; intros acc; simpl.
  - by rewrite (left_id_L ∅ (∪)).
  - rewrite IHd. rewrite (IHd (flatten_item _ _ ∅)). simpl in Hv.
    rewrite (Hv _ acc). by rewrite (assoc_L (∪)).
Qed.

Lemma flatten_dict_acc_union d acc pk sep :
  _flatten_dict_acc d acc pk sep = _flatten_dict_acc d ∅ pk sep ∪ acc.
Proof.
  unfold _flatten_dict_acc. revert acc.
  induction d as [|[k v] d IH]; intros acc; simpl.
  - by rewrite (left_id_L ∅ (∪)).
  - rewrite IH, (IH (flatten_item _ _ ∅)), (flatten_item_union _ _ acc).
    by rewrite (assoc_L (∪)).
Qed.

Lemma flatten_dict_acc_app pre post acc pk sep :
  _flatten_dict_acc (pre ++ post) acc pk sep =
  _flatten_dict_acc post (_flatten_dict_acc pre acc pk sep) pk sep.
Proof. unfold _flatten_dict_acc. by rewrite fold_left_app. Qed.

Lemma flatten_dict_acc_cons k v post acc pk sep :
  _flatten_dict_acc ((k, v) :: post) acc pk sep =
  _flatten_dict_acc post (flatten_item (child_key pk sep k) v acc) pk sep.
Proof. reflexivity. Qed.

(** A scalar stored at the top level under a key that does not contain
    ["_probability"] never reaches the comparison. *)
Lemma probability_entries_skip pre post k v :
  is_probability_key k = false ->
  (forall d, v <> PDict d) ->
  probability_entries (pre ++ (k, v) :: post) = probability_entries (pre ++ post).
Proof.
  intros Hk Hv. unfold probability_entries, _flatten_dict.
  rewrite !flatten_dict_acc_app, flatten_dict_acc_cons.
  set (m := _flatten_dict_acc pre ∅ None "_").
  rewrite (flatten_dict_acc_union post (flatten_item _ _ _)), (flatten_dict_acc_union post m).
  assert (flatten_item (child_key None "_" k) v m = <[k:=v]> m) as ->.
  { destruct v; try done. by destruct (Hv d). }
  apply map_eq. intros j. rewrite !map_lookup_filter, !lookup_union.
  destruct (decide (k = j)) as [->|Hne].
  - rewrite lookup_insert_eq.
    destruct (_flatten_dict_acc post ∅ None "_" !! j) as [x|] eqn:E; simpl;
      destruct (m !! j); simpl; repeat case_guard; simpl in *; congruence.
  - by rewrite lookup_insert_ne.
Qed.

Lemma is_converged_skips_scalar pre post k x y p_previous thr :
  is_probability_key k = false ->
  is_converged (pre ++ (k, PNum x) :: post) p_previous thr =
  is_converged (pre ++ (k, PNum y) :: post) p_previous thr.
Proof.
  intros Hk. unfold is_converged.
  by rewrite !(probability_entries_skip pre post k) by done.
Qed.

Example lambda_key_skipped :
  is_probability_key "λ" = false /\
  is_probability_key "proportion_of_matches" = false /\
  is_probability_key "probability_two_random_records_match" = false.
Proof. by vm_compute. Qed.

Example flatten_snap_prev :
  map fst (map_to_list (probability_entries (params_of snap_prev))) ≡ₚ
  ["π_gamma_name_prob_dist_match_level_0_probability";
   "π_gamma_name_prob_dist_match_level_1_probability";
   "π_gamma_name_prob_dist_non_match_level_0_probability";
   "π_gamma_name_prob_dist_non_match_level_1_probability"].
Proof. vm_compute. by repeat (solve_Permutation || constructor). Qed.

(** C3 (as stated) fails: λ moves from 0.2 to 0.9, far more than the
    threshold 0.0001, and the test still answers [True]. *)
Lemma is_converged_ignores_lambda :
  ~ (is_converged (params_of snap_cur) (params_of snap_prev) (1 # 10000) = Some true
     <-> is_converged_spec snap_cur snap_prev (1 # 10000) = true).
Proof.
  assert (is_converged (params_of snap_cur) (params_of snap_prev) (1 # 10000) = Some true)
    as Hcode by (by vm_compute).
  assert (is_converged_spec snap_cur snap_prev (1 # 10000) = false)
    as Hspec by (by vm_compute).
  intros [H _]. rewrite (H Hcode) in Hspec. discriminate.
Qed.

(** *** More on _flatten_dict and is_converged *)

(** No value of the map is a dictionary. *)
Definition scalar_values (m : gmap string pyval) : Prop :=
  map_Forall (fun _ v => forall d, v <> PDict d) m.

Lemma flatten_item_scalar k v acc :
  scalar_values acc -> scalar_values (flatten_item k v acc).
Proof.
  revert k acc. induction v as [q|s| |l|d IH] using pyval_nested_ind; intros k acc Hacc;
    try (simpl; apply map_Forall_insert_2; [done|exact Hacc]).
  rewrite flatten_item_dict. unfold _flatten_dict_acc.
  generalize (Some k) as pk. intros pk. revert acc Hacc.
  induction IH as [|[k' v'] d Hv _ IHd]; intros acc Hacc; simpl; [done|].
  apply IHd. apply Hv. exact Hacc.
Qed.

Lemma flatten_dict_acc_scalar d acc pk sep :
  scalar_values acc -> scalar_values (_flatten_dict_acc d acc pk sep).
Proof.
  unfold _flatten_dict_acc. revert acc.
  induction d as [|[k v] d IH]; intros acc Hacc; simpl; [done|].
  apply IH. by apply flatten_item_scalar.
Qed.

(** [_flatten_dict] never stores a dictionary: every value of the result is
    a leaf (a number, a string, [None] or a list), whatever the nesting of
    the input. *)
Theorem flatten_dict_values_are_leaves dictionary k v :
  _flatten_dict dictionary !! k = Some v -> forall d, v <> PDict d.
Proof.
  intros Hk. revert k v Hk.
  change (scalar_values (_flatten_dict dictionary)).
  apply flatten_dict_acc_scalar. apply map_Forall_empty.
Qed.

Lemma flatten_dict_values_are_leaves_witness :
  exists v, _flatten_dict (params_of snap_cur) !! "λ" = Some v /\ (forall d, v <> PDict d).
Proof.
  exists (PNum (9 # 10)). split; [reflexivity|].
  apply (flatten_dict_values_are_leaves (params_of snap_cur) "λ" (PNum (9 # 10))).
  reflexivity.
Defined.

(** Flattening into an accumulator that already holds entries is
    flattening into a fresh one and laying the result over the accumulator:
    an entry of the accumulator survives unless the dictionary produces its
    key, and the entries the dictionary produces do not depend on the
    accumulator. *)
Theorem flatten_dict_over_accumulator dictionary accumulator parent_key separator k :
  _flatten_dict_acc dictionary accumulator parent_key separator !! k =
  match _flatten_dict_acc dictionary ∅ parent_key separator !! k with
  | Some v => Some v
  | None => accumulator !! k
  end.
Proof.
  rewrite flatten_dict_acc_union, lookup_union.
  destruct (_flatten_dict_acc dictionary ∅ parent_key separator !! k) as [v|]; simpl.
  - by destruct (accumulator !! k).
  - by rewrite (left_id_L None _).
Qed.

(** A dictionary that holds no dictionary is flattened to itself: every
    key is kept as it is, with the value of its last item. *)
Theorem flatten_dict_flat dictionary :
  Forall (fun kv => forall d, kv.2 <> PDict d) dictionary ->
  _flatten_dict dictionary = list_to_map (reverse dictionary).
Proof.
  intros Hflat. unfold _flatten_dict, _flatten_dict_acc.
  assert (forall acc,
    fold_left (fun acc kv => flatten_item (child_key None "_" kv.1) kv.2 acc) dictionary acc
    = list_to_map (reverse dictionary) ∪ acc) as H.
  { induction Hflat as [|[k v] d Hv _ IH]; intros acc; simpl.
    - by rewrite (left_id_L ∅ (∪)).
    - rewrite IH, reverse_cons, list_to_map_app. simpl.
      assert (flatten_item k v acc = <[k:=v]> acc) as ->.
      { destruct v; try done. by destruct (Hv d0). }
      rewrite insert_empty, <- (assoc_L (∪)). f_equal.
      by rewrite insert_union_singleton_l. }
  rewrite H. by rewrite (right_id_L ∅ (∪)).
Qed.

Lemma flatten_dict_flat_witness :
  _flatten_dict [("λ", PNum (1 # 2)); ("iteration", PNum 3)] =
  list_to_map (reverse [("λ", PNum (1 # 2)); ("iteration", PNum 3)]).
Proof.
  apply flatten_dict_flat. repeat constructor; simpl; discriminate.
Defined.

(** A value other than a dictionary stored at the top level under a key
    that does not contain ["_probability"] (such as λ) has no part in the
    convergence test, neither in the current parameters nor in the previous
    snapshot: the test answers (or raises) as if the entry were not
    there. *)
Theorem is_converged_ignores_other_scalars pre post k v p_other thr :
  is_probability_key k = false ->
  (forall d, v <> PDict d) ->
  is_converged (pre ++ (k, v) :: post) p_other thr = is_converged (pre ++ post) p_other thr /\
  is_converged p_other (pre ++ (k, v) :: post) thr = is_converged p_other (pre ++ post) thr.
Proof.
  intros Hk Hv. unfold is_converged.
  by rewrite !(probability_entries_skip pre post k v Hk Hv).
Qed.

Lemma is_converged_ignores_other_scalars_witness :
  is_converged ([] ++ ("λ", PNum (9 # 10)) :: List.tl (params_of snap_prev))
    (params_of snap_prev) (1 # 10000) =
  is_converged ([] ++ List.tl (params_of snap_prev)) (params_of snap_prev) (1 # 10000).
Proof.
  apply (is_converged_ignores_other_scalars [] (List.tl (params_of snap_prev)) "λ");
    [reflexivity|discriminate].
Defined.

Lemma mapM_is_None {A B} (f : A -> option B) (l : list A) :
  mapM f l = None <-> Exists (fun x => f x = None) l.
Proof.
  induction l as [|a l IH]; simpl.
  - split; [done|]. by intros H%Exists_nil.
  - rewrite Exists_cons, <- IH. clear IH.
    destruct (f a); simpl; destruct (mapM f l); simpl; unfold mret, option_ret;
      intuition congruence.
Qed.

(** The convergence test raises (a [KeyError] or a [TypeError]) exactly when
    some compared entry of the current parameters is not a number, or has no
    numeric counterpart under the same key in the previous snapshot: a
    probability that is [None], or a comparison the previous snapshot does
    not know. *)
Theorem is_converged_raises_iff p_latest p_previous thr :
  is_converged p_latest p_previous thr = None <->
  exists k v, probability_entries p_latest !! k = Some v /\
    (forall a b, ~ (v = PNum a /\ probability_entries p_previous !! k = Some (PNum b))).
Proof.
  unfold is_converged.
  destruct (mapM _ _) as [diff|] eqn:E; simpl.
  - split; [done|]. intros (k & v & Hk & Hbad). exfalso.
    assert (mapM (change_below (probability_entries p_previous) thr)
              (map_to_list (probability_entries p_latest)) <> None) as Hne by congruence.
    apply Hne, mapM_is_None, Exists_exists. exists (k, v).
    split; [by apply elem_of_map_to_list|].
    unfold change_below. simpl. destruct v; try done.
    destruct (probability_entries p_previous !! k) as [[]|] eqn:Eo; try done.
    by destruct (Hbad q q0).
  - split; [|done]. intros _.
    apply mapM_is_None, Exists_exists in E as ([k v] & Hin & Hnone).
    exists k, v. split; [by apply elem_of_map_to_list|].
    intros a b [-> Hb]. unfold change_below in Hnone. simpl in Hnone.
    by rewrite Hb in Hnone.
Qed.

(** Convergence is monotone in the threshold: parameters that have
    converged for a threshold have converged for every larger one. *)
Theorem is_converged_threshold_monotone p_latest p_previous thr thr' :
  (thr <= thr')%Q ->
  is_converged p_latest p_previous thr = Some true ->
  is_converged p_latest p_previous thr' = Some true.
Proof.
  intros Hle. unfold is_converged. rewrite !mapM_all_true, !Forall_forall.
  intros H [k v] Hin. specialize (H (k, v) Hin).
  apply change_below_true in H as (a & b & -> & Hb & Hlt).
  apply change_below_true. exists a, b. repeat split; [done|].
  eapply Qlt_le_trans; eassumption.
Qed.

Lemma is_converged_threshold_monotone_witness :
  is_converged (params_of snap_cur) (params_of snap_prev) (1 # 100) = Some true.
Proof.
  apply (is_converged_threshold_monotone _ _ (1 # 10000)); by vm_compute.
Defined.

(** *** _to_dict, load_params_from_dict, save_params_to_json_file *)

Inductive exn : Type :=
| ValueError (msg : string)
| KeyError (key : string)
| SettingsError (msg : string).

Inductive outcome (A : Type) : Type :=
| Ok (a : A)
| Raise (e : exn).
Arguments Ok {A} a.
Arguments Raise {A} e.

(** The attributes of a [Params] object; [Settings] "is just a wrapper
    around the settings dict" and is embedded as the dictionary. *)
Record Params : Type := {
  params : pyval;
  param_history : pyval;
  settings : pyval;
  settings_original : pyval;
  iteration : nat;
  log_likelihood_exists : bool
}.

Section Persist.

(** Parts that live outside these sources, taken as given:
    [complete_settings_dict] (settings.py), which fills the defaults in or
    rejects the settings; the Spark session it is handed; [json.dump]. *)
Variable spark_session : Type.
Variable complete_settings_dict : pyval -> option spark_session -> outcome pyval.
Variable json_dump : gmap string pyval -> string.

(** [Params.__init__] *)
Definition init (settings : pyval) (spark : option spark_session) : outcome Params :=
  match complete_settings_dict settings spark with
  | Raise e => Raise e
  | Ok settings_dict_completed =>
      Ok {| params := settings_dict_completed;
            param_history := PList [];
            settings := settings_dict_completed;
            settings_original := settings;
            iteration := 0;
            log_likelihood_exists := false |}
  end.

Definition _to_dict (p : Params) : gmap string pyval :=
  <["settings_original" := settings_original p]>
    (<["settings" := settings p]>
       (<["historical_params" := param_history p]>
          (<["current_params" := params p]> ∅))).

Definition expected_keys : gset string :=
  {["current_params"; "settings_original"; "settings"; "historical_params"]}.

Definition load_params_from_dict (param_dict : gmap string pyval) : outcome Params :=
  if decide (dom param_dict = expected_keys) then
    match param_dict !! "settings", param_dict !! "current_params",
          param_dict !! "historical_params", param_dict !! "settings_original" with
    | Some s, Some current, Some historical, Some original =>
        match init s None with
        | Raise e => Raise e
        | Ok p =>
            Ok {| params := current;
                  param_history := historical;
                  settings := settings p;
                  settings_original := original;
                  iteration := iteration p;
                  log_likelihood_exists := log_likelihood_exists p |}
        end
    | None, _, _, _ => Raise (KeyError "settings")
    | _, None, _, _ => Raise (KeyError "current_params")
    | _, _, None, _ => Raise (KeyError "historical_params")
    | _, _, _, None => Raise (KeyError "settings_original")
    end
  else Raise (ValueError "Your saved params seem to be corrupted").

(** [save_params_to_json_file], on the files of the file system by path;
    [open(path, "w")] creates or replaces the file. *)
Definition save_params_to_json_file (p : Params) (path : option string) (overwrite : bool)
  (fs : gmap string string) : gmap string string * outcome unit :=
  match path with
  | None => (fs, Raise (ValueError "Must provide a path to write to"))
  | Some path =>
      if String.eqb path "" then (fs, Raise (ValueError "Must provide a path to write to"))
      else if bool_decide (is_Some (fs !! path)) && negb overwrite then
        (fs, Raise (ValueError ("The path " +:+ path +:+
                                " already exists. Please provide a different path.")))
      else (<[path := json_dump (_to_dict p)]> fs, Ok tt)
  end.

Lemma to_dict_dom p : dom (_to_dict p) = expected_keys.
Proof. unfold _to_dict, expected_keys. rewrite !dom_insert_L, dom_empty_L. set_solver. Qed.

(** Saving to a dictionary and loading it back gives the current
    parameters, the history and the original settings back; the settings are
    completed again from the saved completed settings, the iteration counter
    restarts at 0 and the log-likelihood flag is cleared. *)
Theorem load_params_from_dict_round_trip p completed :
  complete_settings_dict (settings p) None = Ok completed ->
  load_params_from_dict (_to_dict p) =
    Ok {| params := params p;
          param_history := param_history p;
          settings := completed;
          settings_original := settings_original p;
          iteration := 0;
          log_likelihood_exists := false |}.
Proof.
  intros Hc. unfold load_params_from_dict.
  rewrite decide_True by apply to_dict_dom.
  unfold _to_dict.
  rewrite (lookup_insert_ne _ "settings_original" "settings") by done.
  rewrite (lookup_insert_eq _ "settings").
  rewrite !(lookup_insert_ne _ _ "current_params") by done.
  rewrite (lookup_insert_eq _ "current_params").
  rewrite !(lookup_insert_ne _ _ "historical_params") by done.
  rewrite (lookup_insert_eq _ "historical_params").
  rewrite (lookup_insert_eq _ "settings_original").
  unfold init. by rewrite Hc.
Qed.

(** A payload is loaded only when its keys are exactly the four expected
    ones: one key more, or one of the four missing, and the load raises the
    "corrupted" [ValueError]; and a payload that is loaded gives its entries
    to the object as they are. *)
Theorem load_params_from_dict_checks_keys param_dict :
  (forall k v, k ∉ expected_keys ->
     load_params_from_dict (<[k := v]> param_dict) =
       Raise (ValueError "Your saved params seem to be corrupted")) /\
  (forall k, k ∈ expected_keys ->
     load_params_from_dict (delete k param_dict) =
       Raise (ValueError "Your saved params seem to be corrupted")) /\
  (forall p, load_params_from_dict param_dict = Ok p ->
     dom param_dict = expected_keys /\
     param_dict !! "current_params" = Some (params p) /\
     param_dict !! "historical_params" = Some (param_history p) /\
     param_dict !! "settings_original" = Some (settings_original p) /\
     iteration p = 0%nat /\ log_likelihood_exists p = false).
Proof.
  split; [|split].
  - intros k v Hk. unfold load_params_from_dict.
    rewrite decide_False; [done|]. rewrite dom_insert_L.
    intros Heq. apply Hk. rewrite <- Heq. apply elem_of_union_l, elem_of_singleton. done.
  - intros k Hk. unfold load_params_from_dict.
    rewrite decide_False; [done|]. rewrite dom_delete_L.
    intros Heq. rewrite <- Heq in Hk. apply elem_of_difference in Hk as [_ Hk].
    apply Hk, elem_of_singleton. done.
  - intros p. unfold load_params_from_dict.
    destruct (decide (dom param_dict = expected_keys)) as [Hd|]; [|done].
    destruct (param_dict !! "settings") as [s|]; [|done].
    destruct (param_dict !! "current_params") as [c|]; [|done].
    destruct (param_dict !! "historical_params") as [h|]; [|done].
    destruct (param_dict !! "settings_original") as [o|]; [|done].
    unfold init. destruct (complete_settings_dict s None); [|done].
    by intros [= <-].
Qed.

(** Without [overwrite] no file that exists is replaced, and whatever the
    flag no file other than [path] is touched.  A call without a path, or
    without [overwrite] on a path that exists, raises a [ValueError] and
    leaves the files as they were: both checks come before the file is
    opened. *)
Theorem save_params_keeps_existing_files p path overwrite fs :
  let fs' := (save_params_to_json_file p path overwrite fs).1 in
  (forall q, Some q <> path -> fs' !! q = fs !! q) /\
  (overwrite = false -> forall q content, fs !! q = Some content -> fs' !! q = Some content) /\
  (path = None \/ path = Some "" \/
   (overwrite = false /\ exists q, path = Some q /\ is_Some (fs !! q)) ->
   fs' = fs /\
   exists msg, (save_params_to_json_file p path overwrite fs).2 = Raise (ValueError msg)).
Proof.
  cbv zeta. unfold save_params_to_json_file.
  destruct path as [path|]; simpl.
  2:{ split; [done|]. split; [done|]. intros _. split; [done|]. by eexists. }
  destruct (String.eqb_spec path "") as [->|Hne]; simpl.
  { split; [done|]. split; [done|]. intros _. split; [done|]. by eexists. }
  destruct (bool_decide (is_Some (fs !! path))) eqn:Ex; destruct overwrite; simpl.
  - split; [|split].
    + intros q Hq. rewrite lookup_insert_ne; [done|]. congruence.
    + done.
    + intros [?|[[= ?]|[? _]]]; done.
  - split; [done|]. split; [done|]. intros _. split; [done|]. by eexists.
  - split; [|split].
    + intros q Hq. rewrite lookup_insert_ne; [done|]. congruence.
    + done.
    + intros [?|[[= ?]|[? _]]]; done.
  - apply bool_decide_eq_false in Ex. split; [|split].
    + intros q Hq. rewrite lookup_insert_ne; [done|]. congruence.
    + intros _ q content Hq. rewrite lookup_insert_ne; [done|].
      intros ->. apply Ex. by exists content.
    + intros [?|[[= ?]|[_ (q & [= <-] & Hq)]]]; done.
Qed.

End Persist.

(** An object as [__init__] leaves it for the settings [PDict []], when
    completing the settings leaves them as they are. *)
Definition params_ex : Params :=
  {| params := PDict [("λ", PNum (1 # 2))];
     param_history := PList [PDict [("λ", PNum (1 # 4))]];
     settings := PDict [];
     settings_original := PDict [];
     iteration := 2;
     log_likelihood_exists := true |}.

Lemma load_params_from_dict_round_trip_witness :
  load_params_from_dict unit (fun s _ => Ok s) (_to_dict params_ex) =
    Ok {| params := params params_ex;
          param_history := param_history params_ex;
          settings := PDict [];
          settings_original := settings_original params_ex;
          iteration := 0;
          log_likelihood_exists := false |}.
Proof.
  apply (load_params_from_dict_round_trip unit (fun s _ => Ok s) params_ex). reflexivity.
Defined.

Lemma load_params_from_dict_checks_keys_witness :
  load_params_from_dict unit (fun s _ => Ok s) (<["version" := PNum 1]> (_to_dict params_ex)) =
    Raise (ValueError "Your saved params seem to be corrupted").
Proof.
  apply (proj1 (load_params_from_dict_checks_keys unit (fun s _ => Ok s) (_to_dict params_ex))).
  unfold expected_keys. rewrite !not_elem_of_union, !not_elem_of_singleton. done.
Defined.

Lemma save_params_keeps_existing_files_witness :
  (save_params_to_json_file (fun _ => "{}") params_ex (Some "new.json") false
     {["saved.json" := "old"]}).1 !! "saved.json" = Some "old".
Proof.
  apply (proj1 (proj2 (save_params_keeps_existing_files (fun _ => "{}") params_ex
                         (Some "new.json") false {["saved.json" := "old"]})) eq_refl).
  reflexivity.
Defined.

(** *** _convert_params_dict_to_bayes_factor_iteration_history *)

(** [d[k]] on a value: [None] when [d] is not a dictionary (TypeError) or
    has no key [k] (KeyError). *)
Definition dict_get (d : pyval) (k : string) : option pyval :=
  match d with
  | PDict items => snd <$> find (fun kv => String.eqb kv.1 k) items
  | _ => None
  end.

(** [list(d.keys())]; [None] when [d] has no [keys] (AttributeError). *)
Definition dict_keys (d : pyval) : option (list string) :=
  match d with
  | PDict items => Some (map fst items)
  | _ => None
  end.

(** The argument of [range]: a whole number (an int is embedded as a
    number of denominator 1); a negative one gives the empty range. *)
Definition as_range (v : pyval) : option (list nat) :=
  match v with
  | PNum q => if (Qden q =? 1)%positive then Some (seq 0 (Z.to_nat (Qnum q))) else None
  | _ => None
  end.

(** [f"level_{l}"] *)
Definition level_key (l : nat) : string :=
  "level_" +:+ DecimalString.NilZero.string_of_uint (Nat.to_uint l).

(** A row of the Bayes factor history; [bayes_factor] is [None] when the
    division raised [ZeroDivisionError]. *)
Record bayes_factor_row : Type := {
  row_iteration : nat;
  row_level : nat;
  row_num_levels : pyval;
  row_column : pyval;
  row_m : Q;
  row_u : Q;
  row_bayes_factor : option Q;
  row_final : bool
}.

(** [row["m"] / row["u"]] inside [try ... except ZeroDivisionError]: the
    outer [None] is an exception that is not caught (TypeError). *)
Definition try_divide (m u : pyval) : option (Q * Q * option Q) :=
  match m, u with
  | PNum a, PNum b => Some (a, b, if Qeq_bool b 0 then None else Some (a / b)%Q)
  | _, _ => None
  end.

(** The body of the innermost loop. *)
Definition level_row (it_num : nat) (final : bool) (this_gamma : pyval) (l : nat)
  : option bayes_factor_row :=
  let level := level_key l in
  num_levels ← dict_get this_gamma "num_levels";
  column ← dict_get this_gamma "column_name";
  m ← (dict_get this_gamma "prob_dist_match" ≫= fun d => dict_get d level)
        ≫= (fun d => dict_get d "probability");
  u ← (dict_get this_gamma "prob_dist_non_match" ≫= fun d => dict_get d level)
        ≫= (fun d => dict_get d "probability");
  '(a, b, bayes_factor) ← try_divide m u;
  Some {| row_iteration := it_num; row_level := l; row_num_levels := num_levels;
          row_column := column; row_m := a; row_u := b;
          row_bayes_factor := bayes_factor; row_final := final |}.

(** The body of the loop [for g in gk]. *)
Definition gamma_rows (it_num : nat) (final : bool) (param_value : pyval) (g : string)
  : option (list bayes_factor_row) :=
  pi ← dict_get param_value "π";
  _ ← dict_keys pi;
  this_gamma ← dict_get pi g;
  levels ← dict_get this_gamma "num_levels" ≫= as_range;
  mapM (level_row it_num final this_gamma) levels.

(** The loop over the history from iteration [it_num] on.  [gk] is the list
    the name [gk] is bound to when [for g in gk] starts: the body rebinds
    the name to the keys of the snapshot at hand, which the loop of the next
    iteration then runs over. *)
Fixpoint history_rows (len it_num : nat) (gk : list string) (param_history : list pyval)
  : option (list bayes_factor_row) :=
  match param_history with
  | [] => Some []
  | param_value :: rest =>
      let final := (it_num =? len - 1)%nat in
      rows ← mapM (gamma_rows it_num final param_value) gk;
      gk' ← match gk with
            | [] => Some gk
            | _ :: _ => dict_get param_value "π" ≫= dict_keys
            end;
      rest_rows ← history_rows len (S it_num) gk' rest;
      Some (concat rows ++ rest_rows)
  end.

(** [Params._convert_params_dict_to_bayes_factor_iteration_history], with
    [self.params] and [self.param_history] as arguments. *)
Definition _convert_params_dict_to_bayes_factor_iteration_history
  (params : pyval) (param_history : list pyval) : option (list bayes_factor_row) :=
  pi ← dict_get params "π";
  gk ← dict_keys pi;
  history_rows (length param_history) 0 gk param_history.

(** What holds of a row of the history. *)
Definition bayes_factor_row_ok (len : nat) (r : bayes_factor_row) : Prop :=
  (row_bayes_factor r = None <-> (row_u r == 0)%Q) /\
  (forall b, row_bayes_factor r = Some b -> (b * row_u r == row_m r)%Q) /\
  (row_iteration r < len)%nat /\
  (row_final r = true <-> S (row_iteration r) = len).

Lemma mapM_Some_Forall {A B} (f : A -> option B) (P : B -> Prop) (l : list A) (k : list B) :
  (forall a b, f a = Some b -> P b) -> mapM f l = Some k -> Forall P k.
Proof.
  intros Hf. revert k. induction l as [|a l IH]; intros k; simpl.
  - intros [= <-]. constructor.
  - destruct (f a) as [b|] eqn:Ea; simpl; [|done].
    destruct (mapM f l) as [k'|]; simpl; [|done].
    intros [= <-]. constructor; eauto.
Qed.

Lemma level_row_ok len it_num this_gamma l r :
  (it_num < len)%nat ->
  level_row it_num (it_num =? len - 1)%nat this_gamma l = Some r ->
  bayes_factor_row_ok len r.
Proof.
  intros Hlt. unfold level_row.
  destruct (dict_get this_gamma "num_levels") as [n|]; simpl; [|done].
  destruct (dict_get this_gamma "column_name") as [c|]; simpl; [|done].
  destruct ((dict_get this_gamma "prob_dist_match" ≫= _) ≫= _) as [m|]; simpl; [|done].
  destruct ((dict_get this_gamma "prob_dist_non_match" ≫= _) ≫= _) as [u|]; simpl; [|done].
  unfold try_divide. destruct m as [a| | | |]; simpl; try done.
  destruct u as [b| | | |]; simpl; try done.
  intros [= <-]. unfold bayes_factor_row_ok. simpl.
  split; [|split; [|split]].
  - destruct (Qeq_bool b 0) eqn:E.
    + apply Qeq_bool_iff in E. done.
    + apply Qeq_bool_neq in E. split; [done|]. intros H. by destruct (E H).
  - intros q. destruct (Qeq_bool b 0) eqn:E; [done|]. apply Qeq_bool_neq in E.
    intros [= <-]. field. exact E.
  - done.
  - rewrite Nat.eqb_eq. lia.
Qed.

Lemma history_rows_ok len it_num gk param_history rows :
  (it_num + length param_history = len)%nat ->
  history_rows len it_num gk param_history = Some rows ->
  Forall (bayes_factor_row_ok len) rows.
Proof.
  revert it_num gk rows. induction param_history as [|pv rest IH]; intros it_num gk rows Hlen;
    simpl.
  - intros [= <-]. constructor.
  - simpl in Hlen.
    destruct (mapM _ gk) as [rs|] eqn:Erows; simpl; [|done].
    destruct (match gk with [] => Some gk | _ :: _ => _ end) as [gk'|]; simpl; [|done].
    destruct (history_rows len (S it_num) gk' rest) as [rest_rows|] eqn:Erest; simpl; [|done].
    intros [= <-]. apply Forall_app. split.
    + apply Forall_concat.
      eapply (mapM_Some_Forall _ (Forall (bayes_factor_row_ok len))); [|exact Erows].
      intros g k. unfold gamma_rows.
      destruct (dict_get pv "π") as [pi|]; simpl; [|done].
      destruct (dict_keys pi); simpl; [|done].
      destruct (dict_get pi g) as [this_gamma|]; simpl; [|done].
      destruct (_ ≫= as_range) as [levels|]; simpl; [|done].
      apply mapM_Some_Forall. intros lv rw. apply level_row_ok. lia.
    + eapply IH; [|exact Erest]. lia.
Qed.

(** A comparison as the function reads it: a whole number of levels, a
    column name, and for every level below that number an m and a u
    probability that are numbers (a u of 0 included). *)
Definition gamma_well_formed (this_gamma : pyval) : Prop :=
  exists (n : nat) (column : pyval),
    dict_get this_gamma "num_levels" = Some (PNum (Z.of_nat n # 1)) /\
    dict_get this_gamma "column_name" = Some column /\
    forall l, (l < n)%nat ->
      exists a b,
        (dict_get this_gamma "prob_dist_match" ≫= fun d => dict_get d (level_key l))
          ≫= (fun d => dict_get d "probability") = Some (PNum a) /\
        (dict_get this_gamma "prob_dist_non_match" ≫= fun d => dict_get d (level_key l))
          ≫= (fun d => dict_get d "probability") = Some (PNum b).

(** A parameter dictionary whose ["π"] holds exactly the comparisons [gk],
    each well formed. *)
Definition snapshot_well_formed (gk : list string) (param_value : pyval) : Prop :=
  exists pi,
    dict_get param_value "π" = Some pi /\ dict_keys pi = Some gk /\
    Forall (fun g => exists this_gamma,
                       dict_get pi g = Some this_gamma /\ gamma_well_formed this_gamma) gk.

Lemma level_row_returns it_num final this_gamma (n : nat) column l :
  dict_get this_gamma "num_levels" = Some (PNum (Z.of_nat n # 1)) ->
  dict_get this_gamma "column_name" = Some column ->
  (exists a b,
     (dict_get this_gamma "prob_dist_match" ≫= fun d => dict_get d (level_key l))
       ≫= (fun d => dict_get d "probability") = Some (PNum a) /\
     (dict_get this_gamma "prob_dist_non_match" ≫= fun d => dict_get d (level_key l))
       ≫= (fun d => dict_get d "probability") = Some (PNum b)) ->
  is_Some (level_row it_num final this_gamma l).
Proof.
  intros Hn Hc (a & b & Hm & Hu). unfold level_row. rewrite Hn, Hc. simpl.
  rewrite Hm. simpl. rewrite Hu. simpl. by eexists.
Qed.

Lemma gamma_rows_returns it_num final gk param_value g :
  snapshot_well_formed gk param_value -> g ∈ gk ->
  is_Some (gamma_rows it_num final param_value g).
Proof.
  intros (pi & Hpi & Hkeys & Hall) Hg. unfold gamma_rows. rewrite Hpi. simpl.
  rewrite Hkeys. simpl. rewrite Forall_forall in Hall.
  destruct (Hall g Hg) as (this_gamma & Htg & n & column & Hn & Hc & Hlevels).
  rewrite Htg. simpl. rewrite Hn. simpl. rewrite Nat2Z.id.
  apply mapM_is_Some, Forall_forall. intros l Hl%elem_of_seq. simpl.
  eapply level_row_returns; [exact Hn|exact Hc|]. apply Hlevels. lia.
Qed.

Lemma history_rows_returns len it_num gk param_history :
  Forall (snapshot_well_formed gk) param_history ->
  is_Some (history_rows len it_num gk param_history).
Proof.
  intros Hall. revert it_num. induction Hall as [|pv rest Hpv _ IH]; intros it_num; simpl.
  - by eexists.
  - assert (is_Some (mapM (gamma_rows it_num (it_num =? len - 1)%nat pv) gk)) as [rows ->].
    { apply mapM_is_Some, Forall_forall. intros g Hg. simpl.
      by eapply gamma_rows_returns. }
    simpl.
    assert (match gk with
            | [] => Some gk
            | _ :: _ => dict_get pv "π" ≫= dict_keys
            end = Some gk) as ->.
    { destruct gk; [done|]. destruct Hpv as (pi & -> & Hkeys & _). exact Hkeys. }
    simpl. destruct (IH (S it_num)) as [rest_rows ->]. simpl. by eexists.
Qed.

(** A u probability of 0 never makes the history fail: the division by
    zero is caught, and the row gets no Bayes factor.  When the current
    parameters and every snapshot hold the same comparisons, each with
    numeric m and u for all its levels, the function returns; and of every
    row it returns: the Bayes factor is absent exactly when u is 0, and
    otherwise it is m / u; the iteration is an index of the history, and the
    row is marked final exactly when it belongs to the last snapshot. *)
Theorem bayes_factor_history_survives_zero_u gk params param_history :
  snapshot_well_formed gk params ->
  Forall (snapshot_well_formed gk) param_history ->
  exists rows,
    _convert_params_dict_to_bayes_factor_iteration_history params param_history = Some rows /\
    Forall (bayes_factor_row_ok (length param_history)) rows.
Proof.
  intros (pi & Hpi & Hkeys & _) Hall.
  unfold _convert_params_dict_to_bayes_factor_iteration_history.
  rewrite Hpi. simpl. rewrite Hkeys. simpl.
  destruct (history_rows_returns (length param_history) 0 gk param_history Hall)
    as [rows Hrows].
  exists rows. split; [done|].
  by apply (history_rows_ok _ 0 gk param_history).
Qed.

(** One comparison of two levels, with the layout the function reads: the
    u of level 0 is 0 in the first snapshot. *)
Definition gamma_ex (u0 : Q) : pyval :=
  PDict [("gamma_name",
          PDict [("num_levels", PNum 2); ("column_name", PStr "name");
                 ("prob_dist_match",
                  PDict [("level_0", PDict [("probability", PNum (1 # 10))]);
                         ("level_1", PDict [("probability", PNum (9 # 10))])]);
                 ("prob_dist_non_match",
                  PDict [("level_0", PDict [("probability", PNum u0)]);
                         ("level_1", PDict [("probability", PNum (1 # 10))])])])].

Definition history_ex : list pyval :=
  [PDict [("λ", PNum (1 # 2)); ("π", gamma_ex 0)];
   PDict [("λ", PNum (1 # 3)); ("π", gamma_ex (9 # 10))]].

Lemma gamma_ex_well_formed u0 params_lambda :
  snapshot_well_formed ["gamma_name"] (PDict [("λ", params_lambda); ("π", gamma_ex u0)]).
Proof.
  eexists. split; [reflexivity|]. split; [reflexivity|].
  constructor; [|constructor]. eexists. split; [reflexivity|].
  exists 2%nat, (PStr "name"). split; [reflexivity|]. split; [reflexivity|].
  intros [|[|l]] Hl; [by eexists _, _..|lia].
Qed.

Lemma bayes_factor_history_survives_zero_u_witness :
  exists rows,
    _convert_params_dict_to_bayes_factor_iteration_history
      (PDict [("λ", PNum (1 # 3)); ("π", gamma_ex (9 # 10))]) history_ex = Some rows /\
    Forall (bayes_factor_row_ok (length history_ex)) rows.
Proof.
  apply (bayes_factor_history_survives_zero_u ["gamma_name"]).
  - apply gamma_ex_well_formed.
  - repeat constructor; apply gamma_ex_well_formed.
Defined.

Example bayes_factor_history_ex :
  map (fun r => (row_iteration r, row_level r, row_bayes_factor r, row_final r))
    (default [] (_convert_params_dict_to_bayes_factor_iteration_history
                   (PDict [("λ", PNum (1 # 3)); ("π", gamma_ex (9 # 10))]) history_ex)) =
  [(0%nat, 0%nat, None, false); (0%nat, 1%nat, Some ((9 # 10) / (1 # 10))%Q, false);
   (1%nat, 0%nat, Some ((1 # 10) / (9 # 10))%Q, true);
   (1%nat, 1%nat, Some ((9 # 10) / (1 # 10))%Q, true)].
Proof. reflexivity. Qed.

End Params.

(** ** analyse_blocking.py *)

Module AnalyseBlocking.

Inductive exn : Type :=
| TypeError (msg : string)
| SqlError (msg : string).

Inductive outcome (A : Type) : Type :=
| Ok (a : A)
| Raise (e : exn).
Arguments Ok {A} a.
Arguments Raise {A} e.

(** A column value; [None] is SQL's NULL. *)
Definition sqlval : Type := option Z.

(** [a = b] in a join condition: never true when a side is NULL. *)
Definition sql_eq (a b : sqlval) : bool :=
  match a, b with
  | Some x, Some y => Z.eqb x y
  | _, _ => false
  end.

Fixpoint using_eq (k1 k2 : list sqlval) : bool :=
  match k1, k2 with
  | [], [] => true
  | a :: k1', b :: k2' => sql_eq a b && using_eq k1' k2'
  | _, _ => false
  end.

(** [group by] puts equal keys, NULLs included, in one group. *)
Fixpoint bump (k : list sqlval) (g : list (list sqlval * Z)) : list (list sqlval * Z) :=
  match g with
  | [] => [(k, 1%Z)]
  | (k', c) :: g' =>
      if decide (k = k') then (k', (c + 1)%Z) :: g' else (k', c) :: bump k g'
  end.

(** [sum(block_count)]: NULL over no rows. *)
Definition sql_sum (xs : list Z) : sqlval :=
  match xs with
  | [] => None
  | _ => Some (fold_right Z.add 0%Z xs)
  end.

(** [select count( * ), match_key ... group by match_key order by
    cast(match_key as int) asc]: the groups in increasing key order. *)
Fixpoint bump_ordered (k : nat) (g : list (Z * nat)) : list (Z * nat) :=
  match g with
  | [] => [(1%Z, k)]
  | (c, k') :: g' =>
      if (k <? k')%nat then (1%Z, k) :: g
      else if (k =? k')%nat then ((c + 1)%Z, k') :: g'
      else (c, k') :: bump_ordered k g'
  end.

Definition count_by_match_key (match_keys : list nat) : list (Z * nat) :=
  fold_left (fun g k => bump_ordered k g) match_keys [].

(** [list.insert(n, x)]: before position [n], at the end when [n] is past
    it. *)
Definition list_insert_at {A} (n : nat) (x : A) (l : list A) : list A :=
  firstn n l ++ x :: skipn n l.

Section Blocking.

(** The records of the input tables. *)
Variable row : Type.

(** A key of an equi-join condition, by its value on a record. *)
Definition key_expr : Type := row -> sqlval.

Record BlockingRule : Type := {
  blocking_rule_sql : string;
  _equi_join_conditions : list (key_expr * key_expr);
  (** whether the whole predicate holds of the pair [(l, r)] *)
  holds : row -> row -> bool
}.

Record SplinkDataFrame : Type := {
  physical_name : string;
  rows : list row
}.

Record Settings : Type := {
  _link_type : link_type;
  _blocking_rules_to_generate_predictions : list BlockingRule
}.

Record Linker : Type := {
  _settings_obj : Settings;
  _input_tables_dict : list (string * SplinkDataFrame)
}.

(** Modelled from the spec: [Linker._two_dataset_link_only] (linker.py is
    not part of these sources) is the "two-dataset link-only" case: the link
    type is [link_only] and there are exactly two input datasets. *)
Definition _two_dataset_link_only (linker : Linker) : bool :=
  match _link_type (_settings_obj linker) with
  | link_only => (length (_input_tables_dict linker) =? 2)%nat
  | _ => false
  end.

(** Modelled from the spec: [enqueue_df_concat] / [compute_df_concat]
    (vertically_concatenate.py is not part of these sources) stage "the single
    concatenated table" [__splink__df_concat] of all input datasets. *)
Definition df_concat (linker : Linker) : list row :=
  flat_map (fun kt => rows kt.2) (_input_tables_dict linker).

(** *** The staged queries and what they mean *)

Inductive sql : Type :=
| SelectCountProduct (input_tablename_l input_tablename_r : string)
| SelectCountSquared (tablename : string)
| SelectGroupCount (cols_gb : list key_expr) (tablename : string)
| SelectBlockCounts (tablename_l tablename_r : string)
| SelectSumBlockCount (tablename : string).

Inductive relation : Type :=
| Rows (rs : list row)
| KeyCounts (g : list (list sqlval * Z))
| BlockCountRows (b : list (list sqlval * Z * Z * Z))
| Scalar (v : sqlval).

(** The key tuple of a record. *)
Definition keys_of (cols : list key_expr) (r : row) : list sqlval :=
  map (fun e => e r) cols.

Definition group_count (cols_gb : list key_expr) (rs : list row) : list (list sqlval * Z) :=
  fold_left (fun g r => bump (keys_of cols_gb r) g) rs [].

(** [select *, count_l, count_r, count_l * count_r as block_count from l
    inner join r using (key_0, ...)]. *)
Definition inner_join_using (gl gr : list (list sqlval * Z)) : list (list sqlval * Z * Z * Z) :=
  flat_map (fun l =>
    flat_map (fun r =>
      if using_eq l.1 r.1 then [(l.1, l.2, r.2, (l.2 * r.2)%Z)] else []) gr) gl.

Definition lookup_table (env : list (string * relation)) (name : string) : option relation :=
  snd <$> find (fun kv => String.eqb kv.1 name) env.

Definition eval_sql (env : list (string * relation)) (q : sql) : option relation :=
  match q with
  | SelectCountProduct tl tr =>
      match lookup_table env tl, lookup_table env tr with
      | Some (Rows l), Some (Rows r) =>
          Some (Scalar (Some (Z.of_nat (length l) * Z.of_nat (length r))%Z))
      | _, _ => None
      end
  | SelectCountSquared t =>
      match lookup_table env t with
      | Some (Rows l) => Some (Scalar (Some (Z.of_nat (length l) * Z.of_nat (length l))%Z))
      | _ => None
      end
  | SelectGroupCount cols t =>
      match lookup_table env t with
      | Some (Rows l) => Some (KeyCounts (group_count cols l))
      | _ => None
      end
  | SelectBlockCounts tl tr =>
      match lookup_table env tl, lookup_table env tr with
      | Some (KeyCounts gl), Some (KeyCounts gr) => Some (BlockCountRows (inner_join_using gl gr))
      | _, _ => None
      end
  | SelectSumBlockCount t =>
      match lookup_table env t with
      | Some (BlockCountRows b) => Some (Scalar (sql_sum (map snd b)))
      | _ => None
      end
  end.

(** The backend runs the staged queries in order, each one seeing the
    tables staged before it, and hands back the last one. *)
Fixpoint sql_pipeline_to_splink_dataframe (env : list (string * relation))
  (pipeline : list (sql * string)) : option relation :=
  match pipeline with
  | [] => None
  | [(q, _)] => eval_sql env q
  | (q, name) :: rest =>
      r ← eval_sql env q;
      sql_pipeline_to_splink_dataframe ((name, r) :: env) rest
  end.

(** The tables a pipeline starts from: the concatenated table staged by
    [enqueue_df_concat], and the input datasets under their physical
    names. *)
Definition initial_tables (linker : Linker) : list (string * relation) :=
  ("__splink__df_concat", Rows (df_concat linker)) ::
  map (fun kt => (physical_name kt.2, Rows (rows kt.2))) (_input_tables_dict linker).

(** *** count_comparisons_from_blocking_rule_pre_filter_conditions *)

Definition input_tablenames (linker : Linker) : string * string :=
  if _two_dataset_link_only linker then
    match _input_tables_dict linker with
    | (_, t0) :: (_, t1) :: _ => (physical_name t0, physical_name t1)
    | _ => ("", "")
    end
  else ("__splink__df_concat", "__splink__df_concat").

Definition count_comparisons_from_blocking_rule_pre_filter_conditions_sqls
  (linker : Linker) (blocking_rule : BlockingRule) : list (sql * string) :=
  let join_conditions := _equi_join_conditions blocking_rule in
  let l_cols_gb := map fst join_conditions in
  let r_cols_gb := map snd join_conditions in
  let input_tablename_l := (input_tablenames linker).1 in
  let input_tablename_r := (input_tablenames linker).2 in
  match join_conditions with
  | [] =>
      if _two_dataset_link_only linker then
        [(SelectCountProduct input_tablename_l input_tablename_r,
          "__splink__total_of_block_counts")]
      else
        [(SelectCountSquared "__splink__df_concat", "__splink__total_of_block_counts")]
  | _ :: _ =>
      [(SelectGroupCount l_cols_gb input_tablename_l,
        "__splink__count_comparisons_from_blocking_l");
       (SelectGroupCount r_cols_gb input_tablename_r,
        "__splink__count_comparisons_from_blocking_r");
       (SelectBlockCounts "__splink__count_comparisons_from_blocking_l"
          "__splink__count_comparisons_from_blocking_r",
        "__splink__block_counts");
       (SelectSumBlockCount "__splink__block_counts", "__splink__total_of_block_counts")]
  end.

(** [int(res["count_of_pairwise_comparisons_generated"])] *)
Definition int_of_result (r : option relation) : outcome Z :=
  match r with
  | Some (Scalar (Some n)) => Ok n
  | Some (Scalar None) =>
      Raise (TypeError "int() argument must be a string, a bytes-like object or a real number, not 'NoneType'")
  | _ => Raise (SqlError "the staged queries do not run")
  end.

Definition count_comparisons_from_blocking_rule_pre_filter_conditions
  (linker : Linker) (blocking_rule : BlockingRule) : outcome Z :=
  let sqls := count_comparisons_from_blocking_rule_pre_filter_conditions_sqls
                linker blocking_rule in
  int_of_result (sql_pipeline_to_splink_dataframe (initial_tables linker) sqls).

(** *** cumulative_comparisons_generated_by_blocking_rules *)

(** Parts that live in modules outside these sources, taken as given:
    - [where_condition]: the pair filter of [_sql_gen_where_condition]
      (blocking.py), by link type;
    - [cartesian_of]: [calculate_cartesian] (misc.py) applied to the row
      counts of the concatenated table, by link type;
    - [rr_text]: the explanatory string built from
      [round(calculate_reduction_ratio(cumulative_sum, cartesian), 6)]. *)
Variable where_condition : link_type -> row -> row -> bool.
Variable cartesian_of : link_type -> list row -> Z.
Variable rr_text : Z -> Z -> string.

(** Modelled from the spec: [block_using_rules_sqls] (blocking.py is not
    part of these sources).  "Each candidate pair is assigned to the first
    rule (lowest index) whose predicate it satisfies (match_key); a pair
    satisfying no rule is never counted." *)
Fixpoint match_key (rules : list BlockingRule) (l r : row) : option nat :=
  match rules with
  | [] => None
  | br :: rest => if holds br l r then Some 0%nat else S <$> match_key rest l r
  end.

(** The [match_key] column of [__splink__df_blocked]. *)
Definition df_blocked (lt : link_type) (rules : list BlockingRule) (concat : list row)
  : list nat :=
  flat_map (fun lr =>
    if where_condition lt lr.1 lr.2 then
      match match_key rules lr.1 lr.2 with
      | Some k => [k]
      | None => []
      end
    else []) (list_prod concat concat).

Record ChartValues : Type := {
  cumulative_rows : Z;
  cartesian : Z;
  reduction_ratio : string;
  start : Z
}.

Record CumulativeComparisonsDict : Type := {
  row_count : Z;
  rule : string;
  (** the four chart fields, present when [output_chart] *)
  chart_values : option ChartValues
}.

(** The block [if len(br_count) != len(brs_as_objs): ...]. *)
Definition backfill_missing (n_rules : nat) (br_count : list Z) (br_keys : list nat)
  : list Z :=
  if (length br_count =? n_rules)%nat then br_count
  else
    let missing_br :=
      List.filter (fun x => negb (existsb (Nat.eqb x) br_keys)) (seq 0 n_rules) in
    fold_left (fun acc n => list_insert_at n 0%Z acc) missing_br br_count.

(** The loop [for row, br in zip(br_count, brs_as_objs)]. *)
Fixpoint wrap_output (output_chart : bool) (cartesian : Z) (cumulative_sum : Z)
  (zipped : list (Z * BlockingRule)) : list CumulativeComparisonsDict :=
  match zipped with
  | [] => []
  | (row, br) :: rest =>
      if output_chart then
        let cumulative_sum := (cumulative_sum + row)%Z in
        {| row_count := row;
           rule := blocking_rule_sql br;
           chart_values :=
             Some {| cumulative_rows := cumulative_sum;
                     cartesian := cartesian;
                     reduction_ratio := rr_text cumulative_sum cartesian;
                     start := (cumulative_sum - row)%Z |} |}
        :: wrap_output output_chart cartesian cumulative_sum rest
      else
        {| row_count := row; rule := blocking_rule_sql br; chart_values := None |}
        :: wrap_output output_chart cartesian cumulative_sum rest
  end.

(** [brs_as_objs]: the rules given, or the model's prediction rules when
    none is given. *)
Definition brs_as_objs (linker : Linker) (blocking_rules : list BlockingRule)
  : list BlockingRule :=
  match blocking_rules with
  | [] => _blocking_rules_to_generate_predictions (_settings_obj linker)
  | _ :: _ => blocking_rules
  end.

(** The function works on a deep copy of the linker, so the caller's linker
    is not part of the result; the records are the same whether they are
    returned as a list or as the rows of a frame. *)
Definition cumulative_comparisons_generated_by_blocking_rules
  (linker : Linker) (blocking_rules : list BlockingRule) (output_chart : bool)
  : list CumulativeComparisonsDict :=
  let settings_obj := _settings_obj linker in
  let brs := brs_as_objs linker blocking_rules in
  let concat := df_concat linker in
  let cartesian := cartesian_of (_link_type settings_obj) concat in
  let br_n := count_by_match_key (df_blocked (_link_type settings_obj) brs concat) in
  let br_count := map fst br_n in
  let br_keys := map snd br_n in
  let br_count := backfill_missing (length brs) br_count br_keys in
  wrap_output output_chart cartesian 0%Z (combine br_count brs).

(** The number of blocked pairs whose match key is [i]. *)
Definition pairs_of_rule (linker : Linker) (blocking_rules : list BlockingRule) (i : nat)
  : Z :=
  Z.of_nat (count_occ Nat.eq_dec
    (df_blocked (_link_type (_settings_obj linker))
       (brs_as_objs linker blocking_rules) (df_concat linker)) i).

(** The pairs [(l, r)] that satisfy every equality condition of a rule. *)
Definition equi_join_holds (conds : list (key_expr * key_expr)) (l r : row) : bool :=
  forallb (fun c => sql_eq (c.1 l) (c.2 r)) conds.

Definition equi_join_pairs (conds : list (key_expr * key_expr)) (L R : list row) : Z :=
  Z.of_nat (length (List.filter (fun lr => equi_join_holds conds lr.1 lr.2) (list_prod L R))).

(** The left and right table of the pre-filter count. *)
Definition input_rows (linker : Linker) : list row * list row :=
  if _two_dataset_link_only linker then
    match _input_tables_dict linker with
    | (_, t0) :: (_, t1) :: _ => (rows t0, rows t1)
    | _ => ([], [])
    end
  else (df_concat linker, df_concat linker).

End Blocking.

(** *** Properties *)

Definition sumZ (xs : list Z) : Z := fold_right Z.add 0%Z xs.

Lemma sumZ_app xs ys : sumZ (xs ++ ys) = (sumZ xs + sumZ ys)%Z.
Proof. induction xs as [|x xs IH]; simpl; lia. Qed.

Lemma sql_sum_spec xs :
  sql_sum xs = match xs with [] => None | _ => Some (sumZ xs) end.
Proof. by destruct xs. Qed.

(** Summing [c * f k] over the groups is summing [f] over the keys. *)
Lemma sum_bump (f : list sqlval -> Z) k g :
  sumZ (map (fun kc => (kc.2 * f kc.1)%Z) (bump k g)) =
  (sumZ (map (fun kc => (kc.2 * f kc.1)%Z) g) + f k)%Z.
Proof.
  induction g as [|[k' c] g IH]; simpl.
  - lia.
  - destruct (decide (k = k')) as [->|Hne]; simpl; [|rewrite IH]; lia.
Qed.

Lemma bump_positive k g :
  Forall (fun kc => (0 < kc.2)%Z) g -> Forall (fun kc => (0 < kc.2)%Z) (bump k g).
Proof.
  induction 1 as [|[k' c] g Hc Hg IH]; simpl.
  - repeat constructor.
  - simpl in Hc. destruct (decide (k = k')); constructor; simpl; auto; lia.
Qed.

Section Counting.
Context {row : Type}.
Implicit Types (cols : list (key_expr row)) (conds : list (key_expr row * key_expr row)).
Arguments keys_of {row} cols r.

Lemma sum_group_count_from (f : list sqlval -> Z) cols rs g :
  sumZ (map (fun kc => (kc.2 * f kc.1)%Z)
          (fold_left (fun g r => bump (keys_of cols r) g) rs g)) =
  (sumZ (map (fun kc => (kc.2 * f kc.1)%Z) g) + sumZ (map (fun r => f (keys_of cols r)) rs))%Z.
Proof.
  revert g. induction rs as [|r rs IH]; intros g; simpl.
  - lia.
  - rewrite IH, sum_bump. lia.
Qed.

Lemma sum_group_count (f : list sqlval -> Z) cols rs :
  sumZ (map (fun kc => (kc.2 * f kc.1)%Z) (group_count row cols rs)) =
  sumZ (map (fun r => f (keys_of cols r)) rs).
Proof. unfold group_count. by rewrite (sum_group_count_from f cols rs []). Qed.

Lemma group_count_positive_from cols rs g :
  Forall (fun kc => (0 < kc.2)%Z) g ->
  Forall (fun kc => (0 < kc.2)%Z) (fold_left (fun g r => bump (keys_of cols r) g) rs g).
Proof.
  revert g. induction rs as [|r rs IH]; intros g Hg; simpl; [exact Hg|].
  apply IH. by apply bump_positive.
Qed.

Lemma group_count_positive cols rs :
  Forall (fun kc => (0 < kc.2)%Z) (group_count row cols rs).
Proof. apply group_count_positive_from. constructor. Qed.

Definition indicator (b : bool) : Z := if b then 1%Z else 0%Z.

Lemma sum_inner_join gl gr :
  sumZ (map snd (inner_join_using gl gr)) =
  sumZ (map (fun l => (l.2 * sumZ (map (fun r => (r.2 * indicator (using_eq l.1 r.1))%Z) gr))%Z) gl).
Proof.
  unfold inner_join_using.
  induction gl as [|[kl cl] gl IH]; simpl; [done|].
  rewrite map_app, sumZ_app, IH. f_equal. clear IH.
  induction gr as [|[kr cr] gr IH]; simpl; [lia|].
  rewrite map_app, sumZ_app, IH.
  destruct (using_eq kl kr); simpl; lia.
Qed.

Lemma length_filter_prod (p : row -> row -> bool) (L R : list row) :
  Z.of_nat (length (List.filter (fun lr => p lr.1 lr.2) (list_prod L R))) =
  sumZ (map (fun l => sumZ (map (fun r => indicator (p l r)) R)) L).
Proof.
  induction L as [|l L IH]; simpl; [done|].
  rewrite List.filter_app, length_app, Nat2Z.inj_add, IH. f_equal. clear IH.
  induction R as [|r R IH]; simpl; [done|].
  destruct (p l r); simpl; rewrite <- IH; lia.
Qed.

Lemma using_eq_keys conds l r :
  using_eq (keys_of (map fst conds) l) (keys_of (map snd conds) r) =
  equi_join_holds row conds l r.
Proof.
  induction conds as [|[lk rk] conds IH]; simpl; [done|]. by rewrite IH.
Qed.

Lemma sumZ_map_ext {A} (f g : A -> Z) l :
  (forall x, f x = g x) -> sumZ (map f l) = sumZ (map g l).
Proof. intros H. induction l; simpl; [done|]. by rewrite H, IHl. Qed.

(** The sum of the block counts is the number of pairs that satisfy the
    equality conditions. *)
Lemma sum_block_counts conds L R :
  sumZ (map snd (inner_join_using
                   (group_count row (map fst conds) L)
                   (group_count row (map snd conds) R))) =
  equi_join_pairs row conds L R.
Proof.
  unfold equi_join_pairs. rewrite length_filter_prod, sum_inner_join.
  rewrite (sum_group_count
    (fun kl => sumZ (map (fun r => (r.2 * indicator (using_eq kl r.1))%Z)
                       (group_count row (map snd conds) R)))).
  apply sumZ_map_ext. intros l.
  rewrite (sum_group_count (fun kr => indicator (using_eq (keys_of (map fst conds) l) kr))).
  apply sumZ_map_ext. intros r. by rewrite using_eq_keys.
Qed.

Lemma inner_join_block_positive gl gr :
  Forall (fun kc => (0 < kc.2)%Z) gl -> Forall (fun kc => (0 < kc.2)%Z) gr ->
  Forall (fun b => (0 < b.2)%Z) (inner_join_using gl gr).
Proof.
  intros Hl Hr. unfold inner_join_using. rewrite List.Forall_forall in *.
  intros b Hb. apply in_flat_map in Hb as (l & Hl' & Hb).
  apply in_flat_map in Hb as (r & Hr' & Hb).
  destruct (using_eq l.1 r.1); simpl in Hb; [|done].
  destruct Hb as [<-|[]]. simpl.
  apply Hl in Hl'. apply Hr in Hr'. lia.
Qed.

End Counting.

Section Pipeline.
Context {row : Type}.
Implicit Types (linker : Linker row) (br : BlockingRule row).

Lemma lookup_table_cons (env : list (string * relation row)) n r m :
  lookup_table row ((n, r) :: env) m =
  if String.eqb n m then Some r else lookup_table row env m.
Proof. unfold lookup_table. simpl. by destruct (String.eqb n m). Qed.

Lemma lookup_table_hit (env : list (string * relation row)) n r :
  lookup_table row ((n, r) :: env) n = Some r.
Proof. by rewrite lookup_table_cons, String.eqb_refl. Qed.

Lemma lookup_table_miss (env : list (string * relation row)) n r m :
  n <> m -> lookup_table row ((n, r) :: env) m = lookup_table row env m.
Proof. intros H. rewrite lookup_table_cons. by apply String.eqb_neq in H as ->. Qed.

(** The names the pipeline stages. *)
Definition staged_names : list string :=
  ["__splink__df_concat"; "__splink__count_comparisons_from_blocking_l";
   "__splink__count_comparisons_from_blocking_r"; "__splink__block_counts";
   "__splink__total_of_block_counts"].

(** The input datasets are distinct tables of the database, and none bears
    a name that the pipeline stages. *)
Definition well_named linker : Prop :=
  NoDup (staged_names ++ map (fun kt => physical_name row kt.2) (_input_tables_dict row linker)).

Lemma two_dataset_tables linker :
  _two_dataset_link_only row linker = true ->
  exists k0 t0 k1 t1, _input_tables_dict row linker = [(k0, t0); (k1, t1)].
Proof.
  unfold _two_dataset_link_only. destruct (_link_type _ _); try discriminate.
  destruct (_input_tables_dict row linker) as [|[k0 t0] [|[k1 t1] [|]]]; try discriminate.
  eauto.
Qed.

Lemma lookup_input_tables linker :
  well_named linker ->
  lookup_table row (initial_tables row linker) (input_tablenames row linker).1
    = Some (Rows row (input_rows row linker).1) /\
  lookup_table row (initial_tables row linker) (input_tablenames row linker).2
    = Some (Rows row (input_rows row linker).2).
Proof.
  intros Hwn. unfold input_tablenames, input_rows, initial_tables.
  destruct (_two_dataset_link_only row linker) eqn:E2.
  - destruct (two_dataset_tables linker E2) as (k0 & t0 & k1 & t1 & Ht).
    unfold well_named in Hwn. rewrite Ht in *. cbn [map fst snd] in *.
    apply NoDup_app in Hwn as (_ & Hdisj & Hnd).
    assert (physical_name row t0 <> physical_name row t1) as Hne.
    { intros Heq. apply NoDup_cons in Hnd as [Hnd _]. apply Hnd. rewrite Heq. left. }
    assert ("__splink__df_concat" <> physical_name row t0) as H0.
    { intros Heq. apply (Hdisj "__splink__df_concat"); [left|]. rewrite Heq. left. }
    assert ("__splink__df_concat" <> physical_name row t1) as H1.
    { intros Heq. apply (Hdisj "__splink__df_concat"); [left|]. rewrite Heq. right. left. }
    split.
    + rewrite lookup_table_miss by done. apply lookup_table_hit.
    + rewrite !lookup_table_miss by done. apply lookup_table_hit.
  - simpl. by rewrite lookup_table_hit.
Qed.

Lemma input_tablename_r_fresh linker :
  well_named linker ->
  "__splink__count_comparisons_from_blocking_l" <> (input_tablenames row linker).2.
Proof.
  intros Hwn. unfold input_tablenames.
  destruct (_two_dataset_link_only row linker) eqn:E2; [|done].
  destruct (two_dataset_tables linker E2) as (k0 & t0 & k1 & t1 & Ht).
  unfold well_named in Hwn. rewrite Ht in *. cbn [map fst snd] in *.
  apply NoDup_app in Hwn as (_ & Hdisj & _).
  intros Heq. apply (Hdisj "__splink__count_comparisons_from_blocking_l").
  - right. left.
  - rewrite Heq. right. left.
Qed.

(** What the four staged queries of an equi-join rule compute. *)
Lemma pipeline_equi_join linker br :
  well_named linker ->
  _equi_join_conditions row br <> [] ->
  sql_pipeline_to_splink_dataframe row (initial_tables row linker)
    (count_comparisons_from_blocking_rule_pre_filter_conditions_sqls row linker br) =
  Some (Scalar row (sql_sum (map snd
    (inner_join_using
       (group_count row (map fst (_equi_join_conditions row br)) (input_rows row linker).1)
       (group_count row (map snd (_equi_join_conditions row br)) (input_rows row linker).2))))).
Proof.
  intros Hwn Hc.
  destruct (lookup_input_tables linker Hwn) as [Hl Hr].
  pose proof (input_tablename_r_fresh linker Hwn) as Hfresh.
  unfold count_comparisons_from_blocking_rule_pre_filter_conditions_sqls.
  destruct (_equi_join_conditions row br) as [|c cs] eqn:Ec; [done|].
  cbn [sql_pipeline_to_splink_dataframe eval_sql].
  rewrite Hl. cbn [mbind option_bind].
  rewrite lookup_table_miss by done. rewrite Hr. cbn [mbind option_bind].
  rewrite (lookup_table_miss _ "__splink__count_comparisons_from_blocking_r") by done.
  rewrite !lookup_table_hit. cbn [mbind option_bind].
  by rewrite lookup_table_hit.
Qed.

Lemma pipeline_no_equi_join linker br :
  well_named linker ->
  _equi_join_conditions row br = [] ->
  sql_pipeline_to_splink_dataframe row (initial_tables row linker)
    (count_comparisons_from_blocking_rule_pre_filter_conditions_sqls row linker br) =
  Some (Scalar row (Some (Z.of_nat (length (input_rows row linker).1) *
                          Z.of_nat (length (input_rows row linker).2))%Z)).
Proof.
  intros Hwn Hc.
  destruct (lookup_input_tables linker Hwn) as [Hl Hr].
  unfold count_comparisons_from_blocking_rule_pre_filter_conditions_sqls.
  rewrite Hc. unfold input_rows, input_tablenames in *.
  destruct (_two_dataset_link_only row linker) eqn:E2.
  - cbn [sql_pipeline_to_splink_dataframe eval_sql]. by rewrite Hl, Hr.
  - cbn [sql_pipeline_to_splink_dataframe eval_sql]. simpl in Hl. by rewrite Hl.
Qed.

End Pipeline.

(** The groups of [count_by_match_key], for keys below [lo + n]: one group
    per key that occurs, in increasing key order. *)
Definition canon (c : nat -> nat) (lo n : nat) : list (Z * nat) :=
  flat_map (fun k => if (c k =? 0)%nat then [] else [(Z.of_nat (c k), k)]) (seq lo n).

Lemma canon_S c lo n :
  canon c lo (S n) =
  (if (c lo =? 0)%nat then [] else [(Z.of_nat (c lo), lo)]) ++ canon c (S lo) n.
Proof. reflexivity. Qed.

Lemma canon_keys_ge c lo n : Forall (fun ck => (lo <= ck.2)%nat) (canon c lo n).
Proof.
  revert lo. induction n as [|n IH]; intros lo; [constructor|].
  rewrite canon_S. apply Forall_app. split.
  - destruct (c lo =? 0)%nat; repeat constructor.
  - eapply Forall_impl; [apply IH|]. simpl. intros; lia.
Qed.

Lemma canon_ext c c' lo n :
  (forall j, (lo <= j < lo + n)%nat -> c j = c' j) -> canon c lo n = canon c' lo n.
Proof.
  revert lo. induction n as [|n IH]; intros lo H; [done|].
  rewrite !canon_S, (H lo) by lia. f_equal. apply IH. intros; apply H; lia.
Qed.

Lemma bump_ordered_front k g :
  Forall (fun ck => (k < ck.2)%nat) g -> bump_ordered k g = (1%Z, k) :: g.
Proof.
  destruct 1 as [|[c k'] g Hk _]; simpl; [done|].
  simpl in Hk. by apply Nat.ltb_lt in Hk as ->.
Qed.

Definition incr (c : nat -> nat) (k : nat) : nat -> nat :=
  fun j => if (j =? k)%nat then S (c j) else c j.

Lemma bump_ordered_canon c k lo n :
  (lo <= k < lo + n)%nat ->
  bump_ordered k (canon c lo n) = canon (incr c k) lo n.
Proof.
  revert lo. induction n as [|n IH]; intros lo Hk; [lia|].
  rewrite !canon_S. unfold incr at 1 2.
  destruct (decide (k = lo)) as [->|Hne].
  - rewrite Nat.eqb_refl. simpl (S _ =? 0)%nat. cbv iota.
    rewrite (canon_ext (incr c lo) c (S lo) n).
    2:{ intros j Hj. unfold incr. by destruct (Nat.eqb_spec j lo); [lia|]. }
    destruct (c lo =? 0)%nat eqn:E.
    + apply Nat.eqb_eq in E. rewrite E. simpl.
      apply bump_ordered_front.
      eapply Forall_impl; [apply canon_keys_ge|]. simpl. intros; lia.
    + simpl. rewrite Nat.ltb_irrefl, Nat.eqb_refl. do 2 f_equal. lia.
  - destruct (Nat.eqb_spec lo k) as [?|_]; [lia|].
    destruct (c lo =? 0)%nat eqn:E; simpl.
    + apply IH. lia.
    + destruct (Nat.ltb_spec k lo); [lia|].
      destruct (Nat.eqb_spec k lo); [lia|].
      f_equal. apply IH. lia.
Qed.

Lemma canon_zero c lo n : (forall j, c j = 0%nat) -> canon c lo n = [].
Proof.
  intros Hc. revert lo. induction n as [|n IH]; intros lo; [done|].
  by rewrite canon_S, Hc, IH.
Qed.

Lemma count_by_match_key_canon (ks : list nat) (R : nat) :
  Forall (fun k => (k < R)%nat) ks ->
  count_by_match_key ks = canon (count_occ Nat.eq_dec ks) 0 R.
Proof.
  unfold count_by_match_key.
  induction ks as [|k ks IH] using rev_ind; intros Hks.
  - simpl. symmetry. by apply canon_zero.
  - apply Forall_app in Hks as [Hks Hk]. apply Forall_cons in Hk as [Hk _].
    rewrite fold_left_app. simpl. rewrite (IH Hks).
    rewrite bump_ordered_canon by lia.
    apply canon_ext. intros j _. unfold incr.
    rewrite count_occ_app. simpl.
    destruct (Nat.eq_dec k j) as [->|Hne].
    + rewrite Nat.eqb_refl. lia.
    + destruct (Nat.eqb_spec j k); [congruence|lia].
Qed.

Lemma canon_keys c lo n :
  map snd (canon c lo n) = List.filter (fun k => negb (c k =? 0)%nat) (seq lo n).
Proof.
  revert lo. induction n as [|n IH]; intros lo; [done|].
  rewrite canon_S, map_app, IH. simpl. by destruct (c lo =? 0)%nat.
Qed.

Lemma canon_counts c lo n :
  map fst (canon c lo n) =
  map (fun k => Z.of_nat (c k)) (List.filter (fun k => negb (c k =? 0)%nat) (seq lo n)).
Proof.
  revert lo. induction n as [|n IH]; intros lo; [done|].
  rewrite canon_S, map_app, IH. simpl. by destruct (c lo =? 0)%nat.
Qed.

Lemma list_insert_at_length {A} (x : A) (pre post : list A) :
  list_insert_at (length pre) x (pre ++ post) = (pre ++ [x]) ++ post.
Proof.
  unfold list_insert_at.
  rewrite firstn_app, skipn_app, Nat.sub_diag, firstn_all, skipn_all. simpl.
  by rewrite app_nil_r, <- app_assoc.
Qed.

(** Inserting a zero at each missing index, in increasing order, puts
    every count at the index of its key. *)
Lemma insert_missing c pre lo n :
  length pre = lo ->
  fold_left (fun acc n => list_insert_at n 0%Z acc)
    (List.filter (fun k => (c k =? 0)%nat) (seq lo n))
    (pre ++ map (fun k => Z.of_nat (c k))
              (List.filter (fun k => negb (c k =? 0)%nat) (seq lo n)))
  = pre ++ map (fun k => Z.of_nat (c k)) (seq lo n).
Proof.
  revert pre lo. induction n as [|n IH]; intros pre lo Hlen; [done|].
  subst lo. simpl. destruct (c (length pre) =? 0)%nat eqn:E; simpl.
  - rewrite list_insert_at_length.
    rewrite IH by (rewrite length_app; simpl; lia).
    apply Nat.eqb_eq in E. rewrite E. by rewrite <- app_assoc.
  - rewrite (cons_middle _ pre), app_assoc.
    rewrite IH by (rewrite length_app; simpl; lia).
    by rewrite <- app_assoc.
Qed.

Lemma existsb_filter_seq (p : nat -> bool) x n :
  (x < n)%nat -> existsb (Nat.eqb x) (List.filter p (seq 0 n)) = p x.
Proof.
  intros Hx. destruct (p x) eqn:E.
  - apply existsb_exists. exists x. split; [|apply Nat.eqb_refl].
    apply filter_In. split; [apply in_seq; lia|done].
  - apply not_true_iff_false. intros (y & Hy & Heq)%existsb_exists.
    apply Nat.eqb_eq in Heq as <-. apply filter_In in Hy as [_ Hy]. congruence.
Qed.

Lemma filter_length_all {A} (p : A -> bool) (l : list A) :
  length (List.filter p l) = length l -> List.filter p l = l.
Proof.
  induction l as [|a l IH]; simpl; [done|].
  pose proof (List.filter_length_le p l).
  destruct (p a); simpl; intros Hl; [f_equal; apply IH; lia|lia].
Qed.

Lemma backfill_missing_canon c R :
  backfill_missing R (map fst (canon c 0 R)) (map snd (canon c 0 R)) =
  map (fun k => Z.of_nat (c k)) (seq 0 R).
Proof.
  unfold backfill_missing. rewrite canon_keys, canon_counts.
  destruct (Nat.eqb_spec
    (length (map (fun k => Z.of_nat (c k))
       (List.filter (fun k => negb (c k =? 0)%nat) (seq 0 R)))) R) as [Hlen|_].
  - rewrite length_map in Hlen. rewrite filter_length_all; [done|].
    by rewrite length_seq.
  - rewrite (List.filter_ext_in _ (fun k => (c k =? 0)%nat)).
    2:{ intros x Hx%in_seq. rewrite existsb_filter_seq by lia. apply negb_involutive. }
    apply (insert_missing c [] 0 R). done.
Qed.

(** A two-dataset link-only job over records that are their own key:
    the left dataset holds key 1, the right one key 2. *)
Definition rule_same_key : BlockingRule Z :=
  {| blocking_rule_sql := "l.k = r.k";
     _equi_join_conditions := [(Some, Some)];
     holds := Z.eqb |}.

Definition rule_never : BlockingRule Z :=
  {| blocking_rule_sql := "1=0";
     _equi_join_conditions := [];
     holds := fun _ _ => false |}.

Definition rule_cross : BlockingRule Z :=
  {| blocking_rule_sql := "1=1";
     _equi_join_conditions := [];
     holds := fun _ _ => true |}.

Definition linker_two (left right : list Z) : Linker Z :=
  {| _settings_obj :=
       {| _link_type := link_only; _blocking_rules_to_generate_predictions := [] |};
     _input_tables_dict :=
       [("df_left", {| physical_name := "people_a"; rows := left |});
        ("df_right", {| physical_name := "people_b"; rows := right |})] |}.

Section Results.
Context {row : Type}.
Variable where_condition : link_type -> row -> row -> bool.
Variable cartesian_of : link_type -> list row -> Z.
Variable rr_text : Z -> Z -> string.
Implicit Types (linker : Linker row) (br : BlockingRule row).

Lemma match_key_lt (rules : list (BlockingRule row)) l r k :
  match_key row rules l r = Some k -> (k < length rules)%nat.
Proof.
  revert k. induction rules as [|br rules IH]; intros k; simpl; [done|].
  destruct (holds row br l r).
  - intros [= <-]. lia.
  - destruct (match_key row rules l r) as [k'|]; simpl; [|done].
    intros [= <-]. specialize (IH k' eq_refl). lia.
Qed.

Lemma df_blocked_lt lt (rules : list (BlockingRule row)) concat :
  Forall (fun k => (k < length rules)%nat) (df_blocked row where_condition lt rules concat).
Proof.
  unfold df_blocked. apply List.Forall_forall. intros k Hk.
  apply in_flat_map in Hk as ([l r] & _ & Hk). simpl in Hk.
  destruct (where_condition lt l r); [|done].
  destruct (match_key row rules l r) as [k'|] eqn:E; [|done].
  destruct Hk as [<-|[]]. by eapply match_key_lt.
Qed.

Lemma wrap_output_row_count chart cart s zipped :
  map (row_count) (wrap_output row rr_text chart cart s zipped) = map fst zipped.
Proof.
  revert s. induction zipped as [|[n br] zipped IH]; intros s; simpl; [done|].
  destruct chart; simpl; by rewrite IH.
Qed.

Lemma wrap_output_rule chart cart s zipped :
  map (rule) (wrap_output row rr_text chart cart s zipped) =
  map (fun z => blocking_rule_sql row z.2) zipped.
Proof.
  revert s. induction zipped as [|[n br] zipped IH]; intros s; simpl; [done|].
  destruct chart; simpl; by rewrite IH.
Qed.

Lemma combine_fst_snd {A B} (l : list A) (k : list B) :
  length l = length k -> map fst (combine l k) = l /\ map snd (combine l k) = k.
Proof.
  revert k. induction l as [|a l IH]; intros [|b k]; simpl; try done.
  intros [= H]. destruct (IH k H) as [-> ->]. done.
Qed.


Lemma sumZ_positive (xs : list Z) :
  xs <> [] -> Forall (fun x => (0 < x)%Z) xs -> (0 < sumZ xs)%Z.
Proof.
  intros Hne H. destruct H as [|x xs Hx Hxs]; [done|]. simpl.
  assert (0 <= sumZ xs)%Z; [|lia].
  clear Hne Hx. induction Hxs; simpl; lia.
Qed.

(** With at least one equality condition: the count is the sum of the
    block counts, which is the number of pairs that satisfy the equality
    conditions, provided some key tuple occurs on both sides; with none the
    sum is NULL and the conversion to [int] raises. *)
Lemma prefilter_count_equi_join linker br :
  well_named linker ->
  _equi_join_conditions row br <> [] ->
  let conds := _equi_join_conditions row br in
  let L := (input_rows row linker).1 in
  let R := (input_rows row linker).2 in
  let blocks := inner_join_using (group_count row (map fst conds) L)
                  (group_count row (map snd conds) R) in
  sumZ (map snd blocks) = equi_join_pairs row conds L R /\
  count_comparisons_from_blocking_rule_pre_filter_conditions row linker br =
    match blocks with
    | [] => Raise (TypeError "int() argument must be a string, a bytes-like object or a real number, not 'NoneType'")
    | _ :: _ => Ok (equi_join_pairs row conds L R)
    end /\
  (blocks = [] <-> equi_join_pairs row conds L R = 0%Z).
Proof.
  intros Hwn Hc conds L R blocks.
  pose proof (sum_block_counts conds L R) as Hsum. fold blocks in Hsum.
  split; [done|]. split.
  - unfold count_comparisons_from_blocking_rule_pre_filter_conditions.
    rewrite pipeline_equi_join by done. fold conds L R blocks.
    rewrite <- Hsum. by destruct blocks.
  - rewrite <- Hsum. split; [by intros ->|].
    intros H0. destruct blocks as [|b bs] eqn:Eb; [done|]. exfalso.
    assert (0 < sumZ (map snd (b :: bs)))%Z; [|lia].
    apply sumZ_positive; [done|].
    apply Forall_fmap. rewrite <- Eb.
    apply inner_join_block_positive; apply group_count_positive.
Qed.

(** C6: with no equality condition the count is the product of the table
    sizes: of the two input datasets in two-dataset link-only mode, of the
    concatenated table with itself otherwise. *)
Theorem prefilter_count_no_equi_join linker br :
  well_named linker ->
  _equi_join_conditions row br = [] ->
  (forall k0 t0 k1 t1,
     _two_dataset_link_only row linker = true ->
     _input_tables_dict row linker = [(k0, t0); (k1, t1)] ->
     count_comparisons_from_blocking_rule_pre_filter_conditions row linker br =
       Ok (Z.of_nat (length (rows row t0)) * Z.of_nat (length (rows row t1)))%Z) /\
  (_two_dataset_link_only row linker = false ->
     count_comparisons_from_blocking_rule_pre_filter_conditions row linker br =
       Ok (Z.of_nat (length (df_concat row linker)) *
           Z.of_nat (length (df_concat row linker)))%Z).
Proof.
  intros Hwn Hc.
  unfold count_comparisons_from_blocking_rule_pre_filter_conditions.
  rewrite pipeline_no_equi_join by done. unfold input_rows.
  split.
  - intros k0 t0 k1 t1 -> ->. done.
  - intros ->. done.
Qed.

End Results.

Lemma linker_two_well_named left right : well_named (linker_two left right).
Proof.
  unfold well_named. simpl. apply NoDup_ListNoDup.
  repeat (constructor; [simpl; intuition discriminate|]). constructor.
Qed.

Lemma prefilter_count_no_equi_join_witness :
  count_comparisons_from_blocking_rule_pre_filter_conditions Z
    (linker_two [1; 2; 3] [4; 5])%Z rule_cross = Ok 6%Z.
Proof.
  exact (proj1 (prefilter_count_no_equi_join (linker_two [1; 2; 3] [4; 5])%Z rule_cross
                  (linker_two_well_named _ _) eq_refl)
           _ _ _ _ eq_refl eq_refl).
Defined.

(** C5 at a failing input: the two datasets share no key, so no pair
    satisfies [l.k = r.k] and the exact count is 0; the code does not return
    0, it raises. *)
Theorem prefilter_count_no_common_key :
  equi_join_pairs Z (_equi_join_conditions Z rule_same_key) [1%Z] [2%Z] = 0%Z /\
  count_comparisons_from_blocking_rule_pre_filter_conditions Z
    (linker_two [1%Z] [2%Z]) rule_same_key =
  Raise (TypeError "int() argument must be a string, a bytes-like object or a real number, not 'NoneType'").
Proof. split; reflexivity. Qed.

Example prefilter_count_common_keys :
  count_comparisons_from_blocking_rule_pre_filter_conditions Z
    (linker_two [1; 1; 2; 3] [1; 2; 2; 4])%Z rule_same_key = Ok 4%Z.
Proof. reflexivity. Qed.

Example cumulative_zero_rows_in_place :
  map row_count
    (cumulative_comparisons_generated_by_blocking_rules Z
       (fun _ l r => (l <=? r)%Z) (fun _ t => Z.of_nat (length t)) (fun _ _ => "")
       (linker_two [1; 1; 2] [2; 3])%Z
       [rule_never; rule_same_key; rule_never; rule_cross; rule_never] true)
  = [0; 9; 0; 8; 0]%Z.
Proof. reflexivity. Qed.

(** *** The post-filter count, the chart values and the totals *)

Section PostFilters.

Variable row : Type.
Variable where_condition : link_type -> row -> row -> bool.

(** [number_of_comparisons_generated_by_blocking_rule_post_filters_sql]
    builds the query [select count( * ) from __splink__df_concat as l inner
    join __splink__df_concat as r on {blocking_rule} {where_condition}]; it
    is embedded by the count the query selects: the pairs of the
    concatenated table that satisfy the rule and pass the filter of the link
    type. *)
Definition number_of_comparisons_generated_by_blocking_rule_post_filters_sql
  (linker : Linker row) (blocking_rule : BlockingRule row) : Z :=
  let settings_obj := _settings_obj row linker in
  Z.of_nat (length
    (List.filter
       (fun lr => holds row blocking_rule lr.1 lr.2
                  && where_condition (_link_type row settings_obj) lr.1 lr.2)
       (list_prod (df_concat row linker) (df_concat row linker)))).

End PostFilters.

Lemma sumZ_nonneg (xs : list Z) : Forall (fun x => (0 <= x)%Z) xs -> (0 <= sumZ xs)%Z.
Proof. induction 1; simpl; lia. Qed.

Lemma sumZ_cons x xs : sumZ (x :: xs) = (x + sumZ xs)%Z.
Proof. reflexivity. Qed.

Lemma sum_indicator_seq (k lo n : nat) :
  sumZ (map (fun i => if Nat.eq_dec k i then 1%Z else 0%Z) (seq lo n)) =
  if bool_decide (lo <= k < lo + n)%nat then 1%Z else 0%Z.
Proof.
  revert lo. induction n as [|n IH]; intros lo; simpl.
  - rewrite bool_decide_eq_false_2; [done|lia].
  - rewrite IH. destruct (Nat.eq_dec k lo) as [->|Hne].
    + rewrite bool_decide_eq_false_2 by lia. rewrite bool_decide_eq_true_2 by lia. done.
    + destruct (decide (S lo <= k < S lo + n)%nat).
      * rewrite !bool_decide_eq_true_2 by lia. done.
      * rewrite !bool_decide_eq_false_2 by lia. done.
Qed.

Lemma sum_count_occ (ks : list nat) (R : nat) :
  Forall (fun k => (k < R)%nat) ks ->
  sumZ (map (fun i => Z.of_nat (count_occ Nat.eq_dec ks i)) (seq 0 R)) = Z.of_nat (length ks).
Proof.
  induction 1 as [|k ks Hk _ IH].
  - simpl. induction (seq 0 R); simpl; lia.
  - rewrite length_cons, Nat2Z.inj_succ, <- IH.
    pose proof (sum_indicator_seq k 0 R) as Hi.
    rewrite bool_decide_eq_true_2 in Hi by lia.
    rewrite <- Z.add_1_r, <- Hi. clear.
    induction (seq 0 R) as [|i l IHl]; [done|].
    cbn [map]. rewrite !sumZ_cons, IHl. cbn [count_occ].
    destruct (Nat.eq_dec k i); lia.
Qed.

Lemma filter_length_le_impl {A} (p q : A -> bool) (l : list A) :
  (forall x, p x = true -> q x = true) ->
  (length (List.filter p l) <= length (List.filter q l))%nat.
Proof.
  intros Hpq. induction l as [|a l IH]; simpl; [done|].
  destruct (p a) eqn:Ep.
  - rewrite (Hpq a Ep). simpl. lia.
  - destruct (q a); simpl; lia.
Qed.

Lemma filter_length_le_prod {A} (p : A * A -> bool) (l : list A) :
  (Z.of_nat (length (List.filter p (list_prod l l))) <= Z.of_nat (length l) * Z.of_nat (length l))%Z.
Proof.
  pose proof (List.filter_length_le p (list_prod l l)) as H.
  rewrite length_prod in H. lia.
Qed.

Lemma sumZ_map_filter {A} (f : A -> Z) (q : A -> bool) (l : list A) :
  (forall x, q x = false -> f x = 0%Z) ->
  sumZ (map f (List.filter q l)) = sumZ (map f l).
Proof.
  intros H. induction l as [|a l IH]; simpl; [done|].
  destruct (q a) eqn:E; simpl; rewrite IH; [done|]. rewrite (H a E). lia.
Qed.

Section MoreResults.
Context {row : Type}.
Variable where_condition : link_type -> row -> row -> bool.
Variable cartesian_of : link_type -> list row -> Z.
Variable rr_text : Z -> Z -> string.
Implicit Types (linker : Linker row) (br : BlockingRule row).

Local Abbreviation cumulative :=
  (cumulative_comparisons_generated_by_blocking_rules row where_condition cartesian_of rr_text).
Local Abbreviation post_filters :=
  (number_of_comparisons_generated_by_blocking_rule_post_filters_sql row where_condition).
Local Abbreviation pre_filter :=
  (count_comparisons_from_blocking_rule_pre_filter_conditions row).

(** The match keys of the blocked pairs of a job. *)
Definition blocked_keys linker (blocking_rules : list (BlockingRule row)) : list nat :=
  df_blocked row where_condition (_link_type row (_settings_obj row linker))
    (brs_as_objs row linker blocking_rules) (df_concat row linker).

(** The records are built from the back-filled counts zipped with the
    rules. *)
Lemma cumulative_unfold linker blocking_rules output_chart :
  cumulative linker blocking_rules output_chart =
  wrap_output row rr_text output_chart
    (cartesian_of (_link_type row (_settings_obj row linker)) (df_concat row linker)) 0%Z
    (combine
       (map (fun i => Z.of_nat (count_occ Nat.eq_dec (blocked_keys linker blocking_rules) i))
          (seq 0 (length (brs_as_objs row linker blocking_rules))))
       (brs_as_objs row linker blocking_rules)).
Proof.
  unfold cumulative_comparisons_generated_by_blocking_rules, blocked_keys.
  set (brs := brs_as_objs row linker blocking_rules).
  set (ks := df_blocked row where_condition _ brs _).
  rewrite (count_by_match_key_canon ks (length brs)) by apply df_blocked_lt.
  by rewrite backfill_missing_canon.
Qed.

Lemma cumulative_row_counts linker blocking_rules output_chart :
  map row_count (cumulative linker blocking_rules output_chart) =
  map (fun i => Z.of_nat (count_occ Nat.eq_dec (blocked_keys linker blocking_rules) i))
    (seq 0 (length (brs_as_objs row linker blocking_rules))).
Proof.
  rewrite cumulative_unfold, wrap_output_row_count.
  apply combine_fst_snd. by rewrite length_map, length_seq.
Qed.

Lemma cumulative_row_count_at linker blocking_rules output_chart i rec :
  cumulative linker blocking_rules output_chart !! i = Some rec ->
  row_count rec = Z.of_nat (count_occ Nat.eq_dec (blocked_keys linker blocking_rules) i).
Proof.
  intros Hi.
  assert (map row_count (cumulative linker blocking_rules output_chart) !! i
          = Some (row_count rec)) as Hm by (by rewrite list_lookup_fmap, Hi).
  rewrite cumulative_row_counts, list_lookup_fmap in Hm.
  destruct (seq 0 _ !! i) as [j|] eqn:Ej; [|done].
  apply lookup_seq in Ej as [-> _]. simpl in Hm. by injection Hm as <-.
Qed.

Lemma wrap_output_chart cart s zipped i rec :
  wrap_output row rr_text true cart s zipped !! i = Some rec ->
  chart_values rec =
    Some {| cumulative_rows := s + sumZ (map fst (take (S i) zipped));
            cartesian := cart;
            reduction_ratio := rr_text (s + sumZ (map fst (take (S i) zipped)))%Z cart;
            start := s + sumZ (map fst (take i zipped)) |}.
Proof.
  revert s i. induction zipped as [|[n br] zipped IH]; intros s i; [done|].
  destruct i as [|i].
  - simpl. intros [= <-]. simpl.
    replace (s + (n + 0))%Z with (s + n)%Z by lia.
    replace (s + n - n)%Z with (s + 0)%Z by lia. done.
  - cbn [wrap_output]. rewrite lookup_cons_ne_0 by done. simpl Nat.pred.
    intros Hi. rewrite (IH _ _ Hi). cbn [take map sumZ fold_right fst].
    fold (sumZ (map fst (take (S i) zipped))). fold (sumZ (map fst (take i zipped))).
    replace (s + n + sumZ (map fst (take (S i) zipped)))%Z
      with (s + (n + sumZ (map fst (take (S i) zipped))))%Z by lia.
    replace (s + n + sumZ (map fst (take i zipped)))%Z
      with (s + (n + sumZ (map fst (take i zipped))))%Z by lia.
    done.
Qed.

Lemma wrap_output_no_chart cart s zipped :
  Forall (fun rec => chart_values rec = None) (wrap_output row rr_text false cart s zipped).
Proof. revert s. induction zipped as [|[n br] zipped IH]; intros s; simpl; constructor; auto. Qed.

(** With [output_chart], the record of rule [i] holds the running total:
    [cumulative_rows] is the sum of the row counts of the rules up to and
    including [i], [start] the sum of those before [i] (0 for the first
    rule, the [cumulative_rows] of the rule before otherwise), so that
    [0 <= start <= cumulative_rows]; [cartesian] is the same in every
    record.  Without [output_chart] no record holds chart values. *)
Theorem cumulative_chart_values linker blocking_rules i rec :
  let out := cumulative linker blocking_rules true in
  let total (n : nat) := sumZ (map row_count (take n out)) in
  out !! i = Some rec ->
  chart_values rec =
    Some {| cumulative_rows := total (S i);
            cartesian :=
              cartesian_of (_link_type row (_settings_obj row linker)) (df_concat row linker);
            reduction_ratio :=
              rr_text (total (S i))
                (cartesian_of (_link_type row (_settings_obj row linker)) (df_concat row linker));
            start := total i |} /\
  (0 <= total i <= total (S i))%Z /\
  total (S i) = (total i + row_count rec)%Z /\
  Forall (fun rec' => chart_values rec' = None) (cumulative linker blocking_rules false).
Proof.
  intros out total Hi.
  assert (forall n, total n =
            sumZ (map fst (take n (combine
              (map (fun i => Z.of_nat (count_occ Nat.eq_dec (blocked_keys linker blocking_rules) i))
                 (seq 0 (length (brs_as_objs row linker blocking_rules))))
              (brs_as_objs row linker blocking_rules))))) as Htotal.
  { intros n. unfold total, out. unfold take. rewrite <- !firstn_map. do 2 f_equal.
    rewrite cumulative_unfold. apply wrap_output_row_count. }
  assert (total (S i) = (total i + row_count rec)%Z) as Hstep.
  { unfold total. rewrite (take_S_r _ _ _ Hi), map_app, sumZ_app. simpl. lia. }
  assert (Forall (fun x => (0 <= x)%Z) (map row_count out)) as Hpos.
  { unfold out. rewrite cumulative_row_counts. apply Forall_fmap, Forall_forall.
    intros j _. simpl. lia. }
  split; [|split; [|split]].
  - unfold out in Hi. rewrite cumulative_unfold in Hi.
    apply wrap_output_chart in Hi. rewrite Hi, !Htotal. f_equal.
  - split.
    + apply sumZ_nonneg. unfold take. rewrite <- firstn_map.
      apply Forall_take. exact Hpos.
    + rewrite Hstep.
      assert (0 <= row_count rec)%Z; [|lia].
      rewrite List.Forall_forall in Hpos. apply Hpos, in_map.
      apply list_elem_of_In. by eapply list_elem_of_lookup_2.
  - exact Hstep.
  - rewrite cumulative_unfold. apply wrap_output_no_chart.
Qed.

Lemma match_key_existsb (rules : list (BlockingRule row)) l r :
  match match_key row rules l r with Some _ => true | None => false end =
  existsb (fun br => holds row br l r) rules.
Proof.
  induction rules as [|br rules IH]; simpl; [done|].
  destruct (holds row br l r); simpl; [done|].
  rewrite <- IH. by destruct (match_key row rules l r).
Qed.

Lemma match_key_holds (rules : list (BlockingRule row)) l r i br :
  match_key row rules l r = Some i -> rules !! i = Some br -> holds row br l r = true.
Proof.
  revert i. induction rules as [|br' rules IH]; intros i; simpl; [done|].
  destruct (holds row br' l r) eqn:E.
  - intros [= <-]. simpl. by intros [= <-].
  - destruct (match_key row rules l r) as [k|]; simpl; [|done].
    intros [= <-]. simpl. by apply IH.
Qed.

Lemma count_occ_df_blocked lt (rules : list (BlockingRule row)) concat i :
  count_occ Nat.eq_dec (df_blocked row where_condition lt rules concat) i =
  length (List.filter
            (fun lr => where_condition lt lr.1 lr.2
                       && bool_decide (match_key row rules lr.1 lr.2 = Some i))
            (list_prod concat concat)).
Proof.
  unfold df_blocked. induction (list_prod concat concat) as [|[l r] prod IH]; simpl; [done|].
  rewrite count_occ_app, IH.
  destruct (where_condition lt l r); simpl; [|done].
  destruct (match_key row rules l r) as [k|]; simpl.
  - destruct (Nat.eq_dec k i) as [->|Hne]; case_bool_decide; simpl; congruence.
  - done.
Qed.

Lemma length_df_blocked lt (rules : list (BlockingRule row)) concat :
  length (df_blocked row where_condition lt rules concat) =
  length (List.filter
            (fun lr => where_condition lt lr.1 lr.2
                       && existsb (fun br => holds row br lr.1 lr.2) rules)
            (list_prod concat concat)).
Proof.
  unfold df_blocked. induction (list_prod concat concat) as [|[l r] prod IH]; simpl; [done|].
  rewrite length_app, IH, <- match_key_existsb.
  destruct (where_condition lt l r); simpl; [|done].
  by destruct (match_key row rules l r).
Qed.

(** The row counts add up to the number of rows of the blocked table: the
    grouping loses no row and the back-fill adds only zeros.  With blocking
    as the specification describes it, this is the number of pairs of the
    concatenated table that pass the filter of the link type and satisfy at
    least one rule: a pair that satisfies several rules is counted once, a
    pair that satisfies none is not counted. *)
Theorem cumulative_row_counts_total linker blocking_rules output_chart :
  let brs := brs_as_objs row linker blocking_rules in
  let lt := _link_type row (_settings_obj row linker) in
  let total := sumZ (map row_count (cumulative linker blocking_rules output_chart)) in
  total = Z.of_nat (length (df_blocked row where_condition lt brs (df_concat row linker))) /\
  total =
    Z.of_nat (length
      (List.filter
         (fun lr => where_condition lt lr.1 lr.2
                    && existsb (fun br => holds row br lr.1 lr.2) brs)
         (list_prod (df_concat row linker) (df_concat row linker)))).
Proof.
  intros brs lt total. subst total. rewrite cumulative_row_counts.
  rewrite sum_count_occ by apply df_blocked_lt.
  unfold blocked_keys. split; [done|]. by rewrite length_df_blocked.
Qed.

(** The row count of a rule never exceeds the post-filter count of that
    rule taken alone, and for the first rule the two are equal: a rule
    loses to the rules before it exactly the pairs they already
    generate. *)
Theorem cumulative_row_count_le_post_filters linker blocking_rules output_chart i rec br :
  cumulative linker blocking_rules output_chart !! i = Some rec ->
  brs_as_objs row linker blocking_rules !! i = Some br ->
  (row_count rec <= post_filters linker br)%Z /\
  (i = 0%nat -> row_count rec = post_filters linker br).
Proof.
  intros Hrec Hbr. rewrite (cumulative_row_count_at _ _ _ _ _ Hrec).
  unfold blocked_keys, number_of_comparisons_generated_by_blocking_rule_post_filters_sql.
  rewrite count_occ_df_blocked. split.
  - apply inj_le, filter_length_le_impl. intros [l r]. simpl.
    intros [Hw Hk%bool_decide_eq_true]%andb_true_iff.
    rewrite Hw, andb_true_r. by eapply match_key_holds.
  - intros ->. do 2 f_equal. apply List.filter_ext. intros [l r]. simpl.
    destruct (brs_as_objs row linker blocking_rules) as [|br0 rules]; [done|].
    injection Hbr as ->. simpl. rewrite andb_comm. f_equal.
    destruct (holds row br l r).
    + by rewrite bool_decide_eq_true_2.
    + rewrite bool_decide_eq_false_2; [done|].
      by destruct (match_key row rules l r).
Qed.

(** With at least one equality condition the pre-filter count is the exact
    number of pairs of the two input tables that satisfy every equality
    condition, unless that number is 0, in which case the conversion to
    [int] raises the [TypeError]. *)
Theorem prefilter_count_exact linker br :
  well_named linker ->
  _equi_join_conditions row br <> [] ->
  let pairs := equi_join_pairs row (_equi_join_conditions row br)
                 (input_rows row linker).1 (input_rows row linker).2 in
  pre_filter linker br =
    if (pairs =? 0)%Z
    then Raise (TypeError "int() argument must be a string, a bytes-like object or a real number, not 'NoneType'")
    else Ok pairs.
Proof.
  intros Hwn Hc pairs.
  destruct (prefilter_count_equi_join linker br Hwn Hc) as (_ & Hcount & Hzero).
  rewrite Hcount. fold pairs in Hzero |- *.
  destruct (inner_join_using _ _) as [|b bs].
  - rewrite (proj1 Hzero eq_refl). done.
  - destruct (Z.eqb_spec pairs 0) as [H0|_]; [|done].
    by apply Hzero in H0.
Qed.

(** Outside the two-dataset link-only case, and for a rule whose predicate
    implies its equality conditions, the pre-filter count bounds the
    post-filter count from above; when the pre-filter count raises, the
    post-filter count is 0. *)
Theorem post_filters_le_pre_filter linker br :
  well_named linker ->
  _two_dataset_link_only row linker = false ->
  (forall l r, holds row br l r = true ->
               equi_join_holds row (_equi_join_conditions row br) l r = true) ->
  match pre_filter linker br with
  | Ok n => (post_filters linker br <= n)%Z
  | Raise _ => post_filters linker br = 0%Z
  end.
Proof.
  intros Hwn H2 Himp.
  assert (post_filters linker br <=
          equi_join_pairs row (_equi_join_conditions row br)
            (df_concat row linker) (df_concat row linker))%Z as Hle.
  { unfold number_of_comparisons_generated_by_blocking_rule_post_filters_sql, equi_join_pairs.
    apply inj_le, filter_length_le_impl. intros [l r]. simpl.
    intros [Hh _]%andb_true_iff. by apply Himp. }
  assert (0 <= post_filters linker br)%Z as H0
    by (unfold number_of_comparisons_generated_by_blocking_rule_post_filters_sql; lia).
  destruct (_equi_join_conditions row br) as [|c cs] eqn:Ec.
  - unfold count_comparisons_from_blocking_rule_pre_filter_conditions.
    rewrite pipeline_no_equi_join by done. unfold input_rows. rewrite H2. simpl.
    unfold number_of_comparisons_generated_by_blocking_rule_post_filters_sql.
    apply filter_length_le_prod.
  - assert (_equi_join_conditions row br <> []) as Hne by (by rewrite Ec).
    rewrite (prefilter_count_exact linker br Hwn Hne). rewrite Ec.
    unfold input_rows. rewrite H2. simpl.
    destruct (Z.eqb_spec (equi_join_pairs row (c :: cs) (df_concat row linker)
                            (df_concat row linker)) 0) as [Hz|_]; [lia|done].
Qed.

(** A record one of whose keys is NULL takes part in no pair: the
    pre-filter count is the same when the records with a NULL key are
    dropped from the input tables first. *)
Theorem prefilter_count_skips_null_keys linker linker' br :
  well_named linker -> well_named linker' ->
  _equi_join_conditions row br <> [] ->
  let conds := _equi_join_conditions row br in
  (input_rows row linker').1 =
    List.filter
      (fun l => forallb (fun c : key_expr row * key_expr row => bool_decide (is_Some (c.1 l)))
                  conds)
      (input_rows row linker).1 ->
  (input_rows row linker').2 =
    List.filter
      (fun r => forallb (fun c : key_expr row * key_expr row => bool_decide (is_Some (c.2 r)))
                  conds)
      (input_rows row linker).2 ->
  pre_filter linker' br = pre_filter linker br.
Proof.
  intros Hwn Hwn' Hc conds HL HR.
  rewrite !prefilter_count_exact by done. cbv zeta. fold conds. rewrite HL, HR.
  set (nl := fun l => forallb (fun c : key_expr row * key_expr row => bool_decide (is_Some (c.1 l))) conds).
  set (nr := fun r => forallb (fun c : key_expr row * key_expr row => bool_decide (is_Some (c.2 r))) conds).
  assert (forall l r, equi_join_holds row conds l r = true -> nl l = true /\ nr r = true) as Hnn.
  { intros l r. unfold equi_join_holds, nl, nr. rewrite !forallb_forall.
    intros Hall. split; intros c Hin; specialize (Hall c Hin); apply bool_decide_eq_true;
      unfold key_expr in *; destruct (c.1 l), (c.2 r); simpl in Hall; try discriminate;
      by eapply mk_is_Some. }
  assert (equi_join_pairs row conds (List.filter nl (input_rows row linker).1)
            (List.filter nr (input_rows row linker).2)
          = equi_join_pairs row conds (input_rows row linker).1 (input_rows row linker).2) as ->;
    [|done].
  unfold equi_join_pairs. rewrite !length_filter_prod.
  rewrite sumZ_map_filter.
  - apply sumZ_map_ext. intros l. apply sumZ_map_filter.
    intros r Hr. destruct (equi_join_holds row conds l r) eqn:E; [|done].
    apply Hnn in E as [_ E]. congruence.
  - intros l Hl. clear -Hl Hnn. induction (List.filter nr _) as [|r rs IH]; simpl; [done|].
    rewrite IH. destruct (equi_join_holds row conds l r) eqn:E; [|done].
    apply Hnn in E as [E _]. congruence.
Qed.

End MoreResults.

(** A dedupe job over one dataset of records that are their own, possibly
    NULL, key. *)
Definition rule_same_nullable_key : BlockingRule (option Z) :=
  {| blocking_rule_sql := "l.k = r.k";
     _equi_join_conditions := [(fun r => r, fun r => r)];
     holds := sql_eq |}.

Definition linker_dedupe {row} (records : list row) : Linker row :=
  {| _settings_obj :=
       {| _link_type := dedupe_only; _blocking_rules_to_generate_predictions := [] |};
     _input_tables_dict := [("df", {| physical_name := "people"; rows := records |})] |}.

Lemma linker_dedupe_well_named {row} (records : list row) : well_named (linker_dedupe records).
Proof.
  unfold well_named. simpl. apply NoDup_ListNoDup.
  repeat (constructor; [simpl; intuition discriminate|]). constructor.
Qed.

Lemma cumulative_chart_values_witness :
  chart_values <$>
    (cumulative_comparisons_generated_by_blocking_rules Z
       (fun _ l r => (l <=? r)%Z) (fun _ t => Z.of_nat (length t)) (fun _ _ => "")
       (linker_two [1; 1; 2] [2; 3])%Z
       [rule_never; rule_same_key; rule_never; rule_cross; rule_never] true !! 3%nat) =
  Some (Some {| cumulative_rows := 17; cartesian := 5; reduction_ratio := ""; start := 9 |}).
Proof.
  exact (f_equal Some
    (proj1 (cumulative_chart_values (fun _ l r => (l <=? r)%Z)
              (fun _ t => Z.of_nat (length t)) (fun _ _ => "")
              (linker_two [1; 1; 2] [2; 3])%Z
              [rule_never; rule_same_key; rule_never; rule_cross; rule_never] 3
              {| row_count := 8; rule := "1=1";
                 chart_values := Some {| cumulative_rows := 17; cartesian := 5;
                                         reduction_ratio := ""; start := 9 |} |}
              eq_refl))).
Defined.

Lemma cumulative_row_count_le_post_filters_witness :
  (9 <= number_of_comparisons_generated_by_blocking_rule_post_filters_sql Z
          (fun _ l r => (l <=? r)%Z) (linker_two [1; 1; 2] [2; 3])%Z rule_same_key)%Z.
Proof.
  exact (proj1 (cumulative_row_count_le_post_filters (fun _ l r => (l <=? r)%Z)
                  (fun _ t => Z.of_nat (length t)) (fun _ _ => "")
                  (linker_two [1; 1; 2] [2; 3])%Z
                  [rule_never; rule_same_key; rule_never; rule_cross; rule_never] true
                  1 _ rule_same_key eq_refl eq_refl)).
Defined.

Lemma prefilter_count_exact_witness :
  count_comparisons_from_blocking_rule_pre_filter_conditions Z
    (linker_two [1; 1; 2; 3] [1; 2; 2; 4])%Z rule_same_key = Ok 4%Z.
Proof.
  exact (prefilter_count_exact (linker_two [1; 1; 2; 3] [1; 2; 2; 4])%Z rule_same_key
           (linker_two_well_named _ _) ltac:(discriminate)).
Defined.

Lemma post_filters_le_pre_filter_witness :
  match count_comparisons_from_blocking_rule_pre_filter_conditions (option Z)
          (linker_dedupe [Some 1; Some 1; None; Some 2])%Z rule_same_nullable_key with
  | Ok n =>
      (number_of_comparisons_generated_by_blocking_rule_post_filters_sql (option Z)
         (fun _ _ _ => true) (linker_dedupe [Some 1; Some 1; None; Some 2])%Z
         rule_same_nullable_key <= n)%Z
  | Raise _ =>
      number_of_comparisons_generated_by_blocking_rule_post_filters_sql (option Z)
        (fun _ _ _ => true) (linker_dedupe [Some 1; Some 1; None; Some 2])%Z
        rule_same_nullable_key = 0%Z
  end.
Proof.
  apply (post_filters_le_pre_filter (fun _ _ _ => true)
           (linker_dedupe [Some 1; Some 1; None; Some 2])%Z rule_same_nullable_key
           (linker_dedupe_well_named _) eq_refl).
  intros l r H. simpl in *. by rewrite H.
Defined.

Lemma prefilter_count_skips_null_keys_witness :
  count_comparisons_from_blocking_rule_pre_filter_conditions (option Z)
    (linker_dedupe [Some 1; Some 1])%Z rule_same_nullable_key =
  count_comparisons_from_blocking_rule_pre_filter_conditions (option Z)
    (linker_dedupe [None; Some 1; Some 1])%Z rule_same_nullable_key.
Proof.
  exact (prefilter_count_skips_null_keys (linker_dedupe [None; Some 1; Some 1])%Z
           (linker_dedupe [Some 1; Some 1])%Z rule_same_nullable_key
           (linker_dedupe_well_named _) (linker_dedupe_well_named _)
           ltac:(discriminate) eq_refl eq_refl).
Defined.

End AnalyseBlocking.

(** ** The model settings shared by the estimator and the training session *)

Module Model.

Section Num.

(** The type of a probability value (a Python float). *)
Variable num : Type.

(** An m or u probability: unset ([None]), the text
    [LEVEL_NOT_OBSERVED_TEXT], or a number. *)
Inductive probability : Type :=
| Unset
| NotObserved
| Value (p : num).

(** One entry of a level's trained-probability history. *)
Record trained : Type := {
  trained_probability : probability;
  description : string
}.

Record ComparisonLevel : Type := {
  _comparison_vector_value : Z;
  is_null_level : bool;
  label_for_charts : string;
  _m_probability : probability;
  _u_probability : probability;
  _tf_adjustment_column : option string;
  _trained_m_probabilities : list trained;
  _trained_u_probabilities : list trained
}.

Record Comparison : Type := {
  output_column_name : string;
  comparison_levels : list ComparisonLevel;
  (** the names of the input columns the comparison reads *)
  _input_columns_used_by_case_statement : list string
}.

Definition _comparison_levels_excluding_null (c : Comparison) : list ComparisonLevel :=
  List.filter (fun cl => negb (is_null_level cl)) (comparison_levels c).

(** [ComparisonLevel._add_trained_m_probability] and its u twin append to
    the level's history. *)
Definition _add_trained_m_probability (cl : ComparisonLevel) (val : probability)
  (desc : string) : ComparisonLevel :=
  {| _comparison_vector_value := _comparison_vector_value cl;
     is_null_level := is_null_level cl;
     label_for_charts := label_for_charts cl;
     _m_probability := _m_probability cl;
     _u_probability := _u_probability cl;
     _tf_adjustment_column := _tf_adjustment_column cl;
     _trained_m_probabilities :=
       _trained_m_probabilities cl ++ [{| trained_probability := val; description := desc |}];
     _trained_u_probabilities := _trained_u_probabilities cl |}.

Definition _add_trained_u_probability (cl : ComparisonLevel) (val : probability)
  (desc : string) : ComparisonLevel :=
  {| _comparison_vector_value := _comparison_vector_value cl;
     is_null_level := is_null_level cl;
     label_for_charts := label_for_charts cl;
     _m_probability := _m_probability cl;
     _u_probability := _u_probability cl;
     _tf_adjustment_column := _tf_adjustment_column cl;
     _trained_m_probabilities := _trained_m_probabilities cl;
     _trained_u_probabilities :=
       _trained_u_probabilities cl ++ [{| trained_probability := val; description := desc |}] |}.

(** [cl._tf_adjustment_column = None] *)
Definition without_tf (cl : ComparisonLevel) : ComparisonLevel :=
  {| _comparison_vector_value := _comparison_vector_value cl;
     is_null_level := is_null_level cl;
     label_for_charts := label_for_charts cl;
     _m_probability := _m_probability cl;
     _u_probability := _u_probability cl;
     _tf_adjustment_column := None;
     _trained_m_probabilities := _trained_m_probabilities cl;
     _trained_u_probabilities := _trained_u_probabilities cl |}.

Definition with_levels (c : Comparison) (levels : list ComparisonLevel) : Comparison :=
  {| output_column_name := output_column_name c;
     comparison_levels := levels;
     _input_columns_used_by_case_statement := _input_columns_used_by_case_statement c |}.

Record Settings : Type := {
  _link_type : link_type;
  comparisons : list Comparison;
  _probability_two_random_records_match : num;
  _blocking_rules_to_generate_predictions : list string;
  _retain_matching_columns : bool;
  _retain_intermediate_calculation_columns : bool;
  _training_mode : bool
}.

End Num.

Arguments Unset {num}.
Arguments NotObserved {num}.
Arguments Value {num} p.
Arguments trained_probability {num} t.
Arguments description {num} t.
Arguments _comparison_vector_value {num} c.
Arguments is_null_level {num} c.
Arguments label_for_charts {num} c.
Arguments _m_probability {num} c.
Arguments _u_probability {num} c.
Arguments _tf_adjustment_column {num} c.
Arguments _trained_m_probabilities {num} c.
Arguments _trained_u_probabilities {num} c.
Arguments output_column_name {num} c.
Arguments comparison_levels {num} c.
Arguments _input_columns_used_by_case_statement {num} c.
Arguments _comparison_levels_excluding_null {num} c.
Arguments _add_trained_m_probability {num} cl val desc.
Arguments _add_trained_u_probability {num} cl val desc.
Arguments without_tf {num} cl.
Arguments with_levels {num} c levels.
Arguments _link_type {num} s.
Arguments comparisons {num} s.
Arguments _probability_two_random_records_match {num} s.
Arguments _blocking_rules_to_generate_predictions {num} s.
Arguments _retain_matching_columns {num} s.
Arguments _retain_intermediate_calculation_columns {num} s.
Arguments _training_mode {num} s.

End Model.

(** ** estimate_u.py *)

Module EstimateU.
Import Reals Lra Model.
Local Open Scope R_scope.

Inductive exn : Type :=
| ZeroDivisionError
| ValueError (msg : string).

Inductive outcome (A : Type) : Type :=
| Ok (a : A)
| Raise (e : exn).
Arguments Ok {A} a.
Arguments Raise {A} e.

(** [0.5 * ((8 * target_rows + 1) ** 0.5 + 1)]; the power 0.5 of the
    non-negative base is its square root. *)
Definition _num_target_rows_to_rows_to_sample (target_rows : R) : R :=
  0.5 * (sqrt (8 * target_rows + 1) + 1).

Definition log10 (x : R) : R := ln x / ln 10.

(** [math.ceil] *)
Definition ceil (x : R) : Z := (1 - up (- x))%Z.

(** [ceil(log10(1 - target_rows/total_rows)/log10(1 - 1/total_rows))], with
    the exceptions of the divisions and of [log10] outside its domain. *)
Definition _num_target_rows_to_pairs_to_sample (total_rows target_rows : R) : outcome Z :=
  if Req_dec_T total_rows 0 then Raise ZeroDivisionError
  else if Rle_dec (1 - target_rows / total_rows) 0 then Raise (ValueError "math domain error")
  else if Rle_dec (1 - 1 / total_rows) 0 then Raise (ValueError "math domain error")
  else if Req_dec_T (log10 (1 - 1 / total_rows)) 0 then Raise ZeroDivisionError
  else Ok (ceil (log10 (1 - target_rows / total_rows) / log10 (1 - 1 / total_rows))).

(** The dedupe branch of [estimate_u_values]: the proportion and the sample
    size handed to [_random_sample_sql]. *)
Definition dedupe_sample (target_rows : R) (count_rows : Z) : outcome (R * R) :=
  let sample_size := _num_target_rows_to_rows_to_sample target_rows in
  if (count_rows =? 0)%Z then Raise ZeroDivisionError
  else
    let proportion := sample_size / IZR count_rows in
    let sample_size :=
      if Rgt_dec sample_size (IZR count_rows) then IZR count_rows else sample_size in
    let proportion := if Rge_dec proportion 1 then 1 else proportion in
    Ok (proportion, sample_size).

(** The expected number of distinct values among [k] draws with replacement
    from [N] values. *)
Definition expected_unique (N k : R) : R := N * (1 - Rpower (1 - 1 / N) k).

(** *** The link-only sample of row pairs *)

(** [floor] *)
Definition floor (x : R) : Z := (up x - 1)%Z.

Section Draws.

(** The values [random()] takes for the generated row [g], for the left and
    for the right row number. *)
Variables random_l random_r : nat -> R.

(** The inner [select] over [generate_series(1, number_of_rows_to_sample)]:
    one row [(row_l, row_r, sample)] per generated value. *)
Definition generated_rows (count_l count_r number_of_rows_to_sample : Z)
  : list (Z * Z * Z) :=
  map (fun g =>
         ((1 + floor (random_l g * IZR count_l))%Z,
          (1 + floor (random_r g * IZR count_r))%Z,
          Z.of_nat g))
      (seq 1 (Z.to_nat number_of_rows_to_sample)).

(** [first_value(sample) over(partition by row_l, row_r)]: the window has no
    order of its own; the first row of the partition is taken in generation
    order. *)
Definition first_sample (row_l row_r : Z) (generated : list (Z * Z * Z)) : Z :=
  match find (fun t => (t.1.1 =? row_l)%Z && (t.1.2 =? row_r)%Z) generated with
  | Some t => t.2
  | None => 0%Z
  end.

(** [select distinct row_l, row_r, first_value(sample) over(...) as sample_id] *)
Definition sampled_row_pairs (generated : list (Z * Z * Z)) : list (Z * Z * Z) :=
  remove_dups (map (fun t => (t.1.1, t.1.2, first_sample t.1.1 t.1.2 generated)) generated).

End Draws.

(** *** estimate_u_values *)

(** The queries the function stages or runs, by what they select. *)
Inductive sql : Type :=
| SqlCountConcat
| SqlSampleConcat (proportion sample_size : R)
| SqlCountsLeftRight
| SqlAllLeft
| SqlAllRight
| SqlSampledRowPairs (count_l count_r number_of_rows_to_sample : Z)
| SqlLeftSample
| SqlRightSample
| SqlBlocked (blocking_rules : list string)
| SqlComparisonVectors
| SqlPredict
| SqlNewParameters.

(** What reaches the backend. *)
Inductive db_call : Type :=
| RunSql (q : sql) (output_table_name : string)
| RunPipeline (queue : list (sql * string)) (input_dataframes : list string)
| DropTable (name : string).

Record Linker : Type := {
  _settings_obj : Settings R;
  (** the queries staged by [_enqueue_sql] and not yet executed *)
  _pipeline : list (sql * string);
  _train_u_using_random_sample_mode : bool;
  repartition_after_blocking : bool
}.

Definition _enqueue_sql (linker : Linker) (q : sql) (output_table_name : string) : Linker :=
  {| _settings_obj := _settings_obj linker;
     _pipeline := _pipeline linker ++ [(q, output_table_name)];
     _train_u_using_random_sample_mode := _train_u_using_random_sample_mode linker;
     repartition_after_blocking := repartition_after_blocking linker |}.

Definition with_settings (linker : Linker) (s : Settings R) : Linker :=
  {| _settings_obj := s;
     _pipeline := _pipeline linker;
     _train_u_using_random_sample_mode := _train_u_using_random_sample_mode linker;
     repartition_after_blocking := repartition_after_blocking linker |}.

Definition with_comparisons (s : Settings R) (ccs : list (Comparison R)) : Settings R :=
  {| _link_type := _link_type s;
     comparisons := ccs;
     _probability_two_random_records_match := _probability_two_random_records_match s;
     _blocking_rules_to_generate_predictions := _blocking_rules_to_generate_predictions s;
     _retain_matching_columns := _retain_matching_columns s;
     _retain_intermediate_calculation_columns := _retain_intermediate_calculation_columns s;
     _training_mode := _training_mode s |}.

Definition with_blocking_rules (s : Settings R) (brs : list string) : Settings R :=
  {| _link_type := _link_type s;
     comparisons := comparisons s;
     _probability_two_random_records_match := _probability_two_random_records_match s;
     _blocking_rules_to_generate_predictions := brs;
     _retain_matching_columns := _retain_matching_columns s;
     _retain_intermediate_calculation_columns := _retain_intermediate_calculation_columns s;
     _training_mode := _training_mode s |}.

(** [training_linker = deepcopy(linker)] and the settings changed on the
    copy: a value of its own, so the changes do not reach [linker]. *)
Definition training_copy (linker : Linker) : Linker :=
  let s := _settings_obj linker in
  {| _settings_obj :=
       {| _link_type := _link_type s;
          comparisons :=
            map (fun cc => with_levels cc (map without_tf (comparison_levels cc)))
              (comparisons s);
          _probability_two_random_records_match := _probability_two_random_records_match s;
          _blocking_rules_to_generate_predictions := _blocking_rules_to_generate_predictions s;
          _retain_matching_columns := false;
          _retain_intermediate_calculation_columns := false;
          _training_mode := true |};
     _pipeline := _pipeline linker;
     _train_u_using_random_sample_mode := true;
     repartition_after_blocking := repartition_after_blocking linker |}.

(** A row of the parameter frame, after
    [compute_proportions_for_new_parameters]. *)
Record param_record : Type := {
  rec_output_column_name : string;
  rec_comparison_vector_value : Z;
  rec_m_probability : R;
  rec_u_probability : R
}.

(** Modelled from the spec: [m_u_records_to_lookup_dict] and
    [append_u_probability_to_comparison_level_trained_probabilities]
    (m_u_records_to_parameters.py is not part of these sources).  The
    estimated u of a level is looked up by comparison column and vector
    value and appended to the level's trained u probabilities under the
    given description; a level with no record gets the "not observed"
    sentinel. *)
Definition lookup_u (m_u_records : list param_record) (column : string) (value : Z)
  : probability R :=
  match find (fun r => String.eqb (rec_output_column_name r) column
                       && (rec_comparison_vector_value r =? value)%Z) m_u_records with
  | Some r => Value (rec_u_probability r)
  | None => NotObserved
  end.

Definition append_u_probability_to_comparison_level_trained_probabilities
  (column : string) (cl : ComparisonLevel R) (m_u_records : list param_record)
  (training_description : string) : ComparisonLevel R :=
  _add_trained_u_probability cl
    (lookup_u m_u_records column (_comparison_vector_value cl)) training_description.

(** The loop over [original_settings_obj.comparisons] and the levels
    excluding null that ends the function. *)
Definition fold_back_u (m_u_records : list param_record) (cc : Comparison R) : Comparison R :=
  with_levels cc
    (map (fun cl =>
            if is_null_level cl then cl
            else append_u_probability_to_comparison_level_trained_probabilities
                   (output_column_name cc) cl m_u_records
                   "estimate u by random sampling")
         (comparison_levels cc)).

(** What the sampling step leaves behind: the calls made, the queue of the
    training linker, the frames to compute on, and the flag
    [sample_tables_on_link_only]. *)
Record sample_stage : Type := {
  stage_calls : list db_call;
  stage_pipeline : list (sql * string);
  stage_dataframes : list string;
  sample_tables_on_link_only : bool
}.

(** The branch [if settings_obj._link_type == "link_only"]. *)
Definition link_only_stage (target_rows : R) (count_l count_r : Z)
  (pipeline : list (sql * string)) : outcome sample_stage :=
  let counts := [RunSql SqlCountsLeftRight "__splink__df_concat_counts_lr";
                 DropTable "__splink__df_concat_counts_lr"] in
  let total_rows := (count_l * count_r)%Z in
  if Rge_dec target_rows (IZR total_rows) then
    Ok {| stage_calls :=
            counts ++
            [RunSql SqlAllLeft "__splink__df_concat_with_tf_left_sample";
             RunSql SqlAllRight "__splink__df_concat_with_tf_right_sample"];
          stage_pipeline := pipeline;
          stage_dataframes := ["__splink__df_concat_with_tf_left_sample";
                               "__splink__df_concat_with_tf_right_sample"];
          sample_tables_on_link_only := false |}
  else
    match _num_target_rows_to_pairs_to_sample (IZR total_rows) target_rows with
    | Raise e => Raise e
    | Ok number_of_rows_to_sample =>
        Ok {| stage_calls :=
                counts ++
                [RunPipeline
                   (pipeline ++
                    [(SqlSampledRowPairs count_l count_r number_of_rows_to_sample,
                      "__splink__df_concat_sampled_row_pairs")]) [];
                 RunSql SqlLeftSample "__splink__df_concat_with_tf_left_sample";
                 RunSql SqlRightSample "__splink__df_concat_with_tf_right_sample";
                 DropTable "__splink__df_concat_sampled_row_pairs"];
              stage_pipeline := [];
              stage_dataframes := ["__splink__df_concat_with_tf_left_sample";
                                   "__splink__df_concat_with_tf_right_sample"];
              sample_tables_on_link_only := true |}
    end.

(** The branch [if settings_obj._link_type in ["dedupe_only",
    "link_and_dedupe"]]. *)
Definition dedupe_stage (target_rows : R) (count_rows : Z)
  (pipeline : list (sql * string)) : outcome sample_stage :=
  match dedupe_sample target_rows count_rows with
  | Raise e => Raise e
  | Ok (proportion, sample_size) =>
      Ok {| stage_calls :=
              [RunSql (SqlSampleConcat proportion sample_size)
                 "__splink__df_concat_with_tf_sample"];
            stage_pipeline := pipeline;
            stage_dataframes := ["__splink__df_concat_with_tf_sample"];
            sample_tables_on_link_only := true |}
  end.

(** The rules the sample is blocked on. *)
Definition sample_blocking_rules (lt : link_type) (sample_tables : bool) : list string :=
  match lt with
  | link_only => if sample_tables then ["l.sample_id = r.sample_id"] else []
  | _ => []
  end.

Section Backend.

(** The answers of the backend: the row count of the concatenated table,
    the row counts of the left and right dataset, and the parameter frame a
    pipeline yields. *)
Variable count_rows : Z.
Variables count_l count_r : Z.
Variable param_records : list (sql * string) -> list string -> list param_record.

(** The state the function leaves: the caller's linker, the training
    linker, and the calls made to the backend in order. *)
Record final_state : Type := {
  caller_linker : Linker;
  training_linker : Linker;
  db_calls : list db_call
}.

Definition estimate_u_values (linker : Linker) (target_rows : R) : outcome final_state :=
  let training_linker := training_copy linker in
  let lt := _link_type (_settings_obj training_linker) in
  let count_calls := [RunSql SqlCountConcat "__splink__df_concat_count";
                      DropTable "__splink__df_concat_count"] in
  let stage :=
    match lt with
    | link_only => link_only_stage target_rows count_l count_r (_pipeline training_linker)
    | _ => dedupe_stage target_rows count_rows (_pipeline training_linker)
    end in
  match stage with
  | Raise e => Raise e
  | Ok st =>
      let settings_obj :=
        with_blocking_rules (_settings_obj training_linker)
          (sample_blocking_rules lt (sample_tables_on_link_only st)) in
      let pipeline :=
        stage_pipeline st ++
        [(SqlBlocked (_blocking_rules_to_generate_predictions settings_obj),
          "__splink__df_blocked")] in
      (* if repartition_after_blocking: ... *)
      let repartition :=
        if repartition_after_blocking training_linker
        then ([RunPipeline pipeline (stage_dataframes st)], [], ["__splink__df_blocked"])
        else ([], pipeline, stage_dataframes st) in
      let pipeline :=
        repartition.1.2 ++
        [(SqlComparisonVectors, "__splink__df_comparison_vectors");
         (SqlPredict, "__splink__df_predict")] in
      let input_dataframes := repartition.2 in
      (* linker._enqueue_sql(sql, "__splink__m_u_counts") *)
      let linker := _enqueue_sql linker SqlNewParameters "__splink__m_u_counts" in
      (* df_params = training_linker._execute_sql_pipeline(input_dataframes) *)
      let df_params := snd (List.last pipeline (SqlPredict, "")) in
      let records := param_records pipeline input_dataframes in
      let drops :=
        DropTable df_params ::
        match lt with
        | link_only => [DropTable "__splink__df_concat_with_tf_left_sample";
                        DropTable "__splink__df_concat_with_tf_right_sample"]
        | _ => [DropTable "__splink__df_concat_with_tf_sample"]
        end in
      let m_u_records :=
        List.filter (fun r => negb (String.eqb (rec_output_column_name r)
                                      "_probability_two_random_records_match")) records in
      let original_settings_obj := _settings_obj linker in
      Ok {| caller_linker :=
              with_settings linker
                (with_comparisons original_settings_obj
                   (map (fold_back_u m_u_records) (comparisons original_settings_obj)));
            training_linker :=
              {| _settings_obj := settings_obj;
                 _pipeline := [];
                 _train_u_using_random_sample_mode := true;
                 repartition_after_blocking := repartition_after_blocking training_linker |};
            db_calls :=
              count_calls ++ stage_calls st ++ repartition.1.1 ++
              [RunPipeline pipeline input_dataframes] ++ drops |}
  end.

End Backend.


(** A dedupe job: one comparison with a null level and two levels, nothing
    staged on the linker. *)
Definition level_ex (value : Z) (null : bool) (m : R) : ComparisonLevel R :=
  {| _comparison_vector_value := value;
     is_null_level := null;
     label_for_charts := "";
     _m_probability := Value m;
     _u_probability := Unset;
     _tf_adjustment_column := Some "first_name";
     _trained_m_probabilities := [];
     _trained_u_probabilities := [] |}.

Definition linker_ex : Linker :=
  {| _settings_obj :=
       {| _link_type := dedupe_only;
          comparisons :=
            [{| output_column_name := "first_name";
                comparison_levels := [level_ex (-1) true 0; level_ex 1 false 0.9;
                                      level_ex 0 false 0.1];
                _input_columns_used_by_case_statement := ["first_name"] |}];
          _probability_two_random_records_match := 0.0001;
          _blocking_rules_to_generate_predictions := ["l.dob = r.dob"];
          _retain_matching_columns := true;
          _retain_intermediate_calculation_columns := true;
          _training_mode := false |};
     _pipeline := [];
     _train_u_using_random_sample_mode := false;
     repartition_after_blocking := false |}.

(** The real number of draws at which the expected number of distinct
    pairs is the target. *)
Definition draws_needed (N T : R) : R := ln (1 - T / N) / ln (1 - 1 / N).

(** *** Properties of the two inversions *)

Lemma rows_to_sample_inverts T :
  0 <= T ->
  let n := _num_target_rows_to_rows_to_sample T in
  n * (n - 1) / 2 = T.
Proof.
  intros HT n. subst n. unfold _num_target_rows_to_rows_to_sample.
  pose proof (sqrt_sqrt (8 * T + 1) ltac:(lra)) as Hs.
  set (s := sqrt (8 * T + 1)) in *. nra.
Qed.

Lemma rows_to_sample_le_total T N :
  0 <= T -> 1 <= N -> T <= N * (N - 1) / 2 ->
  _num_target_rows_to_rows_to_sample T <= N.
Proof.
  intros HT HN Hle. unfold _num_target_rows_to_rows_to_sample.
  assert (sqrt (8 * T + 1) <= 2 * N - 1); [|lra].
  rewrite <- (sqrt_square (2 * N - 1)) by lra.
  apply sqrt_le_1; nra.
Qed.

(** C7: in dedupe and link-and-dedupe mode, for a target of [T] comparisons
    and [N] rows, the derived number of rows [n = 0.5 * (sqrt (8T + 1) + 1)]
    satisfies [n (n - 1) / 2 = T] in real arithmetic; the sample size handed
    on is [n] capped at [N] and the proportion is [n / N] capped at 1, so
    that a proportion of 1 or more means all [N] rows at proportion 1; and
    [n <= N] whenever [N (N - 1) / 2 >= T]. *)
Theorem dedupe_sample_inverts_pair_count (T : R) (N : Z) :
  0 <= T -> (0 < N)%Z ->
  let n := _num_target_rows_to_rows_to_sample T in
  n * (n - 1) / 2 = T /\
  dedupe_sample T N = Ok (Rmin (n / IZR N) 1, Rmin n (IZR N)) /\
  (T <= IZR N * (IZR N - 1) / 2 -> n <= IZR N) /\
  (1 <= n / IZR N -> dedupe_sample T N = Ok (1, IZR N)).
Proof.
  intros HT HN n.
  assert (0 < IZR N) as HN' by (by apply IZR_lt).
  assert (1 <= IZR N) as HN1 by (apply IZR_le; lia).
  assert (dedupe_sample T N = Ok (Rmin (n / IZR N) 1, Rmin n (IZR N))) as Hd.
  { unfold dedupe_sample. fold n.
    destruct (Z.eqb_spec N 0) as [?|_]; [lia|].
    f_equal. f_equal.
    - unfold Rmin. destruct (Rge_dec (n / IZR N) 1), (Rle_dec (n / IZR N) 1); lra.
    - unfold Rmin. destruct (Rgt_dec n (IZR N)), (Rle_dec n (IZR N)); lra. }
  split; [by apply rows_to_sample_inverts|]. split; [done|]. split.
  - intros Hle. by apply rows_to_sample_le_total.
  - intros Hp. rewrite Hd.
    assert (IZR N <= n).
    { apply (Rmult_le_compat_r (IZR N)) in Hp; [|lra].
      unfold Rdiv in Hp. rewrite Rmult_assoc, Rinv_l in Hp; lra. }
    f_equal. f_equal; unfold Rmin.
    + destruct (Rle_dec (n / IZR N) 1); lra.
    + destruct (Rle_dec n (IZR N)); lra.
Qed.

Lemma dedupe_sample_witness :
  dedupe_sample 3 4 = Ok (Rmin (_num_target_rows_to_rows_to_sample 3 / 4) 1,
                          Rmin (_num_target_rows_to_rows_to_sample 3) 4).
Proof.
  exact (proj1 (proj2 (dedupe_sample_inverts_pair_count 3 4 ltac:(lra) ltac:(lia)))).
Defined.

Lemma ceil_bounds x : IZR (ceil x) - 1 < x <= IZR (ceil x).
Proof.
  unfold ceil. destruct (archimed (- x)) as [H1 H2].
  rewrite minus_IZR. simpl. lra.
Qed.

Lemma log10_ratio a b : log10 a / log10 b = ln a / ln b.
Proof.
  unfold log10.
  assert (0 < ln 10) by (rewrite <- ln_1; apply ln_increasing; lra).
  destruct (Req_dec_T (ln b) 0) as [Hb|Hb].
  - rewrite Hb. unfold Rdiv. rewrite !Rmult_0_l, Rinv_0, !Rmult_0_r. done.
  - field. split; lra.
Qed.

Section Inversion.

Variables (N T : R).
Hypothesis (HT0 : 0 <= T) (HTN : T < N) (HN : 2 <= N).

Local Abbreviation a := (1 - T / N).
Local Abbreviation b := (1 - 1 / N).
Local Abbreviation x := (draws_needed N T).

Lemma inv_a_range : 0 < a <= 1.
Proof using HT0 HTN HN.
  assert (0 < N) by lra.
  assert (0 <= T / N < 1).
  { split.
    - apply Rmult_le_pos; [lra|]. left. by apply Rinv_0_lt_compat.
    - apply (Rmult_lt_reg_r N); [lra|]. unfold Rdiv.
      rewrite Rmult_assoc, Rinv_l; lra. }
  lra.
Qed.

Lemma inv_b_range : 0 < b < 1.
Proof using HN.
  assert (0 < N) by lra.
  assert (0 < 1 / N <= 1 / 2).
  { split.
    - unfold Rdiv. rewrite Rmult_1_l. by apply Rinv_0_lt_compat.
    - unfold Rdiv. rewrite !Rmult_1_l. apply Rinv_le_contravar; lra. }
  lra.
Qed.

Lemma inv_ln_b_neg : ln b < 0.
Proof using HN.
  destruct inv_b_range. rewrite <- ln_1. by apply ln_increasing.
Qed.

Lemma inv_ln_a_nonpos : ln a <= 0.
Proof using HT0 HTN HN.
  destruct inv_a_range as [Ha [Ha1| ->]].
  - left. rewrite <- ln_1. by apply ln_increasing.
  - rewrite ln_1. lra.
Qed.

(** The real solution of [N * (1 - (1 - 1/N) ^ k) = T]. *)
Lemma expected_unique_solution : expected_unique N x = T.
Proof using HT0 HTN HN.
  unfold expected_unique, Rpower.
  replace (x * ln b) with (ln a).
  - rewrite exp_ln by apply inv_a_range. field. lra.
  - unfold draws_needed. field. pose proof inv_ln_b_neg. lra.
Qed.

Lemma expected_unique_monotone k1 k2 :
  k1 <= k2 -> expected_unique N k1 <= expected_unique N k2.
Proof using HN.
  intros Hk. unfold expected_unique, Rpower.
  pose proof inv_ln_b_neg as Hb.
  assert (exp (k2 * ln b) <= exp (k1 * ln b)).
  { destruct Hk as [Hk| ->]; [|lra]. left. apply exp_increasing. nra. }
  nra.
Qed.

Lemma expected_unique_strict k1 k2 :
  k1 < k2 -> expected_unique N k1 < expected_unique N k2.
Proof using HN.
  intros Hk. unfold expected_unique, Rpower.
  pose proof inv_ln_b_neg as Hb.
  assert (exp (k2 * ln b) < exp (k1 * ln b)) by (apply exp_increasing; nra).
  nra.
Qed.

Lemma pairs_to_sample_value :
  _num_target_rows_to_pairs_to_sample N T = Ok (ceil x).
Proof using HT0 HTN HN.
  unfold _num_target_rows_to_pairs_to_sample.
  pose proof inv_a_range. pose proof inv_b_range. pose proof inv_ln_b_neg.
  destruct (Req_dec_T N 0); [lra|].
  destruct (Rle_dec a 0); [lra|].
  destruct (Rle_dec b 0); [lra|].
  assert (0 < ln 10) by (rewrite <- ln_1; apply ln_increasing; lra).
  destruct (Req_dec_T (log10 b) 0) as [Hz|_].
  - exfalso. unfold log10 in Hz.
    apply (Rmult_eq_compat_r (ln 10)) in Hz.
    unfold Rdiv in Hz. rewrite Rmult_assoc, Rinv_l, Rmult_0_l in Hz; lra.
  - by rewrite log10_ratio.
Qed.

End Inversion.

(** *** The sample of row pairs *)

Lemma generated_rows_length random_l random_r count_l count_r k :
  length (generated_rows random_l random_r count_l count_r k) = Z.to_nat k.
Proof. unfold generated_rows. by rewrite length_map, length_seq. Qed.

Lemma sampled_row_pairs_distinct (generated : list (Z * Z * Z)) :
  NoDup (map (fun t => (t.1.1, t.1.2)) (sampled_row_pairs generated)).
Proof.
  unfold sampled_row_pairs. apply NoDup_fmap_2_strong; [|apply NoDup_remove_dups].
  intros [[l1 r1] s1] [[l2 r2] s2] H1 H2 Heq. simpl in Heq.
  apply elem_of_remove_dups, list_elem_of_fmap in H1 as (t1 & E1 & _).
  apply elem_of_remove_dups, list_elem_of_fmap in H2 as (t2 & E2 & _).
  injection E1 as -> -> ->. injection E2 as -> -> ->.
  injection Heq as Hl Hr. by rewrite Hl, Hr.
Qed.

Lemma sampled_row_pairs_same_pairs (generated : list (Z * Z * Z)) l r :
  (exists s, (l, r, s) ∈ generated) <-> (exists s, (l, r, s) ∈ sampled_row_pairs generated).
Proof.
  unfold sampled_row_pairs. split.
  - intros (s & Hs). exists (first_sample l r generated).
    apply elem_of_remove_dups, list_elem_of_fmap. by exists (l, r, s).
  - intros (s & Hs).
    apply elem_of_remove_dups, list_elem_of_fmap in Hs as ([[l' r'] s'] & E & Hin).
    simpl in E. simplify_eq. by exists s'.
Qed.



(** *** What estimate_u_values changes *)

Lemma fold_back_u_levels m_u_records cc :
  Forall2 (fun cl cl' =>
     _comparison_vector_value cl' = _comparison_vector_value cl /\
     is_null_level cl' = is_null_level cl /\
     _m_probability cl' = _m_probability cl /\
     _u_probability cl' = _u_probability cl /\
     _tf_adjustment_column cl' = _tf_adjustment_column cl /\
     _trained_m_probabilities cl' = _trained_m_probabilities cl /\
     _trained_u_probabilities cl' =
       _trained_u_probabilities cl ++
       (if is_null_level cl then []
        else [{| trained_probability :=
                   lookup_u m_u_records (output_column_name cc) (_comparison_vector_value cl);
                 description := "estimate u by random sampling" |}]))
    (comparison_levels cc) (comparison_levels (fold_back_u m_u_records cc)).
Proof.
  unfold fold_back_u. simpl. apply Forall2_fmap_r, Forall_Forall2_diag, Forall_forall.
  intros cl _. destruct (is_null_level cl) eqn:E; simpl; rewrite ?E, ?app_nil_r; done.
Qed.

(** The caller's linker after a call that returns: its settings keep link
    type, prior, blocking rules, retain flags and training mode, and every
    comparison keeps its name and, level by level, everything but the u
    history of the non-null levels, which grows by one entry; its queue of
    staged queries has grown by [__splink__m_u_counts]. *)
Lemma estimate_u_values_caller count_rows count_l count_r param_records linker T st :
  estimate_u_values count_rows count_l count_r param_records linker T = Ok st ->
  let s := _settings_obj linker in
  let s' := _settings_obj (caller_linker st) in
  _pipeline (caller_linker st) =
    _pipeline linker ++ [(SqlNewParameters, "__splink__m_u_counts")] /\
  _link_type s' = _link_type s /\
  _probability_two_random_records_match s' = _probability_two_random_records_match s /\
  _blocking_rules_to_generate_predictions s' = _blocking_rules_to_generate_predictions s /\
  _retain_matching_columns s' = _retain_matching_columns s /\
  _retain_intermediate_calculation_columns s' = _retain_intermediate_calculation_columns s /\
  _training_mode s' = _training_mode s /\
  exists m_u_records, comparisons s' = map (fold_back_u m_u_records) (comparisons s).
Proof.
  unfold estimate_u_values.
  set (stage := match _link_type _ with link_only => _ | _ => _ end).
  destruct stage as [stg|e]; [|discriminate].
  intros [= <-]. simpl. repeat split. eauto.
Qed.

(** C10 at a concrete call: the caller's linker had nothing staged; after
    the call [__splink__m_u_counts] is staged on it, and the pipeline the
    training linker ran ends at [__splink__df_predict]. *)
Theorem estimate_u_values_stages_on_caller :
  exists st,
    estimate_u_values 4 0 0 (fun _ _ => []) linker_ex 3 = Ok st /\
    _pipeline linker_ex = [] /\
    _pipeline (caller_linker st) = [(SqlNewParameters, "__splink__m_u_counts")] /\
    _pipeline (training_linker st) = [] /\
    exists proportion sample_size,
      db_calls st =
        [RunSql SqlCountConcat "__splink__df_concat_count";
         DropTable "__splink__df_concat_count";
         RunSql (SqlSampleConcat proportion sample_size)
           "__splink__df_concat_with_tf_sample";
         RunPipeline
           [(SqlBlocked [], "__splink__df_blocked");
            (SqlComparisonVectors, "__splink__df_comparison_vectors");
            (SqlPredict, "__splink__df_predict")]
           ["__splink__df_concat_with_tf_sample"];
         DropTable "__splink__df_predict";
         DropTable "__splink__df_concat_with_tf_sample"].
Proof.
  unfold estimate_u_values, dedupe_stage, dedupe_sample. simpl.
  eexists. split; [reflexivity|]. simpl. repeat split.
  eexists _, _. reflexivity.
Qed.

(** *** More on the two inversions *)



(** [k] draws with replacement give at most [k] distinct values. *)
Lemma expected_unique_le_draws (N : R) (n : nat) :
  2 <= N -> expected_unique N (INR n) <= INR n.
Proof.
  intros HN. unfold expected_unique.
  destruct (inv_b_range N HN) as [Hb0 Hb1].
  rewrite Rpower_pow by done.
  induction n as [|n IH].
  - simpl. lra.
  - rewrite S_INR. simpl pow.
    assert (0 <= (1 - 1 / N) ^ n <= 1) as [Hp0 Hp1].
    { split.
      - apply pow_le. lra.
      - apply Rle_trans with (1 ^ n); [apply pow_incr; lra|]. rewrite pow1. lra. }
    replace (N * (1 - (1 - 1 / N) * (1 - 1 / N) ^ n))
      with (N * (1 - (1 - 1 / N) ^ n) + (1 - 1 / N) ^ n) by (field; lra).
    lra.
Qed.

Lemma draws_needed_nonneg N T : 0 <= T -> T < N -> 2 <= N -> 0 <= draws_needed N T.
Proof.
  intros HT0 HTN HN. unfold draws_needed.
  pose proof (inv_ln_a_nonpos N T HT0 HTN HN) as Ha.
  pose proof (inv_ln_b_neg N HN) as Hb.
  assert (/ ln (1 - 1 / N) < 0) as Hi by (by apply Rinv_lt_0_compat).
  unfold Rdiv. nra.
Qed.



(** The outcome of the draw-count formula on a whole number of row pairs. *)
Lemma pairs_to_sample_cases (N : Z) (T : R) :
  (N = 0%Z -> _num_target_rows_to_pairs_to_sample (IZR N) T = Raise ZeroDivisionError) /\
  (N = 1%Z ->
     _num_target_rows_to_pairs_to_sample (IZR N) T = Raise (ValueError "math domain error")) /\
  ((2 <= N)%Z -> IZR N <= T ->
     _num_target_rows_to_pairs_to_sample (IZR N) T = Raise (ValueError "math domain error")) /\
  ((2 <= N)%Z -> T < IZR N ->
     _num_target_rows_to_pairs_to_sample (IZR N) T =
       Ok (ceil (ln (1 - T / IZR N) / ln (1 - 1 / IZR N)))).
Proof.
  unfold _num_target_rows_to_pairs_to_sample. split; [|split; [|split]].
  - intros ->. by destruct (Req_dec_T 0 0).
  - intros ->. destruct (Req_dec_T 1 0); [lra|].
    destruct (Rle_dec (1 - T / 1) 0); [done|].
    destruct (Rle_dec (1 - 1 / 1) 0) as [|Hn]; [done|]. exfalso. apply Hn. lra.
  - intros HN HT. assert (2 <= IZR N) as HN' by (by apply IZR_le).
    destruct (Req_dec_T (IZR N) 0); [lra|].
    destruct (Rle_dec (1 - T / IZR N) 0) as [|Hn]; [done|]. exfalso. apply Hn.
    assert (1 <= T / IZR N); [|lra].
    apply (Rmult_le_reg_r (IZR N)); [lra|]. unfold Rdiv.
    rewrite Rmult_assoc, Rinv_l; lra.
  - intros HN HT. assert (2 <= IZR N) as HN' by (by apply IZR_le).
    destruct (inv_b_range (IZR N) HN') as [Hb0 Hb1].
    pose proof (inv_ln_b_neg (IZR N) HN') as Hlnb.
    destruct (Req_dec_T (IZR N) 0); [lra|].
    destruct (Rle_dec (1 - T / IZR N) 0) as [Hle|_].
    { exfalso. assert (T / IZR N < 1); [|lra].
      apply (Rmult_lt_reg_r (IZR N)); [lra|]. unfold Rdiv.
      rewrite Rmult_assoc, Rinv_l; lra. }
    destruct (Rle_dec (1 - 1 / IZR N) 0); [lra|].
    assert (0 < ln 10) by (rewrite <- ln_1; apply ln_increasing; lra).
    destruct (Req_dec_T (log10 (1 - 1 / IZR N)) 0) as [Hz|_].
    + exfalso. unfold log10 in Hz.
      apply (Rmult_eq_compat_r (ln 10)) in Hz.
      unfold Rdiv in Hz. rewrite Rmult_assoc, Rinv_l, Rmult_0_l in Hz; lra.
    + by rewrite log10_ratio.
Qed.



(** *** More on estimate_u_values *)

(** A call that returns has changed, in the caller's settings, nothing but
    the u histories: every comparison keeps its name, its input columns and
    its levels in order; a null level is as it was, and every other level is
    as it was but for one more entry at the end of its trained u
    probabilities, described as "estimate u by random sampling".  Term
    frequency columns, retain flags and training mode of the caller are not
    those of the training copy. *)
Theorem estimate_u_values_only_appends_u
  count_rows count_l count_r param_records linker T st :
  estimate_u_values count_rows count_l count_r param_records linker T = Ok st ->
  let s := _settings_obj linker in
  let s' := _settings_obj (caller_linker st) in
  Forall2 (fun cc cc' =>
     output_column_name cc' = output_column_name cc /\
     _input_columns_used_by_case_statement cc' = _input_columns_used_by_case_statement cc /\
     Forall2 (fun cl cl' =>
        if is_null_level cl then cl' = cl
        else exists p, cl' = _add_trained_u_probability cl p "estimate u by random sampling")
       (comparison_levels cc) (comparison_levels cc'))
    (comparisons s) (comparisons s') /\
  _link_type s' = _link_type s /\
  _probability_two_random_records_match s' = _probability_two_random_records_match s /\
  _blocking_rules_to_generate_predictions s' = _blocking_rules_to_generate_predictions s /\
  _retain_matching_columns s' = _retain_matching_columns s /\
  _retain_intermediate_calculation_columns s' = _retain_intermediate_calculation_columns s /\
  _training_mode s' = _training_mode s.
Proof.
  intros Hrun s s'.
  destruct (estimate_u_values_caller _ _ _ _ _ _ _ Hrun)
    as (_ & Hlt & Hp & Hbr & Hr1 & Hr2 & Htm & m_u_records & Hcc).
  fold s s' in Hlt, Hp, Hbr, Hr1, Hr2, Htm, Hcc.
  split; [|done]. rewrite Hcc.
  apply Forall2_fmap_r, Forall_Forall2_diag, Forall_forall. intros cc _.
  split; [done|]. split; [done|]. unfold fold_back_u. simpl.
  apply Forall2_fmap_r, Forall_Forall2_diag, Forall_forall. intros cl _.
  unfold compose. cbv beta.
  destruct (is_null_level cl); [done|]. eexists. reflexivity.
Qed.

Lemma estimate_u_values_only_appends_u_witness :
  exists st, estimate_u_values 4 0 0 (fun _ _ => []) linker_ex 3 = Ok st /\
    _training_mode (_settings_obj (caller_linker st)) = false.
Proof.
  assert (exists st, estimate_u_values 4 0 0 (fun _ _ => []) linker_ex 3 = Ok st) as [st Hst].
  { unfold estimate_u_values, dedupe_stage, dedupe_sample. simpl. eexists. reflexivity. }
  exists st. split; [exact Hst|].
  destruct (estimate_u_values_only_appends_u 4 0 0 (fun _ _ => []) linker_ex 3 st Hst)
    as (_ & _ & _ & _ & _ & _ & H).
  exact H.
Defined.



(** The frame a backend call materialises, and the frame it drops. *)
Definition materialised (c : db_call) : list string :=
  match c with
  | RunSql _ output_table_name => [output_table_name]
  | RunPipeline queue _ =>
      match last queue with
      | Some (_, output_table_name) => [output_table_name]
      | None => []
      end
  | DropTable _ => []
  end.

Definition dropped (c : db_call) : list string :=
  match c with
  | DropTable name => [name]
  | _ => []
  end.

Lemma last_snoc2 {A} (l : list A) (x y : A) : last (l ++ [x; y]) = Some y.
Proof.
  change (l ++ [x; y]) with (l ++ [x] ++ [y]). by rewrite (app_assoc l [x] [y]), last_snoc.
Qed.

Lemma List_last_snoc2 {A} (l : list A) (x y d : A) : List.last (l ++ [x; y]) d = y.
Proof.
  change (l ++ [x; y]) with (l ++ [x] ++ [y]). by rewrite (app_assoc l [x] [y]), last_last.
Qed.

Ltac solve_frame_names :=
  cbn [fst snd flat_map materialised dropped app];
  rewrite ?flat_map_app; cbn [flat_map materialised dropped app];
  rewrite ?last_snoc, ?last_snoc2, ?List_last_snoc2;
  cbn [fst snd flat_map materialised dropped app last];
  split; [|split];
  [ intros name; rewrite ?elem_of_cons, ?elem_of_nil;
    intuition (subst; first [done | congruence | tauto])
  | rewrite ?elem_of_cons, ?elem_of_nil; intuition (first [done | congruence])
  | rewrite ?not_elem_of_cons, ?elem_of_nil; intuition (first [done | congruence]) ].

(** Every frame a call that returns has materialised has been dropped by
    the time it returns, with one exception: with [repartition_after_blocking]
    the blocked pairs are materialised as [__splink__df_blocked] and that
    frame is never dropped. *)
Theorem estimate_u_values_drops_frames
  count_rows count_l count_r param_records linker T st :
  estimate_u_values count_rows count_l count_r param_records linker T = Ok st ->
  let made := flat_map materialised (db_calls st) in
  let gone := flat_map dropped (db_calls st) in
  (forall name, name ∈ made -> name <> "__splink__df_blocked" -> name ∈ gone) /\
  ("__splink__df_blocked" ∈ made <-> repartition_after_blocking linker = true) /\
  "__splink__df_blocked" ∉ gone.
Proof.
  unfold estimate_u_values.
  simpl (_link_type (_settings_obj (training_copy linker))).
  simpl (repartition_after_blocking (training_copy linker)).
  simpl (_pipeline (training_copy linker)).
  set (stage := match _link_type _ with link_only => _ | _ => _ end).
  destruct stage as [stg|e] eqn:Estage; [|discriminate].
  intros [= <-]. cbn [db_calls].
  assert ((stage_calls stg, stage_dataframes stg) =
            ([RunSql (SqlSampleConcat (fst (match dedupe_sample T count_rows with
                                            | Ok ps => ps | Raise _ => (0, 0) end))
                                      (snd (match dedupe_sample T count_rows with
                                            | Ok ps => ps | Raise _ => (0, 0) end)))
                "__splink__df_concat_with_tf_sample"],
             ["__splink__df_concat_with_tf_sample"]) /\
          _link_type (_settings_obj linker) <> link_only
          \/
          (exists sample_calls,
             stage_calls stg =
               [RunSql SqlCountsLeftRight "__splink__df_concat_counts_lr";
                DropTable "__splink__df_concat_counts_lr"] ++ sample_calls /\
             (sample_calls =
                [RunSql SqlAllLeft "__splink__df_concat_with_tf_left_sample";
                 RunSql SqlAllRight "__splink__df_concat_with_tf_right_sample"] \/
              exists k,
                sample_calls =
                  [RunPipeline
                     (_pipeline linker ++
                      [(SqlSampledRowPairs count_l count_r k,
                        "__splink__df_concat_sampled_row_pairs")]) [];
                   RunSql SqlLeftSample "__splink__df_concat_with_tf_left_sample";
                   RunSql SqlRightSample "__splink__df_concat_with_tf_right_sample";
                   DropTable "__splink__df_concat_sampled_row_pairs"])) /\
          _link_type (_settings_obj linker) = link_only) as Hstage.
  { subst stage. destruct (_link_type (_settings_obj linker)).
    - left. split; [|done]. unfold dedupe_stage in Estage.
      destruct (dedupe_sample T count_rows) as [[p n]|]; [|done]. by injection Estage as <-.
    - right. split; [|done]. unfold link_only_stage in Estage.
      destruct (Rge_dec T _).
      + injection Estage as <-. eexists. split; [reflexivity|]. by left.
      + destruct (_num_target_rows_to_pairs_to_sample _ _) as [k|]; [|done].
        injection Estage as <-. eexists. split; [reflexivity|]. right. by exists k.
    - left. split; [|done]. unfold dedupe_stage in Estage.
      destruct (dedupe_sample T count_rows) as [[p n]|]; [|done]. by injection Estage as <-. }
  clear Estage. subst stage.
  destruct Hstage as [[Hst Hlt]|[(sample_calls & Hcalls & Hsample) Hlt]].
  - injection Hst as Hcalls Hframes. rewrite Hcalls.
    destruct (_link_type (_settings_obj linker)) eqn:E; [|done|];
      destruct (repartition_after_blocking linker); solve_frame_names.
  - rewrite Hcalls, Hlt.
    destruct Hsample as [->|[k ->]];
      destruct (repartition_after_blocking linker); solve_frame_names.
Qed.

Lemma estimate_u_values_drops_frames_witness :
  exists st, estimate_u_values 4 0 0 (fun _ _ => []) linker_ex 3 = Ok st /\
    "__splink__df_blocked" ∉ flat_map dropped (db_calls st).
Proof.
  assert (exists st, estimate_u_values 4 0 0 (fun _ _ => []) linker_ex 3 = Ok st) as [st Hst].
  { unfold estimate_u_values, dedupe_stage, dedupe_sample. simpl. eexists. reflexivity. }
  exists st. split; [exact Hst|].
  exact (proj2 (proj2 (estimate_u_values_drops_frames 4 0 0 (fun _ _ => []) linker_ex 3 st Hst))).
Defined.

(** The settings the training linker computes the comparison vectors with:
    no level has a term frequency column, nothing is retained, training
    mode is on, and the blocking rules are not those of the model: the
    sample is blocked on equal [sample_id] when row pairs were sampled in
    link-only mode, and on nothing otherwise. *)
Theorem estimate_u_values_training_settings
  count_rows count_l count_r param_records linker T st :
  estimate_u_values count_rows count_l count_r param_records linker T = Ok st ->
  let s := _settings_obj (training_linker st) in
  Forall (fun cc => Forall (fun cl => _tf_adjustment_column cl = None) (comparison_levels cc))
    (comparisons s) /\
  _retain_matching_columns s = false /\
  _retain_intermediate_calculation_columns s = false /\
  _training_mode s = true /\
  _train_u_using_random_sample_mode (training_linker st) = true /\
  _pipeline (training_linker st) = [] /\
  _blocking_rules_to_generate_predictions s =
    match _link_type (_settings_obj linker) with
    | link_only =>
        if Rge_dec T (IZR (count_l * count_r)) then [] else ["l.sample_id = r.sample_id"]
    | _ => []
    end.
Proof.
  unfold estimate_u_values.
  simpl (_link_type (_settings_obj (training_copy linker))).
  set (stage := match _link_type _ with link_only => _ | _ => _ end).
  destruct stage as [stg|e] eqn:Estage; [|discriminate].
  intros [= <-]. cbn [training_linker _settings_obj with_blocking_rules training_copy
                      comparisons _retain_matching_columns
                      _retain_intermediate_calculation_columns _training_mode
                      _train_u_using_random_sample_mode _pipeline
                      _blocking_rules_to_generate_predictions].
  split; [|repeat (split; [done|])].
  - apply Forall_fmap, Forall_forall. intros cc _. simpl.
    apply Forall_fmap, Forall_forall. by intros cl _.
  - subst stage. destruct (_link_type (_settings_obj linker)); simpl; [done| |done].
    unfold link_only_stage in Estage. destruct (Rge_dec T _).
    + by injection Estage as <-.
    + destruct (_num_target_rows_to_pairs_to_sample _ _); [|done].
      by injection Estage as <-.
Qed.

Lemma estimate_u_values_training_settings_witness :
  exists st, estimate_u_values 4 0 0 (fun _ _ => []) linker_ex 3 = Ok st /\
    _training_mode (_settings_obj (training_linker st)) = true.
Proof.
  assert (exists st, estimate_u_values 4 0 0 (fun _ _ => []) linker_ex 3 = Ok st) as [st Hst].
  { unfold estimate_u_values, dedupe_stage, dedupe_sample. simpl. eexists. reflexivity. }
  exists st. split; [exact Hst|].
  destruct (estimate_u_values_training_settings 4 0 0 (fun _ _ => []) linker_ex 3 st Hst)
    as (_ & _ & _ & H & _).
  exact H.
Defined.

End EstimateU.

(** ** em_training_session.py *)

Module EMTrainingSession.
Import Model.

Inductive exn : Type :=
| ValueError (msg : string)
| EMTrainingException (msg : string)
| IndexError.

Inductive outcome (A : Type) : Type :=
| Ok (a : A)
| Raise (e : exn).
Arguments Ok {A} a.
Arguments Raise {A} e.

(** A line feed. *)
Definition nl : string := String (Ascii.ascii_of_nat 10) "".

(** ["".join([f"\n    - {cc}" for cc in names])] *)
Definition bullet_list (names : list string) : string :=
  fold_right (fun n acc => nl +:+ "    - " +:+ n +:+ acc) "" names.

(** The text of the [EMTrainingException] of [_train]. *)
Definition no_record_pairs_message (blocking_rule_sql : string) : string :=
  let br_sql := "`" +:+ blocking_rule_sql +:+ "`" in
  "Training rule " +:+ br_sql +:+ " resulted in no record pairs.  "
  +:+ "This means that in the supplied data set "
  +:+ "there were no pairs of records for which " +:+ br_sql +:+ " was `true`." +:+ nl
  +:+ "Expectation maximisation requires a substantial number of record "
  +:+ "comparisons to produce accurate parameter estimates - usually "
  +:+ "at least a few hundred, but preferably at least a few thousand." +:+ nl
  +:+ "You must revise your training blocking rule so that the set of "
  +:+ "generated comparisons is not empty.  You can use "
  +:+ "`linker.count_num_comparisons_from_blocking_rule()` to compute "
  +:+ "the number of comparisons that will be generated by a blocking rule.".

(** [update_first p f l]: [f] applied in place to the first element that
    satisfies [p]; [None] when there is none. *)
Fixpoint update_first {A} (p : A -> bool) (f : A -> A) (l : list A) : option (list A) :=
  match l with
  | [] => None
  | x :: rest =>
      if p x then Some (f x :: rest)
      else cons x <$> update_first p f rest
  end.

(** [split_first p l]: [l] cut at the first element that satisfies [p]. *)
Fixpoint split_first {A} (p : A -> bool) (l : list A) : option (list A * A * list A) :=
  match l with
  | [] => None
  | x :: rest =>
      if p x then Some ([], x, rest)
      else (fun r => (x :: r.1.1, r.1.2, r.2)) <$> split_first p rest
  end.

(** [update_first] when at most one element matches. *)

Lemma update_first_unique {A K} (key : A -> K) (k : K) (p : A -> bool) (f : A -> A)
  (l l' : list A) :
  (forall x, p x = true <-> key x = k) ->
  NoDup (map key l) ->
  update_first p f l = Some l' ->
  l' = map (fun x => if p x then f x else x) l.
Proof.
  intros Hp. revert l'. induction l as [|x l IH]; intros l' Hnd; simpl; [done|].
  apply NoDup_cons in Hnd as [Hx Hnd].
  destruct (p x) eqn:Ex.
  - intros [= <-]. f_equal. symmetry. 
    rewrite <- (map_id l) at 2. apply map_ext_in. intros y Hy.
    destruct (p y) eqn:Ey; [|done]. exfalso. apply Hx.
    apply Hp in Ex, Ey. rewrite Ex, <- Ey. apply list_elem_of_fmap. exists y.
    split; [done|]. by apply list_elem_of_In.
  - destruct (update_first p f l) as [l1|] eqn:E; simpl; [|done].
    intros [= <-]. f_equal. by apply IH.
Qed.

Lemma split_first_update {A} (p : A -> bool) (f : A -> A) (l : list A) :
  update_first p f l =
  (fun r => r.1.1 ++ f r.1.2 :: r.2) <$> split_first p l.
Proof.
  induction l as [|x l IH]; simpl; [done|].
  destruct (p x); [done|]. rewrite IH. by destruct (split_first p l) as [[[pre y] post]|].
Qed.

Lemma split_first_Some {A} (p : A -> bool) (l pre post : list A) x :
  split_first p l = Some (pre, x, post) -> l = pre ++ x :: post /\ p x = true.
Proof.
  revert pre. induction l as [|y l IH]; intros pre; simpl; [done|].
  destruct (p y) eqn:Ey.
  - by intros [= <- <- <-].
  - destruct (split_first p l) as [[[pre' x'] post']|]; simpl; [|done].
    intros [= <- <- <-]. destruct (IH pre' eq_refl) as [-> Hx]. done.
Qed.


Lemma string_app_assoc (a b c : string) : (a +:+ b) +:+ c = a +:+ (b +:+ c).
Proof.
  induction a as [|x a IH]; [done|].
  change (String x ((a +:+ b) +:+ c) = String x (a +:+ (b +:+ c))). by rewrite IH.
Qed.

(** The message of the exception holds the text of the rule. *)
Lemma no_record_pairs_message_names_rule (rule : string) :
  exists pre post, no_record_pairs_message rule = pre +:+ rule +:+ post.
Proof.
  unfold no_record_pairs_message. eexists "Training rule `", _.
  rewrite !string_app_assoc. reflexivity.
Qed.

Section Session.

(** The type of a probability value (a Python float) and of a row of the
    comparison-vector table. *)
Variable num : Type.
Variable cv_row : Type.

(** A snapshot of the parameters of one EM iteration. *)
Record CoreModelSettings : Type := {
  cms_comparisons : list (Comparison num);
  probability_two_random_records_match : num
}.

(** What the session does that can be observed from outside: log lines and
    the calls that reach the data or the EM engine. *)
Inductive event : Type :=
| LogInfo (msg : string)
| LogNotTrained (m_or_u column label : string) (comparison_vector_value : Z)
| InitialiseDfConcatWithTf
| ExecuteSqlPipeline (output_table_name : string) (input_dataframes : list string)
| AsRecordDict (limit : nat)
| ExpectationMaximisation (fix_m fix_u fix_lambda : bool).

Record EMTrainingSession : Type := {
  (** the settings of the linker itself, not a copy *)
  _original_settings_obj : Settings num;
  core_model_settings : CoreModelSettings;
  _blocking_rule_for_training : string;
  _comparison_levels_to_reverse_blocking_rule : list (ComparisonLevel num * Comparison num);
  _training_fix_u_probabilities : bool;
  _training_fix_m_probabilities : bool;
  _training_fix_probability_two_random_records_match : bool;
  _comparisons_that_cannot_be_estimated : list (Comparison num);
  _comparisons_that_can_be_estimated : list (Comparison num);
  estimate_without_term_frequencies : bool;
  _core_model_settings_history : list CoreModelSettings;
  (** [getattr(self.db_api, "repartition_after_blocking", False)] *)
  repartition_after_blocking : bool
}.

(** Parts that live outside these sources, taken as given:
    - [get_columns_used_from_sql] (parse_sql.py);
    - [_get_comparison_levels_corresponding_to_training_blocking_rule]
      (settings.py);
    - [prob_to_bayes_factor], [bayes_factor_to_prob] (misc.py), the Bayes
      factor of a level and the product of two numbers;
    - the rows of [__splink__df_comparison_vectors] the backend computes for
      a blocking rule;
    - the EM engine [expectation_maximisation], which returns the history of
      snapshots;
    - what [ComparisonLevel.m_probability] and [u_probability] give for a
      level whose probability is not a number. *)
Variable get_columns_used_from_sql : string -> list string.
Variable levels_of_blocking_rule :
  string -> list (Comparison num) -> list (ComparisonLevel num * Comparison num).
Variables prob_to_bayes_factor bayes_factor_to_prob : num -> num.
Variable _bayes_factor : ComparisonLevel num -> num.
Variable mul : num -> num -> num.
Variable comparison_vectors_of : string -> list cv_row.
Variable expectation_maximisation :
  CoreModelSettings -> bool -> bool -> bool -> list cv_row -> list CoreModelSettings.
Variables default_m default_u : ComparisonLevel num -> num.

(** Modelled from the spec: the accessors [ComparisonLevel.m_probability]
    and [u_probability] (comparison_level.py is not part of these sources)
    give the current probability of a level, which is "either a numeric
    value, an explicit not-observed sentinel, or unset": the number when it
    is one. *)
Definition m_probability (cl : ComparisonLevel num) : num :=
  match _m_probability cl with
  | Value p => p
  | _ => default_m cl
  end.

Definition u_probability (cl : ComparisonLevel num) : num :=
  match _u_probability cl with
  | Value p => p
  | _ => default_u cl
  end.

(** *** State and exceptions *)

Record state : Type := {
  session : EMTrainingSession;
  events : list event
}.

Definition M (A : Type) : Type := state -> state * outcome A.

Definition ret {A} (a : A) : M A := fun st => (st, Ok a).

Definition bind {A B} (m : M A) (k : A -> M B) : M B :=
  fun st =>
    match m st with
    | (st', Ok a) => k a st'
    | (st', Raise e) => (st', Raise e)
    end.

Definition raise {A} (e : exn) : M A := fun st => (st, Raise e).

Definition get_session : M EMTrainingSession := fun st => (st, Ok (session st)).

Definition put_session (s : EMTrainingSession) : M unit :=
  fun st => ({| session := s; events := events st |}, Ok tt).

Definition emit (e : event) : M unit :=
  fun st => ({| session := session st; events := events st ++ [e] |}, Ok tt).

Notation "x <- m ;; k" := (bind m (fun x => k))
  (at level 100, m at next level, right associativity).
Notation "m ;;; k" := (bind m (fun _ => k))
  (at level 100, right associativity).

(** *** __init__ *)

(** The property [_blocking_adjusted_probability_two_random_records_match]. *)
Definition _blocking_adjusted_probability_two_random_records_match
  (orig_prop_m : num) (comp_level_infos : list (ComparisonLevel num * Comparison num)) : num :=
  bayes_factor_to_prob
    (fold_left (fun adj_bayes_factor info => mul (_bayes_factor info.1) adj_bayes_factor)
       comp_level_infos (prob_to_bayes_factor orig_prop_m)).

Definition name_in (names : list string) (n : string) : bool :=
  existsb (String.eqb n) names.

(** [EMTrainingSession.__init__]; [settings] is the linker's settings
    object, [repartition] the attribute of its [db_api]. *)
Definition init (settings : Settings num) (repartition : bool)
  (blocking_rule_for_training : string)
  (fix_u_probabilities fix_m_probabilities fix_probability_two_random_records_match : bool)
  (comparisons_to_deactivate : list (Comparison num))
  (comparison_levels_to_reverse_blocking_rule : list (ComparisonLevel num * Comparison num))
  (estimate_without_term_frequencies : bool)
  : list event * outcome EMTrainingSession :=
  let log := [LogInfo (nl +:+ "----- Starting EM training session -----" +:+ nl)] in
  (* self._settings_obj = deepcopy(self._original_settings_obj) *)
  let comparisons := comparisons settings in
  match comparison_levels_to_reverse_blocking_rule with
  | _ :: _ => (log, Raise (ValueError "This path is broken for now."))
  | [] =>
      let levels := levels_of_blocking_rule blocking_rule_for_training comparisons in
      let adjusted :=
        _blocking_adjusted_probability_two_random_records_match
          (_probability_two_random_records_match settings) levels in
      let comparisons_to_deactivate :=
        match comparisons_to_deactivate with
        | _ :: _ => comparisons_to_deactivate
        | [] =>
            let br_cols := get_columns_used_from_sql blocking_rule_for_training in
            List.filter
              (fun cc => existsb (name_in br_cols) (_input_columns_used_by_case_statement cc))
              comparisons
        end in
      let cc_names_to_deactivate := map output_column_name comparisons_to_deactivate in
      let filtered_ccs :=
        List.filter (fun cc => negb (name_in cc_names_to_deactivate (output_column_name cc)))
          comparisons in
      (log,
       Ok {| _original_settings_obj := settings;
             core_model_settings :=
               {| cms_comparisons := filtered_ccs;
                  probability_two_random_records_match := adjusted |};
             _blocking_rule_for_training := blocking_rule_for_training;
             _comparison_levels_to_reverse_blocking_rule := levels;
             _training_fix_u_probabilities := fix_u_probabilities;
             _training_fix_m_probabilities := fix_m_probabilities;
             _training_fix_probability_two_random_records_match :=
               fix_probability_two_random_records_match;
             _comparisons_that_cannot_be_estimated := comparisons_to_deactivate;
             _comparisons_that_can_be_estimated := filtered_ccs;
             estimate_without_term_frequencies := estimate_without_term_frequencies;
             _core_model_settings_history := [];
             repartition_after_blocking := repartition |})
  end.

(** *** _training_log_message, _comparison_vectors *)

Definition _training_log_message : M unit :=
  s <- get_session ;;
  let not_estimated :=
    bullet_list (map output_column_name (_comparisons_that_cannot_be_estimated s)) in
  let estimated :=
    bullet_list (map output_column_name (_comparisons_that_can_be_estimated s)) in
  if _training_fix_m_probabilities s && _training_fix_u_probabilities s then
    raise (ValueError "Can't train model if you fix both m and u probabilites")
  else
    let mu :=
      if _training_fix_u_probabilities s then "m probabilities"
      else if _training_fix_m_probabilities s then "u probabilities"
      else "m and u probabilities" in
    emit (LogInfo
      ("Estimating the " +:+ mu +:+ " of the model by blocking on:" +:+ nl
       +:+ _blocking_rule_for_training s +:+ nl +:+ nl
       +:+ "Parameter estimates will be made for the following comparison(s):"
       +:+ estimated +:+ nl +:+ nl
       +:+ "Parameter estimates cannot be made for the following comparison(s)"
       +:+ " since they are used in the blocking rules: " +:+ not_estimated)).

Definition _comparison_vectors : M (list cv_row) :=
  _training_log_message ;;;
  emit InitialiseDfConcatWithTf ;;;
  s <- get_session ;;
  (if repartition_after_blocking s then
     emit (ExecuteSqlPipeline "__splink__df_blocked" ["__splink__df_concat_with_tf"]) ;;;
     emit (ExecuteSqlPipeline "__splink__df_comparison_vectors"
             ["__splink__df_concat_with_tf"; "__splink__df_blocked"])
   else
     emit (ExecuteSqlPipeline "__splink__df_comparison_vectors"
             ["__splink__df_concat_with_tf"])) ;;;
  ret (comparison_vectors_of (_blocking_rule_for_training s)).

(** *** _train *)

(** What the fold-back writes for a trained level: the sentinel when the
    level's probability is the sentinel, else the value of the accessor. *)
Definition recorded_m (cl : ComparisonLevel num) : probability num :=
  match _m_probability cl with
  | NotObserved => NotObserved
  | _ => Value (m_probability cl)
  end.

Definition recorded_u (cl : ComparisonLevel num) : probability num :=
  match _u_probability cl with
  | NotObserved => NotObserved
  | _ => Value (u_probability cl)
  end.

(** The body of the inner loop on the level [orig_cl] of the original
    settings, for the trained level [cl]. *)
Definition fold_back_level (fix_m fix_u : bool) (training_desc : string)
  (cl orig_cl : ComparisonLevel num) : ComparisonLevel num :=
  let orig_cl :=
    if fix_m then orig_cl
    else _add_trained_m_probability orig_cl (recorded_m cl) training_desc in
  if fix_u then orig_cl
  else _add_trained_u_probability orig_cl (recorded_u cl) training_desc.

(** The log lines of the body of the inner loop. *)
Definition fold_back_level_log (fix_m fix_u : bool) (cc : Comparison num)
  (cl : ComparisonLevel num) : list event :=
  (if fix_m then []
   else match _m_probability cl with
        | NotObserved =>
            [LogNotTrained "m" (output_column_name cc) (label_for_charts cl)
               (_comparison_vector_value cl)]
        | _ => []
        end)
  ++
  (if fix_u then []
   else match _u_probability cl with
        | NotObserved =>
            [LogNotTrained "u" (output_column_name cc) (label_for_charts cl)
               (_comparison_vector_value cl)]
        | _ => []
        end).

(** Modelled from the spec: [_get_comparison_level_by_comparison_vector_value]
    and [_get_comparison_by_output_column_name] (comparison.py and
    settings.py are not part of these sources) find the level, and the
    comparison, that "match comparison output-column-name and
    comparison-vector-value"; the first one that matches is taken, and its
    absence is an error. *)
Definition same_value (cl orig_cl : ComparisonLevel num) : bool :=
  (_comparison_vector_value orig_cl =? _comparison_vector_value cl)%Z.

Definition same_name (cc orig_cc : Comparison num) : bool :=
  String.eqb (output_column_name orig_cc) (output_column_name cc).

(** The inner loop [for cl in cc._comparison_levels_excluding_null], on the
    comparison [orig_cc] of the original settings: the comparison as the
    loop leaves it, the lines logged, and whether it ended. *)
Fixpoint fold_back_levels (fix_m fix_u : bool) (training_desc : string)
  (cc : Comparison num) (levels : list (ComparisonLevel num)) (orig_cc : Comparison num)
  : Comparison num * list event * outcome unit :=
  match levels with
  | [] => (orig_cc, [], Ok tt)
  | cl :: rest =>
      match update_first (same_value cl) (fold_back_level fix_m fix_u training_desc cl)
              (comparison_levels orig_cc) with
      | None => (orig_cc, [], Raise (ValueError "No comparison level with this comparison vector value"))
      | Some levels' =>
          let '(orig_cc', log, r) :=
            fold_back_levels fix_m fix_u training_desc cc rest (with_levels orig_cc levels') in
          (orig_cc', fold_back_level_log fix_m fix_u cc cl ++ log, r)
      end
  end.

(** The outer loop [for cc in self.core_model_settings.comparisons], on the
    comparisons of the original settings. *)
Fixpoint fold_back (fix_m fix_u : bool) (training_desc : string)
  (trained : list (Comparison num)) (orig : list (Comparison num))
  : list (Comparison num) * list event * outcome unit :=
  match trained with
  | [] => (orig, [], Ok tt)
  | cc :: rest =>
      match split_first (same_name cc) orig with
      | None => (orig, [], Raise (ValueError "No comparison column with this name"))
      | Some (pre, orig_cc, post) =>
          match fold_back_levels fix_m fix_u training_desc cc
                  (_comparison_levels_excluding_null cc) orig_cc with
          | (orig_cc', log, Raise e) => (pre ++ orig_cc' :: post, log, Raise e)
          | (orig_cc', log, Ok _) =>
              let '(orig', log', r) :=
                fold_back fix_m fix_u training_desc rest (pre ++ orig_cc' :: post) in
              (orig', log ++ log', r)
          end
      end
  end.

Definition with_comparisons (s : Settings num) (ccs : list (Comparison num)) : Settings num :=
  {| _link_type := _link_type s;
     comparisons := ccs;
     _probability_two_random_records_match := _probability_two_random_records_match s;
     _blocking_rules_to_generate_predictions := _blocking_rules_to_generate_predictions s;
     _retain_matching_columns := _retain_matching_columns s;
     _retain_intermediate_calculation_columns := _retain_intermediate_calculation_columns s;
     _training_mode := _training_mode s |}.

Definition with_training_result (s : EMTrainingSession)
  (history : list CoreModelSettings) (final : CoreModelSettings) : EMTrainingSession :=
  {| _original_settings_obj := _original_settings_obj s;
     core_model_settings := final;
     _blocking_rule_for_training := _blocking_rule_for_training s;
     _comparison_levels_to_reverse_blocking_rule := _comparison_levels_to_reverse_blocking_rule s;
     _training_fix_u_probabilities := _training_fix_u_probabilities s;
     _training_fix_m_probabilities := _training_fix_m_probabilities s;
     _training_fix_probability_two_random_records_match :=
       _training_fix_probability_two_random_records_match s;
     _comparisons_that_cannot_be_estimated := _comparisons_that_cannot_be_estimated s;
     _comparisons_that_can_be_estimated := _comparisons_that_can_be_estimated s;
     estimate_without_term_frequencies := estimate_without_term_frequencies s;
     _core_model_settings_history := history;
     repartition_after_blocking := repartition_after_blocking s |}.

Definition with_original_comparisons (s : EMTrainingSession)
  (ccs : list (Comparison num)) : EMTrainingSession :=
  {| _original_settings_obj := with_comparisons (_original_settings_obj s) ccs;
     core_model_settings := core_model_settings s;
     _blocking_rule_for_training := _blocking_rule_for_training s;
     _comparison_levels_to_reverse_blocking_rule := _comparison_levels_to_reverse_blocking_rule s;
     _training_fix_u_probabilities := _training_fix_u_probabilities s;
     _training_fix_m_probabilities := _training_fix_m_probabilities s;
     _training_fix_probability_two_random_records_match :=
       _training_fix_probability_two_random_records_match s;
     _comparisons_that_cannot_be_estimated := _comparisons_that_cannot_be_estimated s;
     _comparisons_that_can_be_estimated := _comparisons_that_can_be_estimated s;
     estimate_without_term_frequencies := estimate_without_term_frequencies s;
     _core_model_settings_history := _core_model_settings_history s;
     repartition_after_blocking := repartition_after_blocking s |}.

Definition emit_all (es : list event) : M unit :=
  fun st => ({| session := session st; events := events st ++ es |}, Ok tt).

(** [f"EM, blocked on: {rule}"] *)
Definition training_desc_of (rule : string) : string := "EM, blocked on: " +:+ rule.

Definition _train (cvv : option (list cv_row)) : M unit :=
  cvv <- match cvv with
         | None => _comparison_vectors
         | Some cvv => ret cvv
         end ;;
  emit (AsRecordDict 1) ;;;
  s <- get_session ;;
  match firstn 1 cvv with
  | [] => raise (EMTrainingException (no_record_pairs_message (_blocking_rule_for_training s)))
  | _ :: _ =>
      let fix_m := _training_fix_m_probabilities s in
      let fix_u := _training_fix_u_probabilities s in
      emit (ExpectationMaximisation fix_m fix_u
              (_training_fix_probability_two_random_records_match s)) ;;;
      let core_model_settings_history :=
        expectation_maximisation (core_model_settings s) fix_m fix_u
          (_training_fix_probability_two_random_records_match s) cvv in
      match last core_model_settings_history with
      | None => raise IndexError
      | Some final =>
          let s := with_training_result s core_model_settings_history final in
          put_session s ;;;
          let '(orig, log, r) :=
            fold_back fix_m fix_u (training_desc_of (_blocking_rule_for_training s))
              (cms_comparisons final) (comparisons (_original_settings_obj s)) in
          put_session (with_original_comparisons s orig) ;;;
          emit_all log ;;;
          match r with
          | Ok _ => ret tt
          | Raise e => raise e
          end
      end
  end.

(** A run of [_train] on a session that has logged nothing yet. *)
Definition run_train (s : EMTrainingSession) (cvv : option (list cv_row))
  : state * outcome unit :=
  _train cvv {| session := s; events := [] |}.

Definition is_em_call (e : event) : bool :=
  match e with
  | ExpectationMaximisation _ _ _ => true
  | _ => false
  end.

(** *** Properties of the fold-back *)

Implicit Types (cl ocl : ComparisonLevel num) (cc occ : Comparison num).

Lemma fold_back_level_value fm fu desc cl ocl :
  _comparison_vector_value (fold_back_level fm fu desc cl ocl) = _comparison_vector_value ocl.
Proof. unfold fold_back_level. by destruct fm, fu. Qed.

(** One step of the inner loop, on a level of the original settings. *)
Definition record_on (fm fu : bool) (desc : string) cl ocl : ComparisonLevel num :=
  if same_value cl ocl then fold_back_level fm fu desc cl ocl else ocl.

Definition record_all (fm fu : bool) (desc : string) (levels : list (ComparisonLevel num)) ocl
  : ComparisonLevel num :=
  fold_left (fun o cl => record_on fm fu desc cl o) levels ocl.

Lemma record_on_value fm fu desc cl ocl :
  _comparison_vector_value (record_on fm fu desc cl ocl) = _comparison_vector_value ocl.
Proof. unfold record_on. destruct (same_value _ _); [apply fold_back_level_value|done]. Qed.

Lemma fold_back_levels_ok fm fu desc cc levels occ occ' log :
  NoDup (map _comparison_vector_value (comparison_levels occ)) ->
  fold_back_levels fm fu desc cc levels occ = (occ', log, Ok tt) ->
  occ' = with_levels occ (map (record_all fm fu desc levels) (comparison_levels occ)).
Proof.
  revert occ log. induction levels as [|cl rest IH]; intros occ log Hnd; simpl.
  - intros [= <- _]. destruct occ. unfold with_levels. simpl. by rewrite map_id.
  - destruct (update_first _ _ _) as [levels'|] eqn:E; [|done].
    apply (update_first_unique _comparison_vector_value (_comparison_vector_value cl)) in E.
    2:{ intros x. unfold same_value. apply Z.eqb_eq. }
    2:{ done. }
    destruct (fold_back_levels fm fu desc cc rest (with_levels occ levels'))
      as [[occ1 log1] r1] eqn:E1.
    intros [= <- _ ->]. apply IH in E1.
    + rewrite E1. unfold with_levels. simpl. f_equal. rewrite E, map_map. done.
    + simpl. rewrite E, map_map.
      erewrite map_ext; [exact Hnd|]. intros o. simpl.
      fold (record_on fm fu desc cl o). apply record_on_value.
Qed.

(** One step of the outer loop, on a comparison of the original settings. *)
Definition record_comparison (fm fu : bool) (desc : string) cc occ : Comparison num :=
  if same_name cc occ
  then with_levels occ
         (map (record_all fm fu desc (_comparison_levels_excluding_null cc))
            (comparison_levels occ))
  else occ.

Lemma record_comparison_name fm fu desc cc occ :
  output_column_name (record_comparison fm fu desc cc occ) = output_column_name occ.
Proof. unfold record_comparison. by destruct (same_name _ _). Qed.

Lemma record_all_value fm fu desc levels ocl :
  _comparison_vector_value (record_all fm fu desc levels ocl) = _comparison_vector_value ocl.
Proof.
  unfold record_all. revert ocl. induction levels as [|cl rest IH]; intros ocl; simpl; [done|].
  by rewrite IH, record_on_value.
Qed.

Lemma record_comparison_values fm fu desc cc occ :
  map _comparison_vector_value (comparison_levels (record_comparison fm fu desc cc occ)) =
  map _comparison_vector_value (comparison_levels occ).
Proof.
  unfold record_comparison. destruct (same_name _ _); [|done]. simpl.
  rewrite map_map. apply map_ext. intros o. apply record_all_value.
Qed.

Definition unique_values (ccs : list (Comparison num)) : Prop :=
  Forall (fun occ => NoDup (map _comparison_vector_value (comparison_levels occ))) ccs.

Lemma fold_back_ok fm fu desc trained orig orig' log :
  NoDup (map output_column_name orig) ->
  unique_values orig ->
  fold_back fm fu desc trained orig = (orig', log, Ok tt) ->
  orig' = map (fun occ => fold_left (fun o cc => record_comparison fm fu desc cc o) trained occ)
            orig.
Proof using Type.
  revert orig log. induction trained as [|cc rest IH]; intros orig log Hnd Hu; simpl.
  - intros [= <- _]. by rewrite map_id.
  - destruct (split_first _ orig) as [[[pre occ] post]|] eqn:Es; [|done].
    destruct (fold_back_levels fm fu desc cc _ occ) as [[occ1 log1] [[]|e]] eqn:El; [|done].
    destruct (fold_back fm fu desc rest (pre ++ occ1 :: post)) as [[orig1 log2] r] eqn:Ef.
    intros [= <- _ ->].
    assert (update_first (same_name cc) (record_comparison fm fu desc cc) orig
            = Some (pre ++ occ1 :: post)) as Hup.
    { rewrite split_first_update, Es. simpl. do 3 f_equal.
      apply split_first_Some in Es as [-> Hocc].
      unfold record_comparison. rewrite Hocc. symmetry.
      eapply fold_back_levels_ok; [|exact El].
      unfold unique_values in Hu. rewrite Forall_app, Forall_cons in Hu.
      by destruct Hu as [_ [? _]]. }
    apply (update_first_unique output_column_name (output_column_name cc)) in Hup.
    2:{ intros x. unfold same_name. apply String.eqb_eq. }
    2:{ done. }
    assert (forall o, (if same_name cc o then record_comparison fm fu desc cc o else o)
                      = record_comparison fm fu desc cc o) as Hsimp.
    { intros o. unfold record_comparison. by destruct (same_name cc o). }
    rewrite (map_ext _ _ Hsimp) in Hup.
    apply IH in Ef.
    + rewrite Ef, Hup, map_map. done.
    + rewrite Hup, map_map. erewrite map_ext; [exact Hnd|].
      intros o. apply record_comparison_name.
    + rewrite Hup. unfold unique_values in *. rewrite Forall_fmap.
      eapply Forall_impl; [exact Hu|]. intros o Ho. simpl.
      by rewrite record_comparison_values.
Qed.

Lemma record_on_same_value fm fu desc cl cl' ocl :
  same_value cl' (record_on fm fu desc cl ocl) = same_value cl' ocl.
Proof. unfold same_value. by rewrite record_on_value. Qed.

Definition entry_m (desc : string) cl : trained num :=
  {| trained_probability := recorded_m cl; description := desc |}.

Definition entry_u (desc : string) cl : trained num :=
  {| trained_probability := recorded_u cl; description := desc |}.

Lemma record_all_fields fm fu desc levels ocl :
  let ocl' := record_all fm fu desc levels ocl in
  _comparison_vector_value ocl' = _comparison_vector_value ocl /\
  is_null_level ocl' = is_null_level ocl /\
  _m_probability ocl' = _m_probability ocl /\
  _u_probability ocl' = _u_probability ocl /\
  _tf_adjustment_column ocl' = _tf_adjustment_column ocl /\
  _trained_m_probabilities ocl' =
    _trained_m_probabilities ocl ++
    (if fm then []
     else map (entry_m desc) (List.filter (fun cl => same_value cl ocl) levels)) /\
  _trained_u_probabilities ocl' =
    _trained_u_probabilities ocl ++
    (if fu then []
     else map (entry_u desc) (List.filter (fun cl => same_value cl ocl) levels)).
Proof.
  unfold record_all. revert ocl.
  induction levels as [|cl rest IH]; intros ocl; simpl.
  - destruct fm, fu; by rewrite ?app_nil_r.
  - specialize (IH (record_on fm fu desc cl ocl)). simpl in IH.
    destruct IH as (-> & -> & -> & -> & -> & -> & ->).
    rewrite (List.filter_ext _ (fun cl' => same_value cl' ocl))
      by (intros; apply record_on_same_value).
    unfold record_on, fold_back_level.
    destruct (same_value cl ocl) eqn:E; destruct fm, fu; simpl;
      rewrite <- ?app_assoc; done.
Qed.

(** The trained levels whose values are written to the level [ocl] of the
    comparison [occ] of the original settings. *)
Definition trained_levels_for (trained : list (Comparison num)) occ ocl
  : list (ComparisonLevel num) :=
  List.filter (fun cl => same_value cl ocl)
    (flat_map _comparison_levels_excluding_null
       (List.filter (fun cc => same_name cc occ) trained)).

Lemma record_comparisons_fields fm fu desc trained occ :
  let occ' := fold_left (fun o cc => record_comparison fm fu desc cc o) trained occ in
  output_column_name occ' = output_column_name occ /\
  comparison_levels occ' =
    map (record_all fm fu desc
           (flat_map _comparison_levels_excluding_null
              (List.filter (fun cc => same_name cc occ) trained)))
      (comparison_levels occ).
Proof.
  revert occ. induction trained as [|cc rest IH]; intros occ; simpl.
  - split; [done|]. by rewrite map_id.
  - specialize (IH (record_comparison fm fu desc cc occ)). simpl in IH.
    destruct IH as [-> ->]. rewrite record_comparison_name. split; [done|].
    rewrite (List.filter_ext _ (fun cc' => same_name cc' occ)).
    2:{ intros cc'. unfold same_name. by rewrite record_comparison_name. }
    unfold record_comparison. destruct (same_name cc occ) eqn:E; simpl; [|done].
    rewrite map_map. apply map_ext. intros o.
    unfold record_all. by rewrite fold_left_app.
Qed.

(** *** Properties of _train *)

(** With both m and u fixed and no comparison vectors supplied, [_train]
    raises before anything is logged, read or run. *)
Lemma train_both_fixed_fails_fast s :
  _training_fix_m_probabilities s = true ->
  _training_fix_u_probabilities s = true ->
  run_train s None =
    ({| session := s; events := [] |},
     Raise (ValueError "Can't train model if you fix both m and u probabilites")).
Proof.
  intros Hm Hu. unfold run_train, _train, _comparison_vectors, _training_log_message.
  unfold bind, get_session, raise. simpl. by rewrite Hm, Hu.
Qed.

(** The events of [_comparison_vectors] after the log line. *)
Definition comparison_vector_events (repartition : bool) : list event :=
  InitialiseDfConcatWithTf ::
  (if repartition
   then [ExecuteSqlPipeline "__splink__df_blocked" ["__splink__df_concat_with_tf"];
         ExecuteSqlPipeline "__splink__df_comparison_vectors"
           ["__splink__df_concat_with_tf"; "__splink__df_blocked"]]
   else [ExecuteSqlPipeline "__splink__df_comparison_vectors"
           ["__splink__df_concat_with_tf"]]).

Lemma comparison_vectors_run s :
  _training_fix_m_probabilities s && _training_fix_u_probabilities s = false ->
  exists msg,
    _comparison_vectors {| session := s; events := [] |} =
      ({| session := s;
          events := LogInfo msg :: comparison_vector_events (repartition_after_blocking s) |},
       Ok (comparison_vectors_of (_blocking_rule_for_training s))).
Proof.
  intros Hfix. unfold _comparison_vectors, _training_log_message.
  unfold bind, get_session, raise, emit, ret. simpl. rewrite Hfix. simpl.
  eexists. unfold comparison_vector_events.
  destruct (repartition_after_blocking s); simpl; reflexivity.
Qed.

(** C2 (as amended): when the comparison vectors that reach the check are
    empty (supplied empty by the caller, or computed for a rule that yields
    no pair by a session that does not fix both m and u), [_train] raises
    the [EMTrainingException] whose message holds the text of the rule; the
    backend has been asked once, the EM engine has not been called, and the
    session, the original settings included, is as it was. *)
Theorem train_on_no_pairs s cvv :
  match cvv with
  | Some rows => rows = []
  | None =>
      comparison_vectors_of (_blocking_rule_for_training s) = [] /\
      _training_fix_m_probabilities s && _training_fix_u_probabilities s = false
  end ->
  exists st,
    run_train s cvv =
      (st, Raise (EMTrainingException
                    (no_record_pairs_message (_blocking_rule_for_training s)))) /\
    (exists pre post,
       no_record_pairs_message (_blocking_rule_for_training s) =
       pre +:+ _blocking_rule_for_training s +:+ post) /\
    session st = s /\
    existsb is_em_call (events st) = false /\
    (exists msg,
       events st =
         match cvv with
         | Some _ => []
         | None => LogInfo msg :: comparison_vector_events (repartition_after_blocking s)
         end ++ [AsRecordDict 1]).
Proof.
  intros H. destruct cvv as [rows|].
  - subst rows. eexists. split; [reflexivity|].
    split; [apply no_record_pairs_message_names_rule|].
    simpl. split; [done|]. split; [done|]. by exists "".
  - destruct H as [Hrows Hfix].
    destruct (comparison_vectors_run s Hfix) as (msg & Hcv).
    unfold run_train, _train. unfold bind at 1. rewrite Hcv, Hrows.
    eexists. split; [reflexivity|].
    split; [apply no_record_pairs_message_names_rule|].
    simpl. split; [done|]. split.
    + unfold comparison_vector_events. by destruct (repartition_after_blocking s).
    + by exists msg.
Qed.

(** What a run of [_train] that ends has done. *)
Lemma train_ok s cvv st :
  run_train s cvv = (st, Ok tt) ->
  exists rows history final orig log,
    history = expectation_maximisation (core_model_settings s)
                (_training_fix_m_probabilities s) (_training_fix_u_probabilities s)
                (_training_fix_probability_two_random_records_match s) rows /\
    last history = Some final /\
    fold_back (_training_fix_m_probabilities s) (_training_fix_u_probabilities s)
      (training_desc_of (_blocking_rule_for_training s))
      (cms_comparisons final) (comparisons (_original_settings_obj s)) = (orig, log, Ok tt) /\
    session st = with_original_comparisons (with_training_result s history final) orig.
Proof.
  unfold run_train, _train.
  assert (forall st0 rows,
    session st0 = s ->
    (emit (AsRecordDict 1) ;;;
     s0 <- get_session ;;
     match firstn 1 rows with
     | [] => raise (EMTrainingException (no_record_pairs_message (_blocking_rule_for_training s0)))
     | _ :: _ =>
         emit (ExpectationMaximisation (_training_fix_m_probabilities s0)
                 (_training_fix_u_probabilities s0)
                 (_training_fix_probability_two_random_records_match s0)) ;;;
         match last (expectation_maximisation (core_model_settings s0)
                       (_training_fix_m_probabilities s0) (_training_fix_u_probabilities s0)
                       (_training_fix_probability_two_random_records_match s0) rows) with
         | None => raise IndexError
         | Some final =>
             put_session (with_training_result s0
               (expectation_maximisation (core_model_settings s0)
                  (_training_fix_m_probabilities s0) (_training_fix_u_probabilities s0)
                  (_training_fix_probability_two_random_records_match s0) rows) final) ;;;
             (let '(orig, log, r) :=
                fold_back (_training_fix_m_probabilities s0) (_training_fix_u_probabilities s0)
                  (training_desc_of (_blocking_rule_for_training
                     (with_training_result s0
                        (expectation_maximisation (core_model_settings s0)
                           (_training_fix_m_probabilities s0) (_training_fix_u_probabilities s0)
                           (_training_fix_probability_two_random_records_match s0) rows) final)))
                  (cms_comparisons final)
                  (comparisons (_original_settings_obj
                     (with_training_result s0
                        (expectation_maximisation (core_model_settings s0)
                           (_training_fix_m_probabilities s0) (_training_fix_u_probabilities s0)
                           (_training_fix_probability_two_random_records_match s0) rows) final))) in
              put_session (with_original_comparisons
                (with_training_result s0
                   (expectation_maximisation (core_model_settings s0)
                      (_training_fix_m_probabilities s0) (_training_fix_u_probabilities s0)
                      (_training_fix_probability_two_random_records_match s0) rows) final) orig) ;;;
              emit_all log ;;;
              match r with
              | Ok _ => ret tt
              | Raise e => raise e
              end)
         end
     end) st0 = (st, Ok tt) ->
    exists rows history final orig log,
      history = expectation_maximisation (core_model_settings s)
                  (_training_fix_m_probabilities s) (_training_fix_u_probabilities s)
                  (_training_fix_probability_two_random_records_match s) rows /\
      last history = Some final /\
      fold_back (_training_fix_m_probabilities s) (_training_fix_u_probabilities s)
        (training_desc_of (_blocking_rule_for_training s))
        (cms_comparisons final) (comparisons (_original_settings_obj s)) = (orig, log, Ok tt) /\
      session st = with_original_comparisons (with_training_result s history final) orig) as Hmain.
  { intros st0 rows Hs. unfold bind, emit, get_session, put_session, emit_all, raise, ret.
    simpl. rewrite Hs. destruct (firstn 1 rows); [done|].
    destruct (last _) as [final|] eqn:El; [|done]. simpl.
    destruct (fold_back _ _ _ _ _) as [[orig log] [[]|e]] eqn:Ef; simpl; [|done].
    intros [= <-]. simpl. exists rows. eauto 10. }
  destruct cvv as [rows|].
  - unfold bind at 1. unfold ret at 1. apply Hmain. done.
  - unfold bind at 1.
    destruct (_training_fix_m_probabilities s && _training_fix_u_probabilities s) eqn:Hfix.
    + apply andb_true_iff in Hfix as [Hm Hu].
      unfold _comparison_vectors, _training_log_message, bind, get_session, raise.
      simpl. rewrite Hm, Hu. simpl. done.
    + destruct (comparison_vectors_run s Hfix) as (msg & ->). apply Hmain. done.
Qed.

(** C4: after [_train] has ended, every level of the original settings
    keeps its vector value and its current m and u, and its trained m
    history has grown by one entry per trained non-null level that matches
    it by comparison name and vector value (unless m is fixed): the "not
    observed" sentinel when the trained value is the sentinel, the trained
    number otherwise; likewise for u. *)
Theorem fold_back_records_sentinel s cvv st :
  run_train s cvv = (st, Ok tt) ->
  NoDup (map output_column_name (comparisons (_original_settings_obj s))) ->
  unique_values (comparisons (_original_settings_obj s)) ->
  let trained := cms_comparisons (core_model_settings (session st)) in
  let desc := training_desc_of (_blocking_rule_for_training s) in
  last (_core_model_settings_history (session st)) = Some (core_model_settings (session st)) /\
  Forall2 (fun occ occ' =>
     output_column_name occ' = output_column_name occ /\
     Forall2 (fun ocl ocl' =>
        _comparison_vector_value ocl' = _comparison_vector_value ocl /\
        _m_probability ocl' = _m_probability ocl /\
        _u_probability ocl' = _u_probability ocl /\
        _trained_m_probabilities ocl' =
          _trained_m_probabilities ocl ++
          (if _training_fix_m_probabilities s then []
           else map (fun cl => {| trained_probability := recorded_m cl; description := desc |})
                  (trained_levels_for trained occ ocl)) /\
        _trained_u_probabilities ocl' =
          _trained_u_probabilities ocl ++
          (if _training_fix_u_probabilities s then []
           else map (fun cl => {| trained_probability := recorded_u cl; description := desc |})
                  (trained_levels_for trained occ ocl)))
       (comparison_levels occ) (comparison_levels occ'))
    (comparisons (_original_settings_obj s))
    (comparisons (_original_settings_obj (session st))) /\
  (forall cl, recorded_m cl = NotObserved <-> _m_probability cl = NotObserved) /\
  (forall cl, recorded_u cl = NotObserved <-> _u_probability cl = NotObserved) /\
  (forall cl p, _m_probability cl = Value p -> recorded_m cl = Value p) /\
  (forall cl p, _u_probability cl = Value p -> recorded_u cl = Value p).
Proof.
  intros Hrun Hnd Hu trained desc.
  destruct (train_ok s cvv st Hrun) as (rows & history & final & orig & log & Hh & Hl & Hf & Hs).
  subst trained desc. rewrite Hs. simpl.
  set (desc := training_desc_of (_blocking_rule_for_training s)) in *.
  split; [done|]. split.
  - apply fold_back_ok in Hf; [|done..]. subst orig.
    apply Forall2_fmap_r, Forall_Forall2_diag, Forall_forall. intros occ _.
    destruct (record_comparisons_fields (_training_fix_m_probabilities s)
                (_training_fix_u_probabilities s) desc (cms_comparisons final) occ)
      as [Hn Hlv].
    split; [done|]. rewrite Hlv.
    apply Forall2_fmap_r, Forall_Forall2_diag, Forall_forall. intros ocl _.
    destruct (record_all_fields (_training_fix_m_probabilities s)
                (_training_fix_u_probabilities s) desc
                (flat_map _comparison_levels_excluding_null
                   (List.filter (fun cc => same_name cc occ) (cms_comparisons final))) ocl)
      as (Hv & _ & Hm & Hu' & _ & Htm & Htu).
    repeat split; done.
  - unfold recorded_m, recorded_u, m_probability, u_probability.
    split; [|split; [|split]].
    + intros cl. by destruct (_m_probability cl).
    + intros cl. by destruct (_u_probability cl).
    + by intros cl p ->.
    + by intros cl p ->.
Qed.

(** *** More on __init__ *)

Lemma NoDup_fmap_eq {A B} (f : A -> B) (l : list A) x y :
  NoDup (map f l) -> In x l -> In y l -> f x = f y -> x = y.
Proof.
  induction l as [|a l IH]; simpl; [done|].
  intros [Ha Hnd]%NoDup_cons [->|Hx] [->|Hy] Heq; try done.
  - exfalso. apply Ha. rewrite Heq. apply list_elem_of_In, in_map, Hy.
  - exfalso. apply Ha. rewrite <- Heq. apply list_elem_of_In, in_map, Hx.
  - by apply IH.
Qed.

Lemma name_in_spec (names : list string) (n : string) : name_in names n = true <-> In n names.
Proof.
  unfold name_in. rewrite existsb_exists. split.
  - intros (m & Hm & ->%String.eqb_eq). done.
  - intros Hn. exists n. by rewrite String.eqb_refl.
Qed.

(** Whether a comparison reads a column that the blocking rule uses. *)
Definition uses_blocking_column (rule : string) cc : bool :=
  existsb (name_in (get_columns_used_from_sql rule)) (_input_columns_used_by_case_statement cc).

(** When the caller names no comparison to deactivate and the output
    column names of the model are distinct, the session splits the
    comparisons of the model in two, each part in model order: those that
    read a column the blocking rule uses cannot be estimated, all the others
    are the comparisons the EM engine is started on.  The settings of the
    linker are kept as they are and the history starts empty. *)
Theorem init_deactivates_by_blocking_columns
  settings repartition rule fix_u fix_m fix_lambda without_tf_flag :
  NoDup (map output_column_name (comparisons settings)) ->
  exists s,
    snd (init settings repartition rule fix_u fix_m fix_lambda [] [] without_tf_flag) = Ok s /\
    _comparisons_that_cannot_be_estimated s =
      List.filter (uses_blocking_column rule) (comparisons settings) /\
    _comparisons_that_can_be_estimated s =
      List.filter (fun cc => negb (uses_blocking_column rule cc)) (comparisons settings) /\
    cms_comparisons (core_model_settings s) = _comparisons_that_can_be_estimated s /\
    _original_settings_obj s = settings /\
    _core_model_settings_history s = [].
Proof.
  intros Hnd. eexists. split; [reflexivity|]. cbn.
  split; [done|]. split; [|done].
  apply List.filter_ext_in. intros cc Hcc. f_equal.
  fold (uses_blocking_column rule).
  destruct (uses_blocking_column rule cc) eqn:Euse.
  - apply name_in_spec, in_map, filter_In. done.
  - apply not_true_iff_false. intros (cc' & Hname & Hin)%name_in_spec%in_map_iff.
    apply filter_In in Hin as [Hin Huse].
    assert (cc' = cc) as -> by (by eapply NoDup_fmap_eq).
    congruence.
Qed.

(** *** More on _train *)

Lemma update_first_id {A} (p : A -> bool) (f : A -> A) (l l' : list A) :
  (forall x, f x = x) -> update_first p f l = Some l' -> l' = l.
Proof.
  intros Hf. revert l'. induction l as [|x l IH]; intros l'; simpl; [done|].
  destruct (p x).
  - intros [= <-]. by rewrite Hf.
  - destruct (update_first p f l) as [l1|]; simpl; [|done].
    intros [= <-]. f_equal. by apply IH.
Qed.

Lemma with_levels_same occ : with_levels occ (comparison_levels occ) = occ.
Proof. by destruct occ. Qed.

Lemma fold_back_levels_fixed desc cc levels occ occ' log r :
  fold_back_levels true true desc cc levels occ = (occ', log, r) -> occ' = occ /\ log = [].
Proof.
  revert occ log r. induction levels as [|cl rest IH]; intros occ log r; simpl.
  - by intros [= <- <- _].
  - destruct (update_first _ _ _) as [levels'|] eqn:E; [|by intros [= <- <- _]].
    apply update_first_id in E; [|done]. subst levels'. rewrite with_levels_same.
    destruct (fold_back_levels true true desc cc rest occ) as [[occ1 log1] r1] eqn:E1.
    intros [= <- <- _]. apply IH in E1 as [-> ->]. done.
Qed.

Lemma fold_back_fixed desc trained orig orig' log r :
  fold_back true true desc trained orig = (orig', log, r) -> orig' = orig /\ log = [].
Proof.
  revert orig log r. induction trained as [|cc rest IH]; intros orig log r; simpl.
  - by intros [= <- <- _].
  - destruct (split_first _ orig) as [[[pre occ] post]|] eqn:Es; [|by intros [= <- <- _]].
    apply split_first_Some in Es as [-> _].
    destruct (fold_back_levels true true desc cc _ occ) as [[occ1 log1] r1] eqn:El.
    apply fold_back_levels_fixed in El as [-> ->].
    destruct r1 as [[]|e]; [|by intros [= <- <- _]].
    destruct (fold_back true true desc rest (pre ++ occ :: post)) as [[orig1 log2] r2] eqn:Ef.
    intros [= <- <- _]. apply IH in Ef as [-> ->]. done.
Qed.

Lemma with_comparisons_same (settings : Settings num) :
  with_comparisons settings (comparisons settings) = settings.
Proof. by destruct settings. Qed.

(** The error of the fold-back is one of the two lookup errors. *)
Lemma fold_back_levels_error fm fu desc cc levels occ occ' log e :
  fold_back_levels fm fu desc cc levels occ = (occ', log, Raise e) ->
  e = ValueError "No comparison level with this comparison vector value".
Proof.
  revert occ log. induction levels as [|cl rest IH]; intros occ log; simpl; [done|].
  destruct (update_first _ _ _) as [levels'|]; [|by intros [= _ _ <-]].
  destruct (fold_back_levels fm fu desc cc rest _) as [[occ1 log1] r1] eqn:E1.
  intros [= -> _ ->]. by eapply IH.
Qed.

Lemma fold_back_error fm fu desc trained orig orig' log e :
  fold_back fm fu desc trained orig = (orig', log, Raise e) ->
  e = ValueError "No comparison level with this comparison vector value" \/
  e = ValueError "No comparison column with this name".
Proof.
  revert orig log. induction trained as [|cc rest IH]; intros orig log; simpl; [done|].
  destruct (split_first _ orig) as [[[pre occ] post]|]; [|intros [= _ _ <-]; by right].
  destruct (fold_back_levels fm fu desc cc _ occ) as [[occ1 log1] [[]|e1]] eqn:El.
  - destruct (fold_back fm fu desc rest _) as [[orig1 log2] r2] eqn:Ef.
    intros [= -> _ ->]. by eapply IH.
  - intros [= _ _ <-]. left. by eapply fold_back_levels_error.
Qed.

(** What [_train] does once it has the comparison vectors [rows], from a
    state whose session is [s] and whose log is [evs]. *)
Definition train_on_rows (s : EMTrainingSession) (evs : list event) (rows : list cv_row)
  : state * outcome unit :=
  let evs := evs ++ [AsRecordDict 1] in
  match firstn 1 rows with
  | [] => ({| session := s; events := evs |},
           Raise (EMTrainingException (no_record_pairs_message (_blocking_rule_for_training s))))
  | _ :: _ =>
      let fix_m := _training_fix_m_probabilities s in
      let fix_u := _training_fix_u_probabilities s in
      let fix_l := _training_fix_probability_two_random_records_match s in
      let evs := evs ++ [ExpectationMaximisation fix_m fix_u fix_l] in
      let history := expectation_maximisation (core_model_settings s) fix_m fix_u fix_l rows in
      match last history with
      | None => ({| session := s; events := evs |}, Raise IndexError)
      | Some final =>
          let '(orig, log, r) :=
            fold_back fix_m fix_u (training_desc_of (_blocking_rule_for_training s))
              (cms_comparisons final) (comparisons (_original_settings_obj s)) in
          ({| session := with_original_comparisons (with_training_result s history final) orig;
              events := evs ++ log |}, r)
      end
  end.

Lemma train_with_rows s rows : run_train s (Some rows) = train_on_rows s [] rows.
Proof.
  unfold run_train, _train, train_on_rows.
  unfold bind, ret, emit, get_session, put_session, emit_all, raise. simpl.
  destruct (firstn 1 rows); [done|].
  destruct (last _) as [final|]; [|done]. simpl.
  destruct (fold_back _ _ _ _ _) as [[orig log] [[]|e]]; done.
Qed.

Lemma train_without_rows s :
  _training_fix_m_probabilities s && _training_fix_u_probabilities s = false ->
  exists msg,
    run_train s None =
    train_on_rows s (LogInfo msg :: comparison_vector_events (repartition_after_blocking s))
      (comparison_vectors_of (_blocking_rule_for_training s)).
Proof.
  intros Hfix.
  unfold run_train, _train, _comparison_vectors, _training_log_message, train_on_rows.
  unfold bind, ret, emit, get_session, put_session, emit_all, raise. simpl.
  rewrite Hfix. simpl. eexists. unfold comparison_vector_events.
  destruct (repartition_after_blocking s); simpl;
    (destruct (firstn 1 _); [reflexivity|]);
    (destruct (last _) as [final|]; [|reflexivity]); simpl;
    destruct (fold_back _ _ _ _ _) as [[orig log] [[]|e]]; reflexivity.
Qed.

Lemma train_on_rows_error s evs rows st msg :
  train_on_rows s evs rows = (st, Raise (ValueError msg)) ->
  msg = "No comparison level with this comparison vector value" \/
  msg = "No comparison column with this name".
Proof.
  unfold train_on_rows. destruct (firstn 1 rows); [done|].
  destruct (last _) as [final|]; [|done].
  destruct (fold_back _ _ _ _ _) as [[orig log] [[]|e]] eqn:Ef; [done|].
  intros [= _ ->]. apply fold_back_error in Ef as [[= ->]|[= ->]]; auto.
Qed.

Lemma train_on_rows_fixed s evs rows :
  _training_fix_m_probabilities s = true ->
  _training_fix_u_probabilities s = true ->
  _original_settings_obj (session (train_on_rows s evs rows).1) = _original_settings_obj s /\
  forall m_or_u column label value,
    LogNotTrained m_or_u column label value ∈ events (train_on_rows s evs rows).1 ->
    LogNotTrained m_or_u column label value ∈ evs.
Proof.
  intros Hm Hu. unfold train_on_rows. rewrite Hm, Hu.
  destruct (firstn 1 rows); simpl.
  { split; [done|]. intros ???? [H|H]%elem_of_app; [done|].
    apply list_elem_of_singleton in H. discriminate. }
  assert (forall e m_or_u column label value,
            LogNotTrained m_or_u column label value ∈
              (evs ++ [AsRecordDict 1]) ++
              [ExpectationMaximisation true true e] ->
            LogNotTrained m_or_u column label value ∈ evs) as Hev.
  { intros ????? [[H|H]%elem_of_app|H]%elem_of_app; [done| |];
      apply list_elem_of_singleton in H; discriminate. }
  destruct (last _) as [final|]; simpl; [|split; [done|apply Hev]].
  destruct (fold_back _ _ _ _ _) as [[orig log] r] eqn:Ef.
  apply fold_back_fixed in Ef as [-> ->]. simpl.
  rewrite with_comparisons_same, app_nil_r. split; [done|apply Hev].
Qed.

(** The configuration error is raised only on the path that computes the
    comparison vectors: [_train] ends with it exactly when no vectors are
    supplied and the session fixes both m and u, and then nothing has been
    logged, read or run and the session is as it was.  A call that is handed
    the vectors never raises it. *)
Theorem train_config_error_iff s cvv :
  snd (run_train s cvv) =
    Raise (ValueError "Can't train model if you fix both m and u probabilites") <->
  cvv = None /\
  _training_fix_m_probabilities s = true /\ _training_fix_u_probabilities s = true /\
  fst (run_train s cvv) = {| session := s; events := [] |}.
Proof.
  split.
  - destruct cvv as [rows|].
    + rewrite train_with_rows. destruct (train_on_rows s [] rows) as [st r] eqn:E.
      simpl. intros ->. apply train_on_rows_error in E as [?|?]; discriminate.
    + destruct (_training_fix_m_probabilities s && _training_fix_u_probabilities s) eqn:Hfix.
      * apply andb_true_iff in Hfix as [Hm Hu].
        rewrite (train_both_fixed_fails_fast s Hm Hu). done.
      * destruct (train_without_rows s Hfix) as [msg ->].
        destruct (train_on_rows s _ _) as [st r] eqn:E. simpl. intros ->.
        apply train_on_rows_error in E as [?|?]; discriminate.
  - intros (-> & Hm & Hu & _). by rewrite (train_both_fixed_fails_fast s Hm Hu).
Qed.

(** A session that fixes both m and u writes nothing back, however
    [_train] is called and however it ends: the settings of the linker are
    as they were, and no "not trained" line is logged. *)
Theorem train_both_fixed_writes_nothing s cvv :
  _training_fix_m_probabilities s = true ->
  _training_fix_u_probabilities s = true ->
  _original_settings_obj (session (run_train s cvv).1) = _original_settings_obj s /\
  forall m_or_u column label value,
    LogNotTrained m_or_u column label value ∉ events (run_train s cvv).1.
Proof.
  intros Hm Hu. destruct cvv as [rows|].
  - rewrite train_with_rows.
    destruct (train_on_rows_fixed s [] rows Hm Hu) as [Hs Hev].
    split; [done|]. intros ???? H. apply Hev in H. by apply elem_of_nil in H.
  - rewrite (train_both_fixed_fails_fast s Hm Hu). simpl. split; [done|].
    intros ????. apply not_elem_of_nil.
Qed.

Lemma record_all_unmatched fm fu desc levels ocl :
  List.filter (fun cl => same_value cl ocl) levels = [] ->
  record_all fm fu desc levels ocl = ocl.
Proof.
  unfold record_all. induction levels as [|cl rest IH]; simpl; [done|].
  unfold record_on at 2. destruct (same_value cl ocl); [done|]. exact IH.
Qed.

Lemma record_comparison_unmatched fm fu desc trained occ :
  Forall (fun cc => output_column_name cc <> output_column_name occ) trained ->
  fold_left (fun o cc => record_comparison fm fu desc cc o) trained occ = occ.
Proof.
  induction 1 as [|cc rest Hcc _ IH]; simpl; [done|].
  unfold record_comparison at 2. unfold same_name.
  destruct (String.eqb_spec (output_column_name occ) (output_column_name cc)); [congruence|].
  exact IH.
Qed.

(** After [_train] has ended, a level of the original settings that no
    trained non-null level matches by comparison name and vector value is
    exactly as it was; in particular the null levels of the trained
    comparisons write nothing.  A comparison whose name no trained
    comparison bears, such as one deactivated for the session, is exactly as
    it was. *)
Theorem train_leaves_unmatched s cvv st :
  run_train s cvv = (st, Ok tt) ->
  NoDup (map output_column_name (comparisons (_original_settings_obj s))) ->
  unique_values (comparisons (_original_settings_obj s)) ->
  let trained := cms_comparisons (core_model_settings (session st)) in
  Forall2 (fun occ occ' =>
     Forall2 (fun ocl ocl' => trained_levels_for trained occ ocl = [] -> ocl' = ocl)
       (comparison_levels occ) (comparison_levels occ') /\
     (Forall (fun cc => output_column_name cc <> output_column_name occ) trained ->
      occ' = occ))
    (comparisons (_original_settings_obj s))
    (comparisons (_original_settings_obj (session st))).
Proof.
  intros Hrun Hnd Hu trained.
  destruct (train_ok s cvv st Hrun) as (rows & history & final & orig & log & Hh & Hl & Hf & Hs).
  subst trained. rewrite Hs. simpl.
  apply fold_back_ok in Hf; [|done..]. subst orig.
  apply Forall2_fmap_r, Forall_Forall2_diag, Forall_forall. intros occ _.
  split.
  - destruct (record_comparisons_fields (_training_fix_m_probabilities s)
                (_training_fix_u_probabilities s)
                (training_desc_of (_blocking_rule_for_training s))
                (cms_comparisons final) occ) as [_ Hlv].
    rewrite Hlv.
    apply Forall2_fmap_r, Forall_Forall2_diag, Forall_forall. intros ocl _ Hnone.
    by apply record_all_unmatched.
  - apply record_comparison_unmatched.
Qed.

End Session.

(** *** A concrete session *)

(** Two comparisons of three levels each (a null level, an exact match and
    an else level); probabilities are rationals. *)
Definition level_of (value : Z) (null : bool) (m u : Q) : ComparisonLevel Q :=
  {| _comparison_vector_value := value;
     is_null_level := null;
     label_for_charts := "";
     _m_probability := Value m;
     _u_probability := Value u;
     _tf_adjustment_column := None;
     _trained_m_probabilities := [];
     _trained_u_probabilities := [] |}.

Definition comparison_of (name : string) : Comparison Q :=
  {| output_column_name := name;
     comparison_levels :=
       [level_of (-1) true 0 0; level_of 1 false (9 # 10) (1 # 10);
        level_of 0 false (1 # 10) (9 # 10)];
     _input_columns_used_by_case_statement := [name] |}.

Definition settings_ex : Settings Q :=
  {| _link_type := dedupe_only;
     comparisons := [comparison_of "first_name"; comparison_of "dob"];
     _probability_two_random_records_match := 1 # 1000;
     _blocking_rules_to_generate_predictions := [];
     _retain_matching_columns := true;
     _retain_intermediate_calculation_columns := true;
     _training_mode := false |}.

(** A stand-in for the EM engine: two snapshots, the second with, unless m
    is fixed, the m of every else level (vector value 0) not observed. *)
Definition em_ex (cms : CoreModelSettings Q) (fix_m fix_u fix_lambda : bool)
  (rows : list unit) : list (CoreModelSettings Q) :=
  [cms;
   {| cms_comparisons :=
        map (fun cc =>
               with_levels cc
                 (map (fun cl =>
                         if fix_m || negb (_comparison_vector_value cl =? 0)%Z then cl
                         else {| _comparison_vector_value := _comparison_vector_value cl;
                                 is_null_level := is_null_level cl;
                                 label_for_charts := label_for_charts cl;
                                 _m_probability := NotObserved;
                                 _u_probability := _u_probability cl;
                                 _tf_adjustment_column := _tf_adjustment_column cl;
                                 _trained_m_probabilities := _trained_m_probabilities cl;
                                 _trained_u_probabilities := _trained_u_probabilities cl |})
                    (comparison_levels cc)))
            (cms_comparisons Q cms);
      probability_two_random_records_match := probability_two_random_records_match Q cms |}].

(** A backend on which only the rule ["l.dob = r.dob"] yields pairs. *)
Definition vectors_ex (rule : string) : list unit :=
  if String.eqb rule "l.dob = r.dob" then [tt; tt; tt] else [].

Definition columns_ex (rule : string) : list string :=
  if String.eqb rule "l.dob = r.dob" then ["dob"] else [].

Definition init_ex (rule : string) (fix_u fix_m : bool)
  : list event * outcome (EMTrainingSession Q) :=
  init Q columns_ex (fun _ _ => []) (fun p => p) (fun p => p) (fun _ => 1%Q) Qmult
    settings_ex false rule fix_u fix_m false [] [] false.

Definition session_ex (rule : string) (fix_u fix_m : bool) : EMTrainingSession Q :=
  match init_ex rule fix_u fix_m with
  | (_, Ok s) => s
  | (_, Raise _) =>
      {| _original_settings_obj := settings_ex;
         core_model_settings :=
           {| cms_comparisons := []; probability_two_random_records_match := 0%Q |};
         _blocking_rule_for_training := rule;
         _comparison_levels_to_reverse_blocking_rule := [];
         _training_fix_u_probabilities := fix_u;
         _training_fix_m_probabilities := fix_m;
         _training_fix_probability_two_random_records_match := false;
         _comparisons_that_cannot_be_estimated := [];
         _comparisons_that_can_be_estimated := [];
         estimate_without_term_frequencies := false;
         _core_model_settings_history := [];
         repartition_after_blocking := false |}
  end.

Definition run_train_ex (s : EMTrainingSession Q) (cvv : option (list unit))
  : state Q * outcome unit :=
  run_train Q unit vectors_ex em_ex (fun _ => 0%Q) (fun _ => 0%Q) s cvv.

Example init_ex_created :
  snd (init_ex "l.dob = r.dob" true true) = Ok (session_ex "l.dob = r.dob" true true) /\
  map output_column_name
    (cms_comparisons Q (core_model_settings Q (session_ex "l.dob = r.dob" true true)))
    = ["first_name"].
Proof. split; reflexivity. Qed.

(** C1 at a failing input: a session created with both m and u fixed
    trains on comparison vectors handed to [_train]: no [ValueError], the EM
    engine is called. *)
Theorem train_both_fixed_with_vectors_trains :
  let s := session_ex "l.dob = r.dob" true true in
  snd (init_ex "l.dob = r.dob" true true) = Ok s /\
  _training_fix_m_probabilities Q s = true /\
  _training_fix_u_probabilities Q s = true /\
  snd (run_train_ex s (Some [tt])) = Ok tt /\
  events Q (fst (run_train_ex s (Some [tt]))) =
    [AsRecordDict 1; ExpectationMaximisation true true false].
Proof. repeat split. Qed.

(** C2 (as stated) fails: the rule ["1=0"] yields no pair, and [_train] on
    a session that fixes both m and u raises the [ValueError] of the
    configuration check, not an [EMTrainingException]. *)
Lemma train_on_no_pairs_both_fixed :
  vectors_ex "1=0" = [] /\
  ~ (exists msg, snd (run_train_ex (session_ex "1=0" true true) None)
                 = Raise (EMTrainingException msg)).
Proof.
  split; [reflexivity|]. intros (msg & H).
  rewrite (train_both_fixed_fails_fast Q unit vectors_ex em_ex (fun _ => 0%Q) (fun _ => 0%Q))
    in H by reflexivity.
  discriminate.
Qed.

Lemma train_on_no_pairs_witness :
  exists st,
    run_train_ex (session_ex "1=0" true false) None =
      (st, Raise (EMTrainingException (no_record_pairs_message "1=0"))).
Proof.
  destruct (train_on_no_pairs Q unit vectors_ex em_ex (fun _ => 0%Q) (fun _ => 0%Q)
              (session_ex "1=0" true false) None (conj eq_refl eq_refl))
    as (st & H & _).
  exists st. exact H.
Defined.

Lemma settings_ex_unique :
  NoDup (map output_column_name (comparisons settings_ex)) /\
  unique_values Q (comparisons settings_ex).
Proof.
  unfold unique_values. split; apply (bool_decide_unpack _); by vm_compute.
Qed.

Lemma fold_back_records_sentinel_witness :
  let st := fst (run_train_ex (session_ex "l.dob = r.dob" true false) None) in
  last (_core_model_settings_history Q (session Q st)) = Some (core_model_settings Q (session Q st)).
Proof.
  exact (proj1 (fold_back_records_sentinel Q unit vectors_ex em_ex (fun _ => 0%Q) (fun _ => 0%Q)
                  (session_ex "l.dob = r.dob" true false) None _ eq_refl
                  (proj1 settings_ex_unique) (proj2 settings_ex_unique))).
Defined.

(** On the concrete session: blocking on [dob] trains [first_name] only; its
    else level was not observed and gets the sentinel, its exact level gets
    the trained number, and with u fixed no u history is written. *)
Example fold_back_on_session_ex :
  let st := fst (run_train_ex (session_ex "l.dob = r.dob" true false) None) in
  map (fun occ =>
         (output_column_name occ,
          map (fun ocl => (_comparison_vector_value ocl,
                           map trained_probability (_trained_m_probabilities ocl),
                           map trained_probability (_trained_u_probabilities ocl)))
            (comparison_levels occ)))
    (comparisons (_original_settings_obj Q (session Q st)))
  = [("first_name", [((-1)%Z, [], []); (1%Z, [Value (9 # 10)], []); (0%Z, [NotObserved], [])]);
     ("dob", [((-1)%Z, [], []); (1%Z, [], []); (0%Z, [], [])])].
Proof. reflexivity. Qed.

Lemma init_deactivates_by_blocking_columns_witness :
  map output_column_name
    (_comparisons_that_can_be_estimated Q (session_ex "l.dob = r.dob" false false)) =
  map output_column_name
    (List.filter (fun cc => negb (uses_blocking_column Q columns_ex "l.dob = r.dob" cc))
       (comparisons settings_ex)).
Proof.
  destruct (init_deactivates_by_blocking_columns Q columns_ex (fun _ _ => []) (fun p => p)
              (fun p => p) (fun _ => 1%Q) Qmult settings_ex false "l.dob = r.dob"
              false false false false (proj1 settings_ex_unique))
    as (s & Hs & _ & Hcan & _).
  injection Hs as <-. exact (f_equal (map output_column_name) Hcan).
Defined.

Lemma train_config_error_iff_witness :
  fst (run_train_ex (session_ex "l.dob = r.dob" true true) None) =
    {| session := session_ex "l.dob = r.dob" true true; events := [] |}.
Proof.
  exact (proj2 (proj2 (proj2
    (proj1 (train_config_error_iff Q unit vectors_ex em_ex (fun _ => 0%Q) (fun _ => 0%Q)
              (session_ex "l.dob = r.dob" true true) None) eq_refl)))).
Defined.

Lemma train_both_fixed_writes_nothing_witness :
  _original_settings_obj Q
    (session Q (fst (run_train_ex (session_ex "l.dob = r.dob" true true) (Some [tt])))) =
  settings_ex.
Proof.
  exact (proj1 (train_both_fixed_writes_nothing Q unit vectors_ex em_ex
                  (fun _ => 0%Q) (fun _ => 0%Q)
                  (session_ex "l.dob = r.dob" true true) (Some [tt]) eq_refl eq_refl)).
Defined.

Lemma train_leaves_unmatched_witness :
  let st := fst (run_train_ex (session_ex "l.dob = r.dob" true false) None) in
  Forall2 (fun occ occ' =>
     Forall2 (fun ocl ocl' =>
        trained_levels_for Q (cms_comparisons Q (core_model_settings Q (session Q st))) occ ocl
          = [] -> ocl' = ocl)
       (comparison_levels occ) (comparison_levels occ') /\
     (Forall (fun cc => output_column_name cc <> output_column_name occ)
        (cms_comparisons Q (core_model_settings Q (session Q st))) ->
      occ' = occ))
    (comparisons settings_ex)
    (comparisons (_original_settings_obj Q (session Q st))).
Proof.
  exact (train_leaves_unmatched Q unit vectors_ex em_ex (fun _ => 0%Q) (fun _ => 0%Q)
           (session_ex "l.dob = r.dob" true false) None _ eq_refl
           (proj1 settings_ex_unique) (proj2 settings_ex_unique)).
Defined.

(** *** The history records *)

(** A record of [_lambda_history_records]: the values under
    ["probability_two_random_records_match"],
    ["probability_two_random_records_match_reciprocal"] and ["iteration"]. *)
Record lambda_record : Type := {
  lambda_value : Q;
  lambda_reciprocal : Q;
  lambda_iteration : nat
}.

(** The loop of [_lambda_history_records] from iteration [i] on; [None] is
    the [ZeroDivisionError] of [1 / lam]. *)
Fixpoint lambda_records_from (i : nat) (history : list (CoreModelSettings Q))
  : option (list lambda_record) :=
  match history with
  | [] => Some []
  | s :: rest =>
      let lam := probability_two_random_records_match Q s in
      if Qeq_bool lam 0 then None
      else
        cons {| lambda_value := lam; lambda_reciprocal := 1 / lam; lambda_iteration := i |}
          <$> lambda_records_from (S i) rest
  end.

Definition _lambda_history_records (s : EMTrainingSession Q) : option (list lambda_record) :=
  lambda_records_from 0 (_core_model_settings_history Q s).

Lemma lambda_records_from_None i history :
  lambda_records_from i history = None <->
  Exists (fun cms => (probability_two_random_records_match Q cms == 0)%Q) history.
Proof.
  revert i. induction history as [|cms rest IH]; intros i; simpl.
  - split; [done|]. by intros H%Exists_nil.
  - rewrite Exists_cons, <- (IH (S i)).
    destruct (Qeq_bool _ 0) eqn:E.
    + apply Qeq_bool_iff in E. split; [by left|done].
    + apply Qeq_bool_neq in E.
      destruct (lambda_records_from (S i) rest); simpl; split; try done.
      * by intros [?|?].
      * intros _. by right.
Qed.

Lemma lambda_records_from_Some i history recs :
  lambda_records_from i history = Some recs ->
  length recs = length history /\
  forall j r, recs !! j = Some r ->
    lambda_iteration r = (i + j)%nat /\
    (exists cms, history !! j = Some cms /\
                 lambda_value r = probability_two_random_records_match Q cms) /\
    (lambda_value r * lambda_reciprocal r == 1)%Q.
Proof.
  revert i recs. induction history as [|cms rest IH]; intros i recs; simpl.
  - intros [= <-]. split; [done|]. intros j r. by rewrite lookup_nil.
  - destruct (Qeq_bool _ 0) eqn:E; [done|]. apply Qeq_bool_neq in E.
    destruct (lambda_records_from (S i) rest) as [recs'|] eqn:Er; [|done].
    simpl. intros [= <-]. destruct (IH _ _ Er) as [Hlen Hrec].
    split; [simpl; by rewrite Hlen|].
    intros [|j] r; simpl.
    + intros [= <-]. simpl. split; [lia|]. split; [by eexists|].
      field. exact E.
    + intros Hj. destruct (Hrec j r Hj) as (Hi & Hcms & Hinv).
      split; [lia|]. done.
Qed.

(** The records of the λ chart cannot be built when some snapshot of the
    history has λ = 0: the reciprocal raises [ZeroDivisionError].  Otherwise
    there is one record per snapshot, in order, numbered from 0, holding the
    λ of its snapshot and its reciprocal. *)
Theorem lambda_history_records_spec (s : EMTrainingSession Q) :
  (_lambda_history_records s = None <->
   Exists (fun cms => (probability_two_random_records_match Q cms == 0)%Q)
     (_core_model_settings_history Q s)) /\
  (forall recs, _lambda_history_records s = Some recs ->
     length recs = length (_core_model_settings_history Q s) /\
     forall j r, recs !! j = Some r ->
       lambda_iteration r = j /\
       (exists cms, _core_model_settings_history Q s !! j = Some cms /\
                    lambda_value r = probability_two_random_records_match Q cms) /\
       (lambda_value r * lambda_reciprocal r == 1)%Q).
Proof.
  split; [apply lambda_records_from_None|].
  intros recs H. apply lambda_records_from_Some in H as [Hlen Hrec]. split; [done|].
  intros j r Hj. by destruct (Hrec j r Hj) as (-> & ? & ?).
Qed.

Lemma lambda_history_records_spec_witness :
  length
    (default [] (_lambda_history_records
       (session Q (fst (run_train_ex (session_ex "l.dob = r.dob" true false) None))))) =
  2%nat.
Proof.
  destruct (_lambda_history_records
              (session Q (fst (run_train_ex (session_ex "l.dob = r.dob" true false) None))))
    as [recs|] eqn:E; [|discriminate E].
  exact (proj1 (proj2 (lambda_history_records_spec _) recs E)).
Defined.

Section IterationHistory.

Variable num : Type.

(** A value of a detailed record. *)
Inductive field : Type :=
| FNum (x : num)
| FInt (n : nat)
| FStr (s : string).

(** [CoreModelSettings.parameters_as_detailed_records] (settings.py) is
    outside these sources and taken as given. *)
Variable parameters_as_detailed_records : CoreModelSettings num -> list (gmap string field).

Definition _iteration_history_records (s : EMTrainingSession num) : list (gmap string field) :=
  flat_map
    (fun ic : nat * CoreModelSettings num =>
       map (fun r =>
              <["probability_two_random_records_match" :=
                  FNum (probability_two_random_records_match num (core_model_settings num s))]>
                (<["iteration" := FInt ic.1]> r))
           (parameters_as_detailed_records ic.2))
    (imap pair (_core_model_settings_history num s)).

(** Every record of the iteration history, whatever its iteration, holds
    the λ of the session's current parameters, not the λ of the snapshot it
    comes from; its iteration is the index of that snapshot, and apart from
    these two keys it is the detailed record of the snapshot. *)
Theorem iteration_history_records_lambda (s : EMTrainingSession num) r :
  r ∈ _iteration_history_records s ->
  r !! "probability_two_random_records_match" =
    Some (FNum (probability_two_random_records_match num (core_model_settings num s))) /\
  exists i cms r0,
    _core_model_settings_history num s !! i = Some cms /\
    r0 ∈ parameters_as_detailed_records cms /\
    r !! "iteration" = Some (FInt i) /\
    forall k, k <> "probability_two_random_records_match" -> k <> "iteration" ->
              r !! k = r0 !! k.
Proof.
  unfold _iteration_history_records.
  intros ([i cms] & Hic & Hr)%list_elem_of_In%in_flat_map.
  apply in_map_iff in Hr as (r0 & <- & Hr0). simpl.
  split; [by rewrite lookup_insert_eq|].
  exists i, cms, r0. split; [|split; [by apply list_elem_of_In|split]].
  - apply list_elem_of_In, list_elem_of_lookup in Hic as [j Hj].
    rewrite list_lookup_imap in Hj.
    destruct (_core_model_settings_history num s !! j) as [c|] eqn:E; [|done].
    simpl in Hj. by injection Hj as <- <-.
  - rewrite lookup_insert_ne by done. by rewrite lookup_insert_eq.
  - intros k Hk1 Hk2. by rewrite !lookup_insert_ne.
Qed.

End IterationHistory.

Lemma iteration_history_records_lambda_witness :
  let s := session Q (fst (run_train_ex (session_ex "l.dob = r.dob" true false) None)) in
  <["probability_two_random_records_match" :=
      FNum Q (probability_two_random_records_match Q (core_model_settings Q s))]>
    (<["iteration" := FInt Q 0]> (∅ : gmap string (field Q)))
    !! "probability_two_random_records_match" =
  Some (FNum Q (probability_two_random_records_match Q (core_model_settings Q s))).
Proof.
  intros s.
  apply (iteration_history_records_lambda Q (fun _ => [∅]) s).
  unfold _iteration_history_records. apply list_elem_of_In, in_flat_map.
  eexists (0%nat, _). split; [left; reflexivity|]. left. reflexivity.
Defined.

End EMTrainingSession.

(** ** internals/datasets/splink_datasets.py *)

Module SplinkDatasets.

Inductive exn : Type :=
| ValueError (msg : string)
| URLError (url : string).

Inductive outcome (A : Type) : Type :=
| Ok (a : A)
| Raise (e : exn).
Arguments Ok {A} a.
Arguments Raise {A} e.

(** The metadata of a dataset ([metadata.py] is outside these sources). *)
Record ds_meta : Type := {
  dataset_name : string;
  url : string;
  data_format : string
}.

(** What a call does that can be observed from outside: a line printed, a
    URL opened, the cache directory made, a file written. *)
Inductive event : Type :=
| Printed (msg : string)
| UrlOpened (url : string)
| DirMade (path : string)
| FileWritten (path : string).

(** The files by path, with their bytes, and what has happened so far. *)
Record world : Type := {
  files : gmap string string;
  events : list event
}.

Section Lazyload.

(** [pd.DataFrame] and the two readers of pandas, which parse bytes or fail
    with an exception of their own; the bytes a URL serves, [None] when the
    request fails. *)
Variable frame : Type.
Variable pandas_exn : Type.
Variables read_csv read_parquet : string -> frame + pandas_exn.
Variable urlopen : string -> option string.

Definition _cache_dir : string := "__splinkdata_cache__".

(** [_cache_dir / f"{dataset_name}.{data_format}"] *)
Definition file_loc (ds : ds_meta) : string :=
  _cache_dir +:+ "/" +:+ dataset_name ds +:+ "." +:+ data_format ds.

Definition datafile_exists (w : world) (file_loc : string) : bool :=
  bool_decide (is_Some (files w !! file_loc)).

(** [{"csv": pd.read_csv, "parquet": pd.read_parquet}.get(data_format, None)] *)
Definition read_function (data_format : string) : option (string -> frame + pandas_exn) :=
  if String.eqb data_format "csv" then Some read_csv
  else if String.eqb data_format "parquet" then Some read_parquet
  else None.

(** [lazyload_data]: the world it leaves and what it returns, a frame or
    the exception of the reader.  A reader handed the path of the cached
    file parses the bytes of that file. *)
Definition lazyload_data (ds : ds_meta) (w : world)
  : world * outcome (frame + pandas_exn) :=
  let file_loc := file_loc ds in
  let fetched : world * outcome string :=
    if negb (datafile_exists w file_loc) then
      let downloading := Printed ("downloading: " +:+ url ds) in
      match urlopen (url ds) with
      | None =>
          ({| files := files w; events := events w ++ [downloading; UrlOpened (url ds)] |},
           Raise (URLError (url ds)))
      | Some data =>
          ({| files := <[file_loc := data]> (files w);
              events := events w ++ [downloading; UrlOpened (url ds); Printed "";
                                     DirMade _cache_dir; FileWritten file_loc] |},
           Ok data)
      end
    else (w, Ok (default "" (files w !! file_loc))) in
  match fetched with
  | (w', Raise e) => (w', Raise e)
  | (w', Ok data_stream) =>
      match read_function (data_format ds) with
      | None =>
          (w', Raise (ValueError ("Error retrieving dataset " +:+ dataset_name ds
                                  +:+ " - invalid format!")))
      | Some read => (w', Ok (read data_stream))
      end
  end.

(** A dataset is downloaded at most once.  A call that finds the file in
    the cache changes nothing and contacts nobody, whatever the URL serves
    by then; and after a call that downloaded the file, a second call
    returns what the first one returned and leaves the world as the first
    one left it. *)
Theorem lazyload_data_downloads_once ds w :
  (is_Some (files w !! file_loc ds) -> (lazyload_data ds w).1 = w) /\
  (forall data,
     files w !! file_loc ds = None -> urlopen (url ds) = Some data ->
     files (lazyload_data ds w).1 = <[file_loc ds := data]> (files w) /\
     lazyload_data ds (lazyload_data ds w).1 = lazyload_data ds w).
Proof.
  unfold lazyload_data, datafile_exists. split.
  - intros Hcached. rewrite bool_decide_eq_true_2 by done. simpl.
    by destruct (read_function _).
  - intros data Hnone Hdata. rewrite Hnone, Hdata.
    rewrite bool_decide_eq_false_2 by (by intros [? ?]). simpl.
    split; [by destruct (read_function _)|].
    destruct (read_function (data_format ds)); simpl;
      rewrite lookup_insert_eq, bool_decide_eq_true_2 by (by eexists); done.
Qed.

(** The format is checked last.  For a format other than ["csv"] and
    ["parquet"] a call on a file that is not cached first downloads it and
    writes it to the cache, and only then raises the "invalid format"
    [ValueError]; when the download fails the error is that of the request
    and nothing is written. *)
Theorem lazyload_data_invalid_format ds w :
  data_format ds <> "csv" -> data_format ds <> "parquet" ->
  files w !! file_loc ds = None ->
  match urlopen (url ds) with
  | Some data =>
      (lazyload_data ds w).2 =
        Raise (ValueError ("Error retrieving dataset " +:+ dataset_name ds
                           +:+ " - invalid format!")) /\
      files (lazyload_data ds w).1 = <[file_loc ds := data]> (files w)
  | None =>
      (lazyload_data ds w).2 = Raise (URLError (url ds)) /\
      files (lazyload_data ds w).1 = files w
  end.
Proof.
  intros Hcsv Hparquet Hnone. unfold lazyload_data, datafile_exists. rewrite Hnone.
  rewrite bool_decide_eq_false_2 by (by intros [? ?]). simpl.
  destruct (urlopen (url ds)) as [data|]; [|done].
  unfold read_function.
  destruct (String.eqb_spec (data_format ds) "csv"); [done|].
  destruct (String.eqb_spec (data_format ds) "parquet"); [done|].
  done.
Qed.

End Lazyload.

(** A dataset in a format that has no reader, served as three bytes. *)
Definition ds_ex : ds_meta :=
  {| dataset_name := "fake_1000"; url := "https://example.org/fake_1000.xlsx";
     data_format := "xlsx" |}.

Definition world_ex : world := {| files := ∅; events := [] |}.

Lemma lazyload_data_downloads_once_witness :
  lazyload_data unit unit (fun _ => inl tt) (fun _ => inl tt) (fun _ => Some "a,b")
    ds_ex
    (lazyload_data unit unit (fun _ => inl tt) (fun _ => inl tt) (fun _ => Some "a,b")
       ds_ex world_ex).1 =
  lazyload_data unit unit (fun _ => inl tt) (fun _ => inl tt) (fun _ => Some "a,b")
    ds_ex world_ex.
Proof.
  exact (proj2 (proj2 (lazyload_data_downloads_once unit unit (fun _ => inl tt)
                         (fun _ => inl tt) (fun _ => Some "a,b") ds_ex world_ex)
                  "a,b" eq_refl eq_refl)).
Defined.

Lemma lazyload_data_invalid_format_witness :
  (lazyload_data unit unit (fun _ => inl tt) (fun _ => inl tt) (fun _ => Some "a,b")
     ds_ex world_ex).2 =
    Raise (ValueError "Error retrieving dataset fake_1000 - invalid format!") /\
  files (lazyload_data unit unit (fun _ => inl tt) (fun _ => inl tt) (fun _ => Some "a,b")
           ds_ex world_ex).1 =
    <["__splinkdata_cache__/fake_1000.xlsx" := "a,b"]> ∅.
Proof.
  exact (lazyload_data_invalid_format unit unit (fun _ => inl tt) (fun _ => inl tt)
           (fun _ => Some "a,b") ds_ex world_ex
           ltac:(discriminate) ltac:(discriminate) eq_refl).
Defined.

End SplinkDatasets.
